(** * ATS-MINI remote backend: serial protocol engine

    A shallow embedding of [backend.py] (the Flask backend that bridges a
    browser to an ATS-MINI receiver over a serial link) and of the
    stand-alone [screenshot.py] tool, together with the properties of the
    telemetry parser, the frequency formatter, the command channel, the
    link manager and the screenshot transfer.

    Conventions of the embedding.
    - Python [str] values are Rocq [string]s.  The wire protocol is
      7-bit ASCII, and the text helpers below ([is_space], [upper],
      [int_of_str], ...) are Python's on ASCII text.  They are not
      Python's on other text (Unicode has more blanks, digits and case
      pairs), and bytes that are ASCII decode to the same characters:
      a property that depends on what these helpers do to the content
      of a text is stated for ASCII text ([Spec.is_ascii]).
    - Python [int] is [Z] (unbounded).  CPython's limit on the digits
      of a decimal literal ([int_max_str_digits]) is modelled for
      [int(s)] at its default, 4300; [str(n)] is used below that limit
      only, and the properties that print an arbitrary [int] say so.
    - Python [float] is IEEE-754 binary64, modelled by its exact value
      (sign, integer significand, binary exponent) with round-to-nearest,
      ties-to-even, written out on [Z].
    - A [dict] is a [gmap string _]; a key that was never assigned is
      absent from the map, which is different from a key bound to [None].
    - Exceptions are values of [exn]; code that may raise returns
      [result].
    - Wall-clock time is abstracted by scripts: the finite list of
      [readline] outcomes that happen before a deadline passes. *)

From Stdlib Require Import ZArith String Ascii List Bool Lia.
From Stdlib Require Import DecimalString DecimalN.
From Stdlib Require Floats.SpecFloat.
From stdpp Require Import gmap strings.

Import ListNotations.
Local Open Scope string_scope.
Local Open Scope list_scope.
Local Open Scope Z_scope.

(** ** Text primitives (Python [str] methods on ASCII text) *)

Module PyText.

Definition code (c : ascii) : Z := Z.of_N (N_of_ascii c).

(** [str.isspace] on one ASCII character: TAB, LF, VT, FF, CR, the four
    separators FS, GS, RS, US and the space. *)
Definition is_space (c : ascii) : bool :=
  let n := code c in
  ((9 <=? n) && (n <=? 13)) || ((28 <=? n) && (n <=? 32)).

Definition is_digit (c : ascii) : bool :=
  let n := code c in (48 <=? n) && (n <=? 57).

Definition digit_value (c : ascii) : Z := code c - 48.

Definition is_lower (c : ascii) : bool :=
  let n := code c in (97 <=? n) && (n <=? 122).

Definition upper_char (c : ascii) : ascii :=
  if is_lower c then ascii_of_N (N_of_ascii c - 32) else c.

(** [s.upper()] *)
Fixpoint upper (s : string) : string :=
  match s with
  | EmptyString => EmptyString
  | String c r => String (upper_char c) (upper r)
  end.

(** [s.lstrip()] *)
Fixpoint lstrip (s : string) : string :=
  match s with
  | EmptyString => EmptyString
  | String c r => if is_space c then lstrip r else s
  end.

(** [s.rstrip()] *)
Fixpoint rstrip (s : string) : string :=
  match s with
  | EmptyString => EmptyString
  | String c r =>
      match rstrip r with
      | EmptyString => if is_space c then EmptyString else String c EmptyString
      | r' => String c r'
      end
  end.

(** [s.strip()] *)
Definition strip (s : string) : string := rstrip (lstrip s).

(** [s.split(",")]: never empty, one more part than there are commas. *)
Fixpoint split_comma (s : string) : list string :=
  match s with
  | EmptyString => [EmptyString]
  | String c r =>
      if Ascii.eqb c "," then EmptyString :: split_comma r
      else match split_comma r with
           | h :: t => String c h :: t
           | [] => [String c EmptyString]
           end
  end.

(** ["," in s] and, in general, [c in s] for a one-character [c]. *)
Fixpoint contains_char (c : ascii) (s : string) : bool :=
  match s with
  | EmptyString => false
  | String d r => Ascii.eqb c d || contains_char c r
  end.

(** [s.endswith("\n")] *)
Fixpoint ends_with_char (c : ascii) (s : string) : bool :=
  match s with
  | EmptyString => false
  | String d EmptyString => Ascii.eqb c d
  | String _ r => ends_with_char c r
  end.

(** [s.replace(c, "")] for a one-character [c]. *)
Fixpoint remove_char (c : ascii) (s : string) : string :=
  match s with
  | EmptyString => EmptyString
  | String d r => if Ascii.eqb c d then remove_char c r else String d (remove_char c r)
  end.

(** [sep.join(parts)] *)
Fixpoint join (sep : string) (parts : list string) : string :=
  match parts with
  | [] => EmptyString
  | [p] => p
  | p :: rest => p +:+ sep +:+ join sep rest
  end.

(** [needle in hay] for strings. *)
Fixpoint is_substring (needle hay : string) : bool :=
  String.prefix needle hay ||
  match hay with
  | EmptyString => false
  | String _ r => is_substring needle r
  end.

Definition LF : ascii := ascii_of_N 10.
Definition CR : ascii := ascii_of_N 13.
Definition nl : string := String LF EmptyString.

(** [str(n)] for an [int]. *)
Definition str_of_nat_Z (n : Z) : string :=
  NilZero.string_of_uint (N.to_uint (Z.to_N n)).

Definition str_of_int (n : Z) : string :=
  if n <? 0 then String "-" (str_of_nat_Z (- n)) else str_of_nat_Z n.

(** The digits of an [int] literal after the sign: decimal digits, single
    underscores allowed between two digits. [seen] tells whether the
    previous character was a digit. *)
Fixpoint int_digits (acc : Z) (seen : bool) (s : string) : option Z :=
  match s with
  | EmptyString => if seen then Some acc else None
  | String c r =>
      if is_digit c then int_digits (acc * 10 + digit_value c) true r
      else if Ascii.eqb c "_" && seen then int_digits acc false r
      else None
  end.

(** The blanks [int] skips around a literal in an ASCII [str]: those of
    the C locale, TAB to CR and the space.  The separators FS to US,
    which [str.strip] removes, are not among them. *)
Definition is_c_space (c : ascii) : bool :=
  let n := code c in
  ((9 <=? n) && (n <=? 13)) || (n =? 32).

Fixpoint c_lstrip (s : string) : string :=
  match s with
  | EmptyString => EmptyString
  | String c r => if is_c_space c then c_lstrip r else s
  end.

Fixpoint c_rstrip (s : string) : string :=
  match s with
  | EmptyString => EmptyString
  | String c r =>
      match c_rstrip r with
      | EmptyString => if is_c_space c then EmptyString else String c EmptyString
      | r' => String c r'
      end
  end.

Definition c_strip (s : string) : string := c_rstrip (c_lstrip s).

(** The default of [sys.get_int_max_str_digits()]: a decimal literal
    with more digits is refused. *)
Definition MAX_STR_DIGITS : Z := 4300.

(** The digits of a literal; its underscores and its sign do not count. *)
Fixpoint digit_count (s : string) : Z :=
  match s with
  | EmptyString => 0
  | String c r => (if is_digit c then 1 else 0) + digit_count r
  end.

(** The digits after the sign: their value and their number. *)
Definition int_body (s : string) : option (Z * Z) :=
  (fun v => (v, digit_count s)) <$> int_digits 0 false s.

(** An [int] literal between blanks: an optional sign and the digits;
    its value and the number of its digits, or [None] when the text is
    no literal. *)
Definition int_syntax (s : string) : option (Z * Z) :=
  match c_strip s with
  | String "-" r => (fun p : Z * Z => (- p.1, p.2)) <$> int_body r
  | String "+" r => int_body r
  | t => int_body t
  end.

(** [int(s)] for a string; [None] stands for [ValueError]: the text is
    no literal, or it has more digits than the limit. *)
Definition int_of_str (s : string) : option Z :=
  match int_syntax s with
  | Some (v, digits) => if MAX_STR_DIGITS <? digits then None else Some v
  | None => None
  end.

(** The first [n] characters of a text. *)
Fixpoint take_chars (n : nat) (s : string) : string :=
  match n, s with
  | S n', String c r => String c (take_chars n' r)
  | _, _ => EmptyString
  end.

(** Every character. *)
Definition all_ascii : list ascii := ascii_of_nat <$> seq 0 256.

End PyText.

(** ** Binary64 arithmetic (Python [float]) *)

Module PyFloat.
Import PyText.

(** A binary64 datum by its exact value: [Finite neg m e] is
    [(-1)^neg * m * 2^e] with [0 <= m]; the zeros are signed. *)
Inductive float : Type :=
| Finite (neg : bool) (m : Z) (e : Z)
| Infinite (neg : bool)
| NaN.

(** Quotient of [a >= 0] by [b > 0] rounded to the nearest integer, a tie
    going to the even neighbour. *)
Definition div_half_even (a b : Z) : Z :=
  let q := a / b in
  let r := a mod b in
  if 2 * r <? b then q
  else if b <? 2 * r then q + 1
  else if Z.even q then q else q + 1.

(** [floor (log2 (n / d))] for [n, d > 0]. *)
Definition log2_ratio (n d : Z) : Z :=
  let k := Z.log2 n - Z.log2 d in
  if (if 0 <=? k then d * 2 ^ k <=? n else d <=? n * 2 ^ (- k)) then k else k - 1.

(** [n / (d * 2^e)] as a fraction of two integers. *)
Definition scale2 (n d e : Z) : Z * Z :=
  if 0 <=? e then (n, d * 2 ^ e) else (n * 2 ^ (- e), d).

(** The binary64 nearest to [(-1)^neg * n / d] ([0 <= n], [0 < d]):
    53 significant bits, exponent of the last bit at least [-1074]
    (gradual underflow), infinity from [2^1024] on. *)
Definition round_ratio (neg : bool) (n d : Z) : float :=
  if n =? 0 then Finite neg 0 0
  else
    let e := Z.max (log2_ratio n d - 52) (-1074) in
    let '(a, b) := scale2 n d e in
    let m := div_half_even a b in
    if 1024 <=? Z.log2 m + e then Infinite neg else Finite neg m e.

(** A finite value as a fraction [(n, d)] of its magnitude. *)
Definition magnitude (m e : Z) : Z * Z :=
  if 0 <=? e then (m * 2 ^ e, 1) else (m, 2 ^ (- e)).

(** [float(n)] for an [int]; [None] is [OverflowError]. *)
Definition float_of_int (n : Z) : option float :=
  match round_ratio (n <? 0) (Z.abs n) 1 with
  | Infinite _ => None
  | x => Some x
  end.

Definition is_zero (x : float) : bool :=
  match x with Finite _ m _ => m =? 0 | _ => false end.

Definition sign_of (x : float) : bool :=
  match x with Finite s _ _ | Infinite s => s | NaN => false end.

(** [x * y] *)
Definition fmul (x y : float) : float :=
  match x, y with
  | NaN, _ | _, NaN => NaN
  | Infinite s, z | z, Infinite s =>
      if is_zero z then NaN else Infinite (xorb s (sign_of z))
  | Finite s1 m1 e1, Finite s2 m2 e2 =>
      let '(n1, d1) := magnitude m1 e1 in
      let '(n2, d2) := magnitude m2 e2 in
      round_ratio (xorb s1 s2) (n1 * n2) (d1 * d2)
  end.

(** [x / y]; [None] is [ZeroDivisionError]. *)
Definition fdiv (x y : float) : option float :=
  if is_zero y then None
  else Some
    match x, y with
    | NaN, _ | _, NaN => NaN
    | Infinite _, Infinite _ => NaN
    | Infinite s, z => Infinite (xorb s (sign_of z))
    | Finite s1 _ _, Infinite s2 => Finite (xorb s1 s2) 0 0
    | Finite s1 m1 e1, Finite s2 m2 e2 =>
        let '(n1, d1) := magnitude m1 e1 in
        let '(n2, d2) := magnitude m2 e2 in
        round_ratio (xorb s1 s2) (n1 * d2) (d1 * n2)
    end.

(** The literals of [backend.py]. *)
Definition f_1000000 : float := Finite false 1000000 0.
Definition f_1000 : float := Finite false 1000 0.
Definition f_1_702 : float := round_ratio false 1702 1000.

(** [k] decimal digits of [v], zero padded on the left. *)
Fixpoint frac_digits (k : nat) (v : Z) : string :=
  match k with
  | O => EmptyString
  | S k' => frac_digits k' (v / 10) +:+ String (ascii_of_N (Z.to_N (48 + v mod 10))) EmptyString
  end.

(** The fixed-point text of [(-1)^neg * r / 10^k]. *)
Definition render_fixed (k : nat) (neg : bool) (r : Z) : string :=
  let p := 10 ^ Z.of_nat k in
  (if neg then "-" else "") +:+ str_of_nat_Z (r / p) +:+
  match k with O => EmptyString | _ => "." +:+ frac_digits k (r mod p) end.

(** [|x| * 10^k] rounded to an integer, ties to even: the digits both
    [format(x, ".kf")] and [round(x, k)] keep. *)
Definition decimal_digits (k : nat) (m e : Z) : Z :=
  let '(n, d) := magnitude (m * 10 ^ Z.of_nat k) e in div_half_even n d.

(** [format(x, ".kf")] *)
Definition format_fixed (k : nat) (x : float) : string :=
  match x with
  | NaN => "nan"
  | Infinite s => if s then "-inf" else "inf"
  | Finite s m e => render_fixed k s (decimal_digits k m e)
  end.

(** [round(x, k)] for [0 <= k] small. *)
Definition round_ndigits (x : float) (k : nat) : float :=
  match x with
  | Finite s m e => round_ratio s (decimal_digits k m e) (10 ^ Z.of_nat k)
  | _ => x
  end.

(** Underscores of a numeric literal: allowed only between two digits;
    [prev] is the previous character. They are dropped before parsing. *)
Fixpoint drop_underscores (prev : ascii) (s : string) : option string :=
  match s with
  | EmptyString => if Ascii.eqb prev "_" then None else Some EmptyString
  | String c r =>
      if Ascii.eqb c "_" then
        if is_digit prev then drop_underscores c r else None
      else if Ascii.eqb prev "_" && negb (is_digit c) then None
      else String c <$> drop_underscores c r
  end.

(** The leading decimal digits of [s]: their value on top of [acc], how
    many there are, and the rest of the text. *)
Fixpoint take_digits (acc : Z) (cnt : nat) (s : string) : Z * nat * string :=
  match s with
  | String c r =>
      if is_digit c then take_digits (acc * 10 + digit_value c) (S cnt) r
      else (acc, cnt, s)
  | EmptyString => (acc, cnt, s)
  end.

Definition take_sign (s : string) : bool * string :=
  match s with
  | String "-" r => (true, r)
  | String "+" r => (false, r)
  | _ => (false, s)
  end.

(** An unsigned decimal literal [digits [. digits] [e [sign] digits]] as
    a significand and a power of ten. *)
Definition decimal_literal (s : string) : option (Z * Z) :=
  let '(i, ni, r1) := take_digits 0 0 s in
  let '(m, nf, r2) :=
    match r1 with
    | String "." r => take_digits i 0 r
    | _ => (i, O, r1)
    end in
  match (ni + nf)%nat with
  | O => None
  | _ =>
      match r2 with
      | EmptyString => Some (m, - Z.of_nat nf)
      | String c r3 =>
          if Ascii.eqb c "e" || Ascii.eqb c "E" then
            let '(sx, r4) := take_sign r3 in
            let '(x, nx, r5) := take_digits 0 0 r4 in
            match nx, r5 with
            | S _, EmptyString => Some (m, (if sx then - x else x) - Z.of_nat nf)
            | _, _ => None
            end
          else None
      end
  end.

(** [float(s)] for a string; [None] is [ValueError]. *)
Definition float_of_str (s : string) : option float :=
  t ← drop_underscores "000" (strip s);
  let '(neg, u) := take_sign t in
  let v := upper u in
  if String.eqb v "INF" || String.eqb v "INFINITY" then Some (Infinite neg)
  else if String.eqb v "NAN" then Some NaN
  else
    '(m, x) ← decimal_literal u;
    Some (if 0 <=? x then round_ratio neg (m * 10 ^ x) 1
          else round_ratio neg m (10 ^ (- x))).

End PyFloat.

(** ** The float model against the Standard Library's binary64

    [SpecFloat] is the Standard Library's executable specification of
    IEEE-754 arithmetic; at precision 53 and maximal exponent 1024 it is
    binary64.  The comparison below is run on sample operands. *)

Module FloatCheck.
Import PyFloat.

Definition of_spec (x : SpecFloat.spec_float) : float :=
  match x with
  | SpecFloat.S754_zero s => Finite s 0 0
  | SpecFloat.S754_infinity s => Infinite s
  | SpecFloat.S754_nan => NaN
  | SpecFloat.S754_finite s m e => Finite s (Zpos m) e
  end.

(** Two data with the same value. *)
Definition same_value (x y : float) : bool :=
  match x, y with
  | Finite s1 m1 e1, Finite s2 m2 e2 =>
      Bool.eqb s1 s2
      && (m1 * 2 ^ (e1 - Z.min e1 e2) =? m2 * 2 ^ (e2 - Z.min e1 e2))
  | Infinite s1, Infinite s2 => Bool.eqb s1 s2
  | NaN, NaN => true
  | _, _ => false
  end.

(** The positive integer [n] as a binary64, in both models. *)
Definition spec_of_int (n : Z) : SpecFloat.spec_float :=
  SpecFloat.binary_normalize 53 1024 n 0 false.

Definition model_of_int (n : Z) : float := round_ratio false n 1.

(** Conversion, quotient and product of [n] and [d] agree. *)
Definition agree (n d : Z) : bool :=
  same_value (model_of_int n) (of_spec (spec_of_int n))
  && match fdiv (model_of_int n) (model_of_int d) with
     | Some q =>
         same_value q (of_spec (SpecFloat.SFdiv 53 1024 (spec_of_int n) (spec_of_int d)))
     | None => false
     end
  && same_value (fmul (model_of_int n) (model_of_int d))
       (of_spec (SpecFloat.SFmul 53 1024 (spec_of_int n) (spec_of_int d))).

(** Sample operands: small integers over the constants of the backend,
    integers that do not fit 53 bits, quotients in the subnormal range,
    products that overflow. *)
Definition samples : list (Z * Z) :=
  flat_map (fun n => [(n, 1000000); (n, 1000); (n, 3); (n * 7919 + 2 ^ 60, 1000000);
                      (2 ^ 1000 + n * 2 ^ 950, n + 5); (1, n * n * n * 1234567)])
           [1; 2; 3; 5; 7; 10; 99; 520; 1005; 1015; 1125; 7200; 99500; 108000]
  ++ [(2 ^ 1024 - 2 ^ 970, 1); (2 ^ 1024 - 2 ^ 970 - 1, 1); (1, 2 ^ 1023);
      (3, 2 ^ 1023 + 2 ^ 1000); (2 ^ 1023, 3); (2 ^ 1023, 2 ^ 1023);
      (2 ^ 600 + 1, 2 ^ 600 + 2 ^ 560)].

End FloatCheck.

(** ** Python values, exceptions and the error monad *)

Module Py.
Import PyText PyFloat.

Inductive exn_class : Type :=
| ValueError | TypeError | OverflowError | AttributeError
| ZeroDivisionError | RuntimeError | SerialException | PortNotOpenError.

(** A raised exception: its class and [str(e)]. *)
Record exn : Type := Raise { exn_kind : exn_class; exn_msg : string }.

Inductive result (A : Type) : Type :=
| Ok (a : A)
| Err (e : exn).
Arguments Ok {A} a.
Arguments Err {A} e.

(** Sequencing: the first exception raised ends the computation. *)
#[export] Instance result_bind : MBind result :=
  fun A B (k : A -> result B) (r : result A) =>
    match r with Ok a => k a | Err e => Err e end.

#[export] Instance result_ret : MRet result := fun A (a : A) => Ok a.

#[export] Instance result_fmap : FMap result :=
  fun A B (f : A -> B) (r : result A) =>
    match r with Ok a => Ok (f a) | Err e => Err e end.

(** The values stored in the telemetry [dict]. *)
Inductive pyval : Type :=
| VNone
| VInt (n : Z)
| VStr (s : string)
| VFloat (x : float).

(** The arguments [format_frequency] is applied to: [None], an [int] or a
    [str]. *)
Inductive pyarg : Type :=
| ANone
| AInt (n : Z)
| AStr (s : string).

Definition dquote : ascii := ascii_of_N 34.

Definition hex_digit (n : Z) : ascii :=
  ascii_of_N (Z.to_N (if n <? 10 then 48 + n else 87 + n)).

(** One character of [repr(s)] inside the quotes [q]. *)
Definition repr_char (q c : ascii) : string :=
  let n := code c in
  if Ascii.eqb c "\" then "\\"
  else if Ascii.eqb c q then String "\" (String q EmptyString)
  else if n =? 9 then "\t"
  else if n =? 10 then "\n"
  else if n =? 13 then "\r"
  else if (n <? 32) || (n =? 127) then
    "\x" +:+ String (hex_digit (n / 16)) (String (hex_digit (n mod 16)) EmptyString)
  else String c EmptyString.

Fixpoint repr_body (q : ascii) (s : string) : string :=
  match s with
  | EmptyString => EmptyString
  | String c r => repr_char q c +:+ repr_body q r
  end.

(** [repr(s)] of a [str]: single quotes, unless the text has a single
    quote and no double quote. *)
Definition repr_str (s : string) : string :=
  let q : ascii :=
    if contains_char "'" s && negb (contains_char dquote s) then dquote
    else "'"%char in
  String q (repr_body q s) +:+ String q EmptyString.

(** What [int(s)] raises on a text that is no literal: the message is
    formatted with [%.200R], the [repr] cut at 200 characters. *)
Definition int_invalid (s : string) : exn :=
  Raise ValueError
    ("invalid literal for int() with base 10: " +:+ take_chars 200 (repr_str s)).

(** What it raises on a literal of too many digits. *)
Definition int_too_long (digits : Z) : exn :=
  Raise ValueError
    ("Exceeds the limit (4300 digits) for integer string conversion: value has "
     +:+ str_of_int digits
     +:+ " digits; use sys.set_int_max_str_digits() to increase the limit").

(** [int(s)] on a [str]: the syntax is checked first, then the number of
    digits. *)
Definition py_int_str (s : string) : result Z :=
  match int_syntax s with
  | Some (v, digits) =>
      if MAX_STR_DIGITS <? digits then Err (int_too_long digits) else Ok v
  | None => Err (int_invalid s)
  end.

(** [int(v)] *)
Definition py_int (v : pyarg) : result Z :=
  match v with
  | AInt n => Ok n
  | AStr s => py_int_str s
  | ANone => Err (Raise TypeError
      "int() argument must be a string, a bytes-like object or a real number, not 'NoneType'")
  end.

(** [v.upper()] *)
Definition py_upper (v : pyarg) : result string :=
  match v with
  | AStr s => Ok (upper s)
  | AInt _ => Err (Raise AttributeError "'int' object has no attribute 'upper'")
  | ANone => Err (Raise AttributeError "'NoneType' object has no attribute 'upper'")
  end.

(** [f"{v}"] *)
Definition py_str (v : pyarg) : string :=
  match v with
  | ANone => "None"
  | AInt n => str_of_int n
  | AStr s => s
  end.

(** The [int] operand of [n / 1000.0]: converted to [float] first. *)
Definition py_float_of_int (n : Z) : result float :=
  match float_of_int n with
  | Some x => Ok x
  | None => Err (Raise OverflowError "int too large to convert to float")
  end.

(** [x / y] on floats. *)
Definition py_fdiv (x y : float) : result float :=
  match fdiv x y with
  | Some q => Ok q
  | None => Err (Raise ZeroDivisionError "float division by zero")
  end.

End Py.

(** ** [backend.py]: the frequency formatter and the telemetry parser *)

Module Backend.
Import PyText PyFloat Py.

Definition DEFAULT_BAUD : Z := 112500.
Definition FALLBACK_BAUD : Z := 9600.

(** The [try] block of [format_frequency]. *)
Definition format_frequency_try (freq_khz bfo_hz mode : pyarg) : result string :=
  let mode := match mode with ANone => AStr "" | _ => mode end in
  mm ← py_upper mode;
  if bool_decide (mm ∈ ["USB"; "LSB"; "SSB"]) then
    f ← py_int freq_khz;
    b ← py_int bfo_hz;
    let freq_hz := f * 1000 + b in
    x ← py_float_of_int freq_hz;
    mhz ← py_fdiv x f_1000000;
    mret (format_fixed 6 mhz +:+ " MHz")
  else
    f ← py_int freq_khz;
    x ← py_float_of_int f;
    mhz ← py_fdiv x f_1000;
    if String.eqb mm "FM" then mret (format_fixed 2 mhz +:+ " MHz")
    else if String.eqb mm "AM" then
      f1 ← py_int freq_khz;
      if f1 <? 1000 then
        f2 ← py_int freq_khz;
        mret (str_of_int f2 +:+ " kHz")
      else mret (format_fixed 3 mhz +:+ " MHz")
    else mret (format_fixed 3 mhz +:+ " MHz").

(** [format_frequency(freq_khz, bfo_hz, mode)]: any exception of the
    block gives the raw value with the [(raw)] mark. *)
Definition format_frequency (freq_khz bfo_hz mode : pyarg) : string :=
  match format_frequency_try freq_khz bfo_hz mode with
  | Ok s => s
  | Err _ => py_str freq_khz +:+ " (raw)"
  end.

(** The [out] dictionary of [parse_monitor_line]. *)
Abbreviation dict := (gmap string pyval).

(** Statements of the parser's [try] block: each one runs on [out] and
    either goes on or raises, leaving in [out] what was assigned so far. *)
Definition stmt (A : Type) : Type := dict -> dict * result A.

#[export] Instance stmt_bind : MBind stmt :=
  fun A B (k : A -> stmt B) (m : stmt A) out =>
    match m out with
    | (out', Ok a) => k a out'
    | (out', Err e) => (out', Err e)
    end.

#[export] Instance stmt_ret : MRet stmt := fun A (a : A) out => (out, Ok a).

(** [out[key] = v] *)
Definition assign (key : string) (v : pyval) : stmt unit :=
  fun out => (<[key := v]> out, Ok tt).

(** An expression that may raise. *)
Definition eval {A} (r : result A) : stmt A := fun out => (out, r).

(** [parts[i]], used under the guard [len(parts) > i]. *)
Definition part (parts : list string) (i : nat) : string := nth i parts "".

(** [len(parts) > i] *)
Definition has_part (parts : list string) (i : nat) : bool :=
  bool_decide (i < length parts)%nat.

(** [parts[i] if len(parts) > i else ""] *)
Definition text_field (parts : list string) (i : nat) : string :=
  if has_part parts i then part parts i else "".

(** [len(parts) > i and parts[i] != ""] *)
Definition filled (parts : list string) (i : nat) : bool :=
  has_part parts i && negb (String.eqb (part parts i) "").

(** [int(parts[i]) if len(parts) > i and parts[i] != "" else 0] *)
Definition int_field_or_zero (parts : list string) (i : nat) : result Z :=
  if filled parts i then py_int_str (part parts i) else Ok 0.

(** [int(parts[i]) if len(parts) > i and parts[i] != "" else None] *)
Definition int_field_or_none (parts : list string) (i : nat) : result pyval :=
  if filled parts i then VInt <$> py_int_str (part parts i) else Ok VNone.

(** The inner [try] of the voltage: [float()] may raise, and then the raw
    text is kept. *)
Definition voltage_of (raw : string) : pyval :=
  match float_of_str raw with
  | Some v_val =>
      match fdiv (fmul v_val f_1_702) f_1000 with
      | Some q => VFloat (round_ndigits q 3)
      | None => VStr raw
      end
  | None => VStr raw
  end.

(** [f"{v} dBuV" if v is not None else ""] and the like. *)
Definition with_unit (v : pyval) (unit : string) : string :=
  match v with
  | VInt n => str_of_int n +:+ unit
  | _ => ""
  end.

(** The [try] block of [parse_monitor_line]. *)
Definition parse_monitor_try (parts : list string) : stmt unit :=
  assign "raw_parts_count" (VInt (Z.of_nat (length parts)));;
  assign "fw_version" (VStr (text_field parts 0));;
  freq_khz ← eval (int_field_or_zero parts 1);
  bfo_hz ← eval (int_field_or_zero parts 2);
  assign "currentFrequency_raw" (VInt freq_khz);;
  assign "currentBFO" (VInt bfo_hz);;
  assign "bandCal" (VStr (text_field parts 3));;
  assign "bandName" (VStr (text_field parts 4));;
  let mode := text_field parts 5 in
  assign "mode" (VStr mode);;
  assign "stepIdx" (VStr (text_field parts 6));;
  assign "bandwidthIdx" (VStr (text_field parts 7));;
  assign "agcIdx" (VStr (text_field parts 8));;
  volume ← eval (int_field_or_none parts 9);
  assign "volume" volume;;
  rssi_raw ← eval (int_field_or_none parts 10);
  assign "rssi_raw" rssi_raw;;
  snr_raw ← eval (int_field_or_none parts 11);
  assign "snr_raw" snr_raw;;
  assign "tuningCapacitor" (VStr (text_field parts 12));;
  assign "voltage" (if filled parts 13 then voltage_of (part parts 13) else VNone);;
  assign "seqnum" (VStr (text_field parts 14));;
  assign "frequency" (VStr (format_frequency (AInt freq_khz) (AInt bfo_hz) (AStr mode)));;
  assign "rssi" (VStr (with_unit rssi_raw " dBuV"));;
  assign "snr" (VStr (with_unit snr_raw " dB")).

(** [parse_monitor_line(line)] *)
Definition parse_monitor_line (line : string) : dict :=
  let parts := strip <$> split_comma line in
  match parse_monitor_try parts ∅ with
  | (out, Ok _) => out
  | (out, Err e) => <["parse_error" := VStr (exn_msg e)]> out
  end.

(** *** The serial link *)

(** What [serial.tools.list_ports.comports()] tells about one port. *)
Record port_info : Type := PortInfo {
  device : string;
  description : option string;
  manufacturer : option string
}.

Definition keywords : list string :=
  ["USB"; "CP210"; "CH340"; "FTDI"; "UART"; "CDC"; "Silicon"; "SiLabs"].

(** [find_serial_port(preferred)] over the enumerated [ports]; an empty
    [preferred] counts as none. *)
Definition find_serial_port (ports : list port_info) (preferred : option string)
  : option string :=
  match preferred with
  | Some (String c r) => Some (String c r)
  | _ =>
      match ports with
      | [] => None
      | first :: _ =>
          let matches (p : port_info) : bool :=
            let desc := default "" (description p) +:+ " " +:+ default "" (manufacturer p) in
            existsb (fun k => is_substring (upper k) (upper desc)) keywords in
          match List.find matches ports with
          | Some p => Some (device p)
          | None => Some (device first)
          end
      end
  end.

(** A [serial.Serial] object: where it was opened and whether it still is. *)
Record handle : Type := Handle {
  h_port : string;
  h_baud : Z;
  is_open : bool
}.

(** The module's globals. *)
Record globals : Type := Globals {
  ser : option handle;
  latest_raw_line : string;
  monitor_parsed : dict;
  monitor_active : bool;
  monitor_requested : bool
}.

Definition initial_globals : globals :=
  {| ser := None; latest_raw_line := ""; monitor_parsed := ∅;
     monitor_active := false; monitor_requested := false |}.

Definition set_ser (g : globals) (s : option handle) : globals :=
  {| ser := s; latest_raw_line := latest_raw_line g;
     monitor_parsed := monitor_parsed g; monitor_active := monitor_active g;
     monitor_requested := monitor_requested g |}.

Definition set_monitor_requested (g : globals) (b : bool) : globals :=
  {| ser := ser g; latest_raw_line := latest_raw_line g;
     monitor_parsed := monitor_parsed g; monitor_active := monitor_active g;
     monitor_requested := b |}.

Definition set_latest_raw_line (g : globals) (l : string) : globals :=
  {| ser := ser g; latest_raw_line := l;
     monitor_parsed := monitor_parsed g; monitor_active := monitor_active g;
     monitor_requested := monitor_requested g |}.

Definition publish (g : globals) (parsed : dict) : globals :=
  {| ser := ser g; latest_raw_line := latest_raw_line g;
     monitor_parsed := parsed; monitor_active := true;
     monitor_requested := monitor_requested g |}.

Inductive lock : Type := serial_lock | data_lock.

(** What a thread does to the locks and to the device, in order. *)
Inductive event : Type :=
| Acquire (l : lock)
| Release (l : lock)
| CloseEv
| OpenEv (port : string) (baud : Z)
| ResetInput
| Write (data : string)
| Flush
| Readline.

(** The outcome of one [ser.readline()]: the bytes read (empty when the
    read timed out), or an exception.  The loops work on the text
    [raw.decode(errors="ignore")]; ASCII bytes decode to the same
    characters, and the embedding holds the bytes as that text.  What is
    said of the content of the lines read is said of ASCII reads
    ([Spec.ascii_read]). *)
Inductive read_outcome : Type :=
| Data (raw : string)
| ReadFails (e : exn).

(** What the host and the device do during one [open_serial]: the ports
    enumerated, whether closing the previous handle raises, and the
    exception, if any, of [serial.Serial(port, baud)]. *)
Record link_env : Type := LinkEnv {
  comports : list port_info;
  close_raises : bool;
  open_raises : string -> Z -> option exn
}.

(** What the device does during one [send_serial_raw]: the exceptions,
    if any, of [reset_input_buffer], [write] and [flush], and the
    [readline] outcomes that come before [read_timeout] has elapsed. *)
Record io_script : Type := IoScript {
  reset_raises : option exn;
  write_raises : option exn;
  flush_raises : option exn;
  reads : list read_outcome
}.

(** A computation of the backend: the events it performs and its result
    or exception. *)
Definition io (A : Type) : Type := list event * result A.

#[export] Instance io_bind : MBind io :=
  fun A B (k : A -> io B) (m : io A) =>
    match m with
    | (t, Ok a) => let '(t', r) := k a in (t ++ t', r)
    | (t, Err e) => (t, Err e)
    end.

#[export] Instance io_ret : MRet io := fun A (a : A) => ([], Ok a).

(** One device operation: its event, then its exception if it raises. *)
Definition perform (ev : event) (raises : option exn) : io unit :=
  ([ev], match raises with Some e => Err e | None => Ok tt end).

(** [with l: body] releases [l] however [body] ends. *)
Definition with_lock {A} (l : lock) (body : io A) : io A :=
  let '(t, r) := body in (Acquire l :: t ++ [Release l], r).

(** pySerial refuses every operation on a port that is not open. *)
Definition port_not_open : exn :=
  Raise PortNotOpenError "Attempting to use a port that is not open".

Definition on_handle (h : handle) (raises : option exn) : option exn :=
  if is_open h then raises else Some port_not_open.

Definition read_on (h : handle) (r : read_outcome) : read_outcome :=
  if is_open h then r else ReadFails port_not_open.

(** [ser.close()]: the object stays, marked closed. *)
Definition closed (h : handle) : handle :=
  {| h_port := h_port h; h_baud := h_baud h; is_open := false |}.

(** [open_serial(port, baud)] *)
Definition open_serial (env : link_env) (port : option string) (baud : Z)
    (g : globals) : globals * io handle :=
  let '(g, t0) :=
    match ser g with
    | Some h =>
        (if close_raises env then g else set_ser g (Some (closed h)), [CloseEv])
    | None => (g, [])
    end in
  let port :=
    match port with
    | None => find_serial_port (comports env) None
    | Some p => Some p
    end in
  match port with
  | None =>
      (g, (t0, Err (Raise RuntimeError
             "No serial ports found. Set ATS_PORT environment or pass --port.")))
  | Some port =>
      match open_raises env port baud with
      | None =>
          let s := Handle port baud true in
          (set_ser g (Some s), (t0 ++ [OpenEv port baud], Ok s))
      | Some e =>
          if baud =? DEFAULT_BAUD then
            let t := t0 ++ [OpenEv port baud; OpenEv port FALLBACK_BAUD] in
            match open_raises env port FALLBACK_BAUD with
            | None =>
                let s := Handle port FALLBACK_BAUD true in
                (set_ser g (Some s), (t, Ok s))
            | Some e2 =>
                (g, (t, Err (Raise RuntimeError
                       ("Failed to open serial on " +:+ port +:+ ": " +:+ exn_msg e2))))
            end
          else (g, (t0 ++ [OpenEv port baud], Err e))
      end
  end.

(** One more event in front of a computation. *)
Definition after {A} (ev : event) (m : io A) : io A := (ev :: m.1, m.2).

(** The read loop of [send_serial_raw] over the [readline] outcomes that
    come before the deadline; when they are used up the time is over. *)
Fixpoint collect_lines (wait_lines : Z) (script : list read_outcome)
    (lines : list string) : io (list string) :=
  match script with
  | [] => mret lines
  | ReadFails _ :: _ => after Readline (mret lines)
  | Data raw :: rest =>
      after Readline
        (if String.eqb raw "" then collect_lines wait_lines rest lines
         else
           let line := strip raw in
           if negb (String.eqb line "") then
             let lines := lines ++ [line] in
             if wait_lines <=? Z.of_nat (length lines) then mret lines
             else collect_lines wait_lines rest lines
           else collect_lines wait_lines rest lines)
  end.

(** What [send_serial_raw] writes for [cmd]. *)
Definition cmd_out (cmd : string) : string :=
  if negb (ends_with_char LF cmd) then cmd +:+ nl else cmd.

(** [send_serial_raw(cmd, wait_lines, read_timeout)]; the time allowed is
    in the script. *)
Definition send_serial_raw (script : io_script) (cmd : string) (wait_lines : Z)
    (g : globals) : io (list string) :=
  match ser g with
  | None => ([], Err (Raise RuntimeError "Serial port not opened"))
  | Some h =>
      with_lock serial_lock
        (perform ResetInput (on_handle h (reset_raises script));;
         perform (Write (cmd_out cmd)) (on_handle h (write_raises script));;
         perform Flush (on_handle h (flush_raises script));;
         collect_lines wait_lines (read_on h <$> reads script) [])
  end.

(** Truth value of [d.get(key)]. *)
Definition truthy (v : option pyval) : bool :=
  match v with
  | Some (VInt n) => negb (n =? 0)
  | Some (VStr s) => negb (String.eqb s "")
  | Some (VFloat x) => negb (is_zero x)
  | Some VNone | None => false
  end.

(** The test of the reader before it publishes [parsed]. *)
Definition valid_observation (parsed : dict) : bool :=
  negb (size parsed =? 0)%nat &&
  (truthy (parsed !! "currentFrequency_raw") || truthy (parsed !! "fw_version")).

(** One turn of the [while True] of [monitor_reader_thread], given the
    outcome of its [readline]. *)
Definition monitor_reader_iteration (r : read_outcome) (g : globals)
  : globals * list event :=
  match ser g with
  | None => (g, [])
  | Some h =>
      let t := [Acquire serial_lock; Readline; Release serial_lock] in
      match read_on h r with
      | ReadFails _ => (g, t)
      | Data raw =>
          if String.eqb raw "" then (g, t)
          else
            let line := strip raw in
            if String.eqb line "" then (g, t)
            else
              let g := set_latest_raw_line g line in
              let g :=
                if contains_char "," line then
                  let parsed := parse_monitor_line line in
                  if valid_observation parsed then publish g parsed else g
                else g in
              (g, t ++ [Acquire data_lock; Release data_lock])
      end
  end.

(** The reader thread over the outcomes of its successive reads. *)
Fixpoint monitor_reader_thread (script : list read_outcome) (g : globals)
  : globals * list event :=
  match script with
  | [] => (g, [])
  | r :: rest =>
      let '(g, t) := monitor_reader_iteration r g in
      let '(g, t') := monitor_reader_thread rest g in
      (g, t ++ t')
  end.

(** *** The HTTP routes *)

Inductive json : Type :=
| JBool (b : bool)
| JStr (s : string)
| JLines (l : list string).

(** A reply: the status code and the fields given to [jsonify]. *)
Definition response : Type := Z * list (string * json).

Definition failure (e : exn) : response :=
  (500, [("ok", JBool false); ("error", JStr (exn_msg e))]).

(** [api_command] for the [cmd] field of the request. *)
Definition api_command (script : io_script) (cmd : string) (g : globals)
  : list event * response :=
  let cmd := remove_char LF (remove_char CR cmd) in
  match send_serial_raw script cmd 4 g with
  | (t, Ok lines) =>
      (t, (200, [("ok", JBool true); ("sent", JStr cmd); ("response_lines", JLines lines)]))
  | (t, Err e) => (t, failure e)
  end.

(** [api_start_monitor] and [api_stop_monitor]: the same toggle, then the
    flag. *)
Definition toggle_monitor (requested : bool) (script : io_script) (g : globals)
  : globals * (list event * response) :=
  match send_serial_raw script "t" 1 g with
  | (t, Ok _) =>
      (set_monitor_requested g requested,
       (t, (200, [("ok", JBool true); ("msg", JStr "toggle-sent")])))
  | (t, Err e) => (g, (t, failure e))
  end.

Definition api_start_monitor := toggle_monitor true.
Definition api_stop_monitor := toggle_monitor false.

(** [api_memory_slots] *)
Definition api_memory_slots (script : io_script) (g : globals)
  : list event * response :=
  match send_serial_raw script "$" 30 g with
  | (t, Ok lines) => (t, (200, [("ok", JBool true); ("lines", JLines lines)]))
  | (t, Err e) => (t, failure e)
  end.

(** The size above which [api_screenshot] stops reading. *)
Definition MAX_HEX : Z := 10000000.

(** The read loop of [api_screenshot] over the [readline] outcomes of its
    five seconds; an exception of [readline] leaves the loop. *)
Fixpoint accumulate_hex (script : list read_outcome) (hex_chunks : list string)
  : io (list string) :=
  match script with
  | [] => mret hex_chunks
  | ReadFails e :: _ => ([Readline], Err e)
  | Data raw :: rest =>
      after Readline
        (if String.eqb raw "" then accumulate_hex rest hex_chunks
         else
           let line := strip raw in
           if String.eqb line "" then accumulate_hex rest hex_chunks
           else
             let hex_chunks := hex_chunks ++ [line] in
             if MAX_HEX <? Z.of_nat (String.length (join "" hex_chunks))
             then mret hex_chunks
             else accumulate_hex rest hex_chunks)
  end.

(** [api_screenshot]: the trigger command with its own script, then the
    accumulation. *)
Definition api_screenshot (trigger : io_script) (script : list read_outcome)
    (g : globals) : list event * response :=
  let run : io (list string) :=
    send_serial_raw trigger "C" 1 g;;
    match ser g with
    | Some h => accumulate_hex (read_on h <$> script) []
    | None => ([], Err (Raise AttributeError
                 "'NoneType' object has no attribute 'readline'"))
    end in
  match run with
  | (t, Ok hex_chunks) => (t, (200, [("ok", JBool true); ("hex", JStr (join nl hex_chunks))]))
  | (t, Err e) => (t, failure e)
  end.

(** *** The monitor route and the start of the program *)

(** What [api_monitor] hands to [jsonify]. *)
Record monitor_view : Type := MonitorView {
  view_parsed : dict;
  view_raw : string;
  view_active : bool;
  view_requested : bool
}.

(** [api_monitor]: the four globals, copied while [data_lock] is held. *)
Definition api_monitor (g : globals) : list event * monitor_view :=
  ([Acquire data_lock; Release data_lock],
   {| view_parsed := monitor_parsed g; view_raw := latest_raw_line g;
      view_active := monitor_active g; view_requested := monitor_requested g |}).

(** The two environment variables [main] reads. *)
Record environ : Type := Environ {
  ATS_PORT : option string;
  ATS_BAUD : option string
}.

(** The options of the command line, each as typed when it is given. *)
Record argv : Type := Argv {
  arg_port : option string;
  arg_baud : option string;
  arg_host : option string;
  arg_http_port : option string
}.

(** How [main] ends: an exception nobody catches; the exit of [argparse]
    on an option that is no integer; the return after the link could not
    be opened; or the reader thread started and the web server running
    on a host and port. *)
Inductive startup : Type :=
| Uncaught (e : exn)
| UsageError
| GaveUp
| Serving (host : string) (http_port : Z).

(** [int(os.environ.get("ATS_BAUD") or DEFAULT_BAUD)], computed when the
    parser is built. *)
Definition baud_default (os : environ) : result Z :=
  match ATS_BAUD os with
  | Some (String c r) => py_int_str (String c r)
  | _ => Ok DEFAULT_BAUD
  end.

(** An option of [type=int]: the text given, converted, or the default;
    [None] when the text is no integer. *)
Definition int_option (given : option string) (dflt : Z) : option Z :=
  match given with
  | Some s => int_of_str s
  | None => Some dflt
  end.

(** [main()] *)
Definition main (os : environ) (args : argv) (env : link_env) (g : globals)
  : globals * (list event * startup) :=
  match baud_default os with
  | Err e => (g, ([], Uncaught e))
  | Ok dflt =>
      match int_option (arg_baud args) dflt, int_option (arg_http_port args) 5000 with
      | Some baud, Some http_port =>
          let port := match arg_port args with Some p => Some p | None => ATS_PORT os end in
          match open_serial env port baud g with
          | (g, (t, Ok _)) => (g, (t, Serving (default "0.0.0.0" (arg_host args)) http_port))
          | (g, (t, Err _)) => (g, (t, GaveUp))
          end
      | _, _ => (g, ([], UsageError))
      end
  end.


End Backend.

(** ** [screenshot.py]: the stand-alone capture tool *)

Module Screenshot.
Import PyText Py.

Definition OUTPUT_FILE : string := "screenshot.bmp".

Definition hex_value (c : ascii) : option Z :=
  let n := code c in
  if (48 <=? n) && (n <=? 57) then Some (n - 48)
  else if (97 <=? n) && (n <=? 102) then Some (n - 87)
  else if (65 <=? n) && (n <=? 70) then Some (n - 55)
  else None.

(** The pairs of hexadecimal digits of [s] as bytes. *)
Fixpoint unhex_pairs (s : string) : option string :=
  match s with
  | EmptyString => Some EmptyString
  | String a (String b r) =>
      h ← hex_value a;
      l ← hex_value b;
      String (ascii_of_N (Z.to_N (16 * h + l))) <$> unhex_pairs r
  | String _ EmptyString => None
  end.

(** [binascii.unhexlify(s)]; both failures are [binascii.Error], a
    [ValueError]. *)
Definition unhexlify (s : string) : result string :=
  if Nat.odd (String.length s) then Err (Raise ValueError "Odd-length string")
  else match unhex_pairs s with
       | Some b => Ok b
       | None => Err (Raise ValueError "Non-hexadecimal digit found")
       end.

(** How a run of the script ends: the file it wrote, or the exit code of
    the failure branch, where nothing is written. *)
Inductive outcome : Type :=
| Saved (file : string) (content : string)
| Exit (status : Z).

(** The bytes read until the first empty chunk. *)
Definition read_all (chunks : list string) : string := join "" chunks.

(** The script from the received [data] on: clean, decode, save. *)
Definition decode_and_save (data : string) : outcome :=
  let hex_str := remove_char LF (remove_char CR data) in
  match unhexlify hex_str with
  | Ok bmp_data => Saved OUTPUT_FILE bmp_data
  | Err _ => Exit 1
  end.

(** The whole run, for the chunks [ser.read(4096)] returns before an empty
    one. *)
Definition screenshot_main (chunks : list string) : outcome :=
  decode_and_save (read_all chunks).

(** The [while True] loop over the successive results of
    [ser.read(4096)], on top of the [data] read so far: it ends at the
    first empty chunk; [None] when the chunks given run out before one is
    empty, and the loop reads on. *)
Fixpoint read_loop (stream : list string) (data : string) : option string :=
  match stream with
  | [] => None
  | chunk :: rest =>
      if String.eqb chunk "" then Some data else read_loop rest (data +:+ chunk)
  end.

(** The script over the successive results of [ser.read(4096)]. *)
Definition screenshot_script (stream : list string) : option outcome :=
  decode_and_save <$> read_loop stream "".


End Screenshot.

(** ** The vocabulary of the specification

    Notions the properties are stated with; none of them is used by the
    embedding above. *)

Module Spec.
Import PyText PyFloat Py Backend Screenshot.

(** ASCII text, the alphabet of the wire protocol: on it the text
    helpers of the embedding are Python's, and bytes and the text they
    decode to are the same characters. *)
Fixpoint is_ascii (s : string) : bool :=
  match s with
  | EmptyString => true
  | String c r => (code c <? 128) && is_ascii r
  end.

(** An integer that [str] prints: at most [MAX_STR_DIGITS] digits. *)
Definition within_digit_limit (n : Z) : bool :=
  Z.of_nat (String.length (str_of_nat_Z (Z.abs n))) <=? MAX_STR_DIGITS.

(** An argument of [format_frequency] the embedding covers: [None], an
    [int] that can be printed, or ASCII text. *)
Definition plain_arg (v : pyarg) : bool :=
  match v with
  | ANone => true
  | AInt n => within_digit_limit n
  | AStr s => is_ascii s
  end.

(** A read that delivers ASCII bytes, or fails. *)
Definition ascii_read (r : read_outcome) : bool :=
  match r with
  | Data raw => is_ascii raw
  | ReadFails _ => true
  end.

(** A port described in ASCII. *)
Definition ascii_port (p : port_info) : bool :=
  is_ascii (default "" (description p)) && is_ascii (default "" (manufacturer p)).

(** Two characters that are equal, or the two cases of one letter. *)
Definition same_letter (c d : ascii) : bool :=
  let x := code c in
  let y := code d in
  (x =? y)
  || ((65 <=? x) && (x <=? 90) && (y =? x + 32))
  || ((65 <=? y) && (y <=? 90) && (x =? y + 32)).

(** Equality of texts up to the case of their letters. *)
Fixpoint same_text (a b : string) : bool :=
  match a, b with
  | EmptyString, EmptyString => true
  | String c a', String d b' => same_letter c d && same_text a' b'
  | _, _ => false
  end.

(** The four formatting rules of the specification. *)
Inductive mode_class : Type := SideBand | BroadcastFM | BroadcastAM | OtherMode.

Definition classify (mode : string) : mode_class :=
  if same_text mode "USB" || same_text mode "LSB" || same_text mode "SSB" then SideBand
  else if same_text mode "FM" then BroadcastFM
  else if same_text mode "AM" then BroadcastAM
  else OtherMode.

(** The integer a raw value stands for, if any. *)
Definition raw_value (v : pyarg) : option Z :=
  match v with
  | AInt n => Some n
  | AStr s => int_of_str s
  | ANone => None
  end.

(** [n / 10^k] megahertz written exactly, with [k] decimals. *)
Definition mhz_text (k : nat) (n : Z) : string :=
  render_fixed k (n <? 0) (Z.abs n) +:+ " MHz".

(** The value a mode shows: hertz with the BFO offset in the side-band
    modes, the raw kilohertz otherwise. *)
Definition shown_value (cls : mode_class) (f b : Z) : Z :=
  match cls with SideBand => f * 1000 + b | _ => f end.

(** The number of decimals of the megahertz display. *)
Definition decimals (cls : mode_class) : nat :=
  match cls with SideBand => 6%nat | BroadcastFM => 2%nat | _ => 3%nat end.

(** How many units of the value shown one unit of the last decimal is
    worth. *)
Definition unit_ratio (cls : mode_class) : Z :=
  match cls with BroadcastFM => 10 | _ => 1 end.

(** AM below 1000 kHz is shown in kilohertz. *)
Definition in_kilohertz (cls : mode_class) (f : Z) : bool :=
  match cls with BroadcastAM => f <? 1000 | _ => false end.

(** The digits [r] shown, each unit worth [c] units of the value [a]:
    within half a unit of the last digit, plus one part in [2^51], of
    [a]. *)
Definition accurate (c r a : Z) : Prop :=
  0 <= r /\ 2 ^ 51 * Z.abs (c * r - a) <= c * 2 ^ 50 + a.

(** The non-blank lines a sequence of reads delivers, trimmed, up to the
    first read that fails. *)
Fixpoint received_lines (script : list read_outcome) : list string :=
  match script with
  | [] => []
  | ReadFails _ :: _ => []
  | Data raw :: rest =>
      match strip raw with
      | EmptyString => received_lines rest
      | line => line :: received_lines rest
      end
  end.

(** No read of the script fails. *)
Definition all_data (script : list read_outcome) : bool :=
  forallb (fun r => match r with Data _ => true | ReadFails _ => false end) script.

(** The device accepts the command: neither the buffer reset, the write
    nor the flush raises. *)
Definition accepts (script : io_script) : bool :=
  match reset_raises script, write_raises script, flush_raises script with
  | None, None, None => true
  | _, _, _ => false
  end.



(** The attributes of a snapshot, as the parser reads them. *)
Definition firmware_of (d : dict) : string :=
  match d !! "fw_version" with Some (VStr s) => s | _ => "" end.

Definition frequency_of (d : dict) : Z :=
  match d !! "currentFrequency_raw" with Some (VInt n) => n | _ => 0 end.

(** Position of each attribute in the telemetry line. *)
Definition attribute_positions : list (string * nat) :=
  [("fw_version", 0); ("currentFrequency_raw", 1); ("currentBFO", 2);
   ("bandCal", 3); ("bandName", 4); ("mode", 5); ("stepIdx", 6);
   ("bandwidthIdx", 7); ("agcIdx", 8); ("volume", 9); ("rssi_raw", 10);
   ("snr_raw", 11); ("tuningCapacitor", 12); ("voltage", 13);
   ("seqnum", 14)]%nat.

(** The attributes computed from others. *)
Definition derived_attributes : list string := ["frequency"; "rssi"; "snr"].

(** Positions of the fields read as integers. *)
Definition integer_positions : list nat := [1; 2; 9; 10; 11]%nat.

(** The fields of a line. *)
Definition fields (line : string) : list string := strip <$> split_comma line.

(** Field [i] is missing or blank. *)
Definition blank (parts : list string) (i : nat) : bool :=
  match parts !! i with
  | None | Some EmptyString => true
  | Some _ => false
  end.

(** Field [i] is missing, blank or an integer literal. *)
Definition readable (parts : list string) (i : nat) : bool :=
  blank parts i || bool_decide (is_Some (int_of_str (part parts i))).

(** The integer fields that are read before attribute [i] is stored:
    those before it, and in any case frequency and BFO, which are stored
    together. *)
Definition read_before (i : nat) : list nat :=
  filter (fun j => (j < i)%nat \/ (j <= 2)%nat) integer_positions.

(** The number of line terminators a text ends with. *)
Fixpoint trailing_newlines (s : string) : nat :=
  match s with
  | EmptyString => O
  | String c r =>
      let t := trailing_newlines r in
      if Ascii.eqb c LF && (t =? String.length r)%nat then S t else t
  end.

(** The texts a trace writes to the link. *)
Definition writes (t : list event) : list string :=
  omap (fun ev => match ev with Write data => Some data | _ => None end) t.

(** The baud rates a trace tries to open the port at. *)
Definition open_attempts (t : list event) : list Z :=
  omap (fun ev => match ev with OpenEv _ baud => Some baud | _ => None end) t.

(** The port [open_serial] works on. *)
Definition resolved_port (env : link_env) (port : option string) : option string :=
  match port with
  | Some p => Some p
  | None => find_serial_port (comports env) None
  end.

(** Lock discipline of one thread: every operation on the wire happens
    while the thread holds [serial_lock]. *)
Definition wire_operation (ev : event) : bool :=
  match ev with
  | ResetInput | Write _ | Flush | Readline => true
  | _ => false
  end.

Fixpoint guarded_from (held : bool) (t : list event) : bool :=
  match t with
  | [] => true
  | Acquire serial_lock :: r => guarded_from true r
  | Release serial_lock :: r => guarded_from false r
  | ev :: r => (held || negb (wire_operation ev)) && guarded_from held r
  end.

Definition guarded (t : list event) : bool := guarded_from false t.

(** What the specification promises for a field that is missing or
    blank: the attribute, its position and the value that stands for
    its absence. *)
Definition absent_defaults : list (string * nat * pyval) :=
  [("currentFrequency_raw", 1%nat, VInt 0); ("currentBFO", 2%nat, VInt 0);
   ("volume", 9%nat, VNone); ("rssi_raw", 10%nat, VNone);
   ("snr_raw", 11%nat, VNone); ("voltage", 13%nat, VNone)].

(** *** Vocabulary of the further properties *)

(** How many times a character occurs in a text. *)
Fixpoint count_char (c : ascii) (s : string) : nat :=
  match s with
  | EmptyString => O
  | String d r => (if Ascii.eqb c d then 1 else 0) + count_char c r
  end.

(** A text without blanks. *)
Fixpoint no_space (s : string) : bool :=
  match s with
  | EmptyString => true
  | String c r => negb (is_space c) && no_space r
  end.

(** A text of decimal digits. *)
Fixpoint all_digits (s : string) : bool :=
  match s with
  | EmptyString => true
  | String c r => is_digit c && all_digits r
  end.

(** The first integer field that is neither blank nor an integer. *)
Definition first_unreadable (parts : list string) : option nat :=
  List.find (fun j => negb (readable parts j)) integer_positions.

(** What [int] raises on a text that is no integer literal: the
    message ends with the first 200 characters of the [repr] of the
    text. *)
Definition int_error (s : string) : exn :=
  Raise ValueError
    ("invalid literal for int() with base 10: " +:+ take_chars 200 (repr_str s)).

(** Field [j] has no more characters than a literal may have digits,
    so that [int] does not refuse it for its length. *)
Definition short_field (parts : list string) (j : nat) : bool :=
  Z.of_nat (String.length (part parts j)) <=? MAX_STR_DIGITS.

(** The attributes of a complete snapshot. *)
Definition snapshot_keys : list string :=
  "raw_parts_count" :: attribute_positions.*1 ++ derived_attributes.

Definition bfo_of (d : dict) : Z :=
  match d !! "currentBFO" with Some (VInt n) => n | _ => 0 end.

Definition mode_of (d : dict) : string :=
  match d !! "mode" with Some (VStr s) => s | _ => "" end.

(** The integer of field [i], when the field is filled. *)
Definition int_at (parts : list string) (i : nat) : option Z :=
  if blank parts i then None else int_of_str (part parts i).

Definition opt_int (v : option Z) : pyval :=
  match v with Some n => VInt n | None => VNone end.

(** The state of a receiver, as its firmware reports it. *)
Record telemetry : Type := Telemetry {
  t_fw : string; t_freq : Z; t_bfo : Z; t_cal : string; t_band : string;
  t_mode : string; t_step : string; t_bw : string; t_agc : string;
  t_volume : Z; t_rssi : Z; t_snr : Z; t_cap : string; t_adc : Z; t_seq : string
}.

(** The fifteen fields of its telemetry line, numbers in decimal. *)
Definition telemetry_fields (t : telemetry) : list string :=
  [t_fw t; str_of_int (t_freq t); str_of_int (t_bfo t); t_cal t; t_band t; t_mode t;
   t_step t; t_bw t; t_agc t; str_of_int (t_volume t); str_of_int (t_rssi t);
   str_of_int (t_snr t); t_cap t; str_of_int (t_adc t); t_seq t].

Definition telemetry_line (t : telemetry) : string := join "," (telemetry_fields t).

(** A text that can stand in a field: no comma, no blank at either end. *)
Definition plain (s : string) : bool :=
  negb (contains_char "," s) && String.eqb (strip s) s.

Definition text_fields (t : telemetry) : list string :=
  [t_fw t; t_cal t; t_band t; t_mode t; t_step t; t_bw t; t_agc t; t_cap t; t_seq t].

(** Its values the parser reads with [int]. *)
Definition integer_fields (t : telemetry) : list Z :=
  [t_freq t; t_bfo t; t_volume t; t_rssi t; t_snr t].

(** The snapshot that shows this state. *)
Definition snapshot_of (t : telemetry) : dict :=
  list_to_map
    [("raw_parts_count", VInt 15);
     ("fw_version", VStr (t_fw t));
     ("currentFrequency_raw", VInt (t_freq t));
     ("currentBFO", VInt (t_bfo t));
     ("bandCal", VStr (t_cal t));
     ("bandName", VStr (t_band t));
     ("mode", VStr (t_mode t));
     ("stepIdx", VStr (t_step t));
     ("bandwidthIdx", VStr (t_bw t));
     ("agcIdx", VStr (t_agc t));
     ("volume", VInt (t_volume t));
     ("rssi_raw", VInt (t_rssi t));
     ("snr_raw", VInt (t_snr t));
     ("tuningCapacitor", VStr (t_cap t));
     ("voltage", voltage_of (str_of_int (t_adc t)));
     ("seqnum", VStr (t_seq t));
     ("frequency",
      VStr (format_frequency (AInt (t_freq t)) (AInt (t_bfo t)) (AStr (t_mode t))));
     ("rssi", VStr (str_of_int (t_rssi t) +:+ " dBuV"));
     ("snr", VStr (str_of_int (t_snr t) +:+ " dB"))].

(** The non-blank lines the reader hears: those of the reads that
    succeed, trimmed. *)
Definition heard (script : list read_outcome) : list string :=
  omap (fun r => match r with
                 | Data raw => match strip raw with EmptyString => None | l => Some l end
                 | ReadFails _ => None
                 end) script.

(** The lines the reader publishes a snapshot of. *)
Definition trusted (line : string) : bool :=
  contains_char "," line && valid_observation (parse_monitor_line line).

(** A line as the read loops keep it: not empty, no blank at either end. *)
Definition clean_line (l : string) : bool :=
  negb (String.eqb l "") && String.eqb (strip l) l.

(** The first exception of the three operations before the read loop. *)
Definition refusal (script : io_script) : option exn :=
  match reset_raises script, write_raises script, flush_raises script with
  | Some e, _, _ => Some e
  | None, Some e, _ => Some e
  | None, None, r => r
  end.

(** How many lines a call that asks for [wait_lines] returns at most. *)
Definition line_limit (wait_lines : Z) : nat := Z.to_nat (Z.max 1 wait_lines).

(** The handle [open_serial] leaves in place of [old] when it opens
    nothing: closed, unless the close itself raised. *)
Definition after_close (env : link_env) (old : option handle) : option handle :=
  (fun h => if close_raises env then h else closed h) <$> old.

(** [k] begins [text], up to the case of the letters. *)
Fixpoint begins (k text : string) : bool :=
  match k, text with
  | EmptyString, _ => true
  | String a k', String b t' => same_letter a b && begins k' t'
  | String _ _, EmptyString => false
  end.

(** [k] occurs in [text], up to the case of the letters. *)
Fixpoint mentions (k text : string) : bool :=
  begins k text
  || match text with
     | EmptyString => false
     | String _ r => mentions k r
     end.

(** What is known of a port: its description, then its manufacturer. *)
Definition label (p : port_info) : string :=
  default "" (description p) +:+ " " +:+ default "" (manufacturer p).

(** A port that names one of the USB-serial keywords. *)
Definition recognised (p : port_info) : bool :=
  existsb (fun k => mentions k (label p)) keywords.

(** One hexadecimal digit, in capitals or not. *)
Definition hex_char (capitals : bool) (n : Z) : ascii :=
  ascii_of_N (Z.to_N (if n <? 10 then 48 + n else (if capitals then 55 else 87) + n)).

(** The text a device sends for the bytes [b]: two digits each. *)
Fixpoint hexlify (capitals : bool) (b : string) : string :=
  match b with
  | EmptyString => EmptyString
  | String c r =>
      String (hex_char capitals (code c / 16))
        (String (hex_char capitals (code c mod 16)) (hexlify capitals r))
  end.

(** What happens to the globals while the backend runs: the link is
    opened again, the reader thread takes a turn, a route toggles the
    monitor. *)
Inductive action : Type :=
| Open (env : link_env) (port : option string) (baud : Z)
| Read (r : read_outcome)
| Toggle (requested : bool) (script : io_script).

Definition act (a : action) (g : globals) : globals :=
  match a with
  | Open env port baud => (open_serial env port baud g).1
  | Read r => (monitor_reader_iteration r g).1
  | Toggle requested script => (toggle_monitor requested script g).1
  end.

(** The globals after a history of the backend, from its start. *)
Definition history (l : list action) : globals :=
  foldl (fun g a => act a g) initial_globals l.

(** The snapshot and the activity flag go together: active with a
    snapshot that passed the reader's test, or inactive with none. *)
Definition coherent (v : monitor_view) : bool :=
  if view_active v then valid_observation (view_parsed v)
  else bool_decide (view_parsed v = ∅).

(** The significand of the literal [1.702]: the literal is this integer
    over [2^52]. *)
Definition C1702 : Z := 7665126565784584.


End Spec.

(** ** Sample devices and sessions, for the examples *)

Module Samples.
Import PyText Py Backend.

(** A device that accepts a command and answers nothing. *)
Definition quiet : io_script :=
  {| reset_raises := None; write_raises := None; flush_raises := None; reads := [] |}.

(** A device that answers two lines within the time allowed. *)
Definition two_lines : io_script :=
  {| reset_raises := None; write_raises := None; flush_raises := None;
     reads := [Data ("OK" +:+ nl); Data ""; Data ("7200" +:+ nl)] |}.

Definition usb0 : handle := Handle "/dev/ttyUSB0" 9600 true.

(** The globals once the link is open. *)
Definition linked : globals := set_ser initial_globals (Some usb0).

(** The globals after one good telemetry line. *)
Definition tuned : globals := publish linked (parse_monitor_line "1.0.0,7200").

(** The telemetry line of the specification's example. *)
Definition example_line : string :=
  "1.0.0,7200,0,10,40m,USB,3,2,1,15,-90,12,128,210,42".

(** A screenshot stream of five bytes in two lines. *)
Definition hello_stream : list read_outcome :=
  [Data ("48656C" +:+ nl); Data ""; Data ("6C6F" +:+ nl)].

(** A host where the port opens at 9600 baud only. *)
Definition slow_only : link_env :=
  {| comports := [PortInfo "/dev/ttyS0" None None;
                  PortInfo "/dev/ttyUSB0" (Some "CP2102 USB to UART Bridge") None];
     close_raises := false;
     open_raises := fun _ baud =>
       if baud =? FALLBACK_BAUD then None
       else Some (Raise SerialException "could not configure port") |}.

(** A host whose device is gone. *)
Definition dead_port : link_env :=
  {| comports := [];
     close_raises := false;
     open_raises := fun _ _ => Some (Raise SerialException "device disconnected") |}.

(** The receiver state of the specification's example line. *)
Definition tuned_40m : Spec.telemetry :=
  Spec.Telemetry "1.0.0" 7200 0 "10" "40m" "USB" "3" "2" "1" 15 (-90) 12 "128" 210 "42".

(** A telemetry stream: a banner, a blank line, the example line. *)
Definition banner_then_line : list read_outcome :=
  [Data ("ATS-MINI" +:+ nl); Data nl; Data (example_line +:+ nl)].

(** A host where every port opens. *)
Definition plugged : link_env :=
  {| comports := [PortInfo "/dev/ttyACM0" (Some "usb jtag/serial debug unit") None];
     close_raises := false;
     open_raises := fun _ _ => None |}.

(** A command line without options, and environments with and without
    a usable [ATS_BAUD]. *)
Definition no_options : argv :=
  {| arg_port := None; arg_baud := None; arg_host := None; arg_http_port := None |}.

Definition plain_environ : environ := {| ATS_PORT := None; ATS_BAUD := None |}.

Definition fast_environ : environ := {| ATS_PORT := None; ATS_BAUD := Some "fast" |}.


End Samples.

(** * Properties *)

Import PyText PyFloat Py Backend Screenshot Spec Samples.

(** ** Integer literals *)

Lemma py_int_str_ok s n : int_of_str s = Some n -> py_int_str s = Ok n.
Proof.
  unfold int_of_str, py_int_str. destruct (int_syntax s) as [[v digits]|]; [|done].
  destruct (MAX_STR_DIGITS <? digits); [done|]. by intros [= ->].
Qed.

Lemma py_int_str_err s : int_of_str s = None -> exists e, py_int_str s = Err e.
Proof.
  unfold int_of_str, py_int_str. destruct (int_syntax s) as [[v digits]|]; [|eauto].
  destruct (MAX_STR_DIGITS <? digits); [eauto|done].
Qed.

(** ** Binary64 rounding, division and printing *)

Lemma div_half_even_near a b : 0 < b -> 2 * Z.abs (a - div_half_even a b * b) <= b.
Proof.
  intros Hb. unfold div_half_even.
  pose proof (Z.div_mod a b ltac:(lia)) as E.
  pose proof (Z.mod_pos_bound a b Hb) as R.
  repeat case_match; lia.
Qed.

Lemma div_half_even_unique a b q :
  0 < b -> 2 * Z.abs (a - q * b) < b -> div_half_even a b = q.
Proof.
  intros Hb H.
  pose proof (div_half_even_near a b Hb) as N.
  assert (Z.abs (div_half_even a b - q) * b < b) by nia.
  nia.
Qed.

Lemma div_half_even_1 a : div_half_even a 1 = a.
Proof. apply div_half_even_unique; lia. Qed.

Lemma log2_ratio_bounds n d s :
  0 < n -> 0 < d -> 0 <= s -> 0 <= s + log2_ratio n d ->
  d * 2 ^ (s + log2_ratio n d) <= n * 2 ^ s < d * 2 ^ (s + log2_ratio n d + 1).
Proof.
  intros Hn Hd Hs. unfold log2_ratio.
  pose proof (Z.log2_spec n Hn) as [An1 An2].
  pose proof (Z.log2_spec d Hd) as [Ad1 Ad2].
  pose proof (Z.log2_nonneg n) as A0. pose proof (Z.log2_nonneg d) as B0.
  set (A := Z.log2 n) in *. set (B := Z.log2 d) in *.
  rewrite Z.pow_succ_r in An2, Ad2 by lia.
  assert (HX : 0 < 2 ^ s) by (apply Z.pow_pos_nonneg; lia).
  destruct (Z.leb_spec 0 (A - B)) as [Hk|Hk].
  - assert (EA : 2 ^ A = 2 ^ B * 2 ^ (A - B)) by (rewrite <- Z.pow_add_r by lia; f_equal; lia).
    assert (HK : 0 < 2 ^ (A - B)) by (apply Z.pow_pos_nonneg; lia).
    assert (U : n < 2 * (d * 2 ^ (A - B))) by nia.
    destruct (Z.leb_spec (d * 2 ^ (A - B)) n) as [Ht|Ht]; intros HL.
    + replace (s + (A - B) + 1) with (Z.succ (s + (A - B))) by lia.
      rewrite Z.pow_succ_r, !Z.pow_add_r by lia.
      set (K := 2 ^ (A - B)) in *. set (X := 2 ^ s) in *. nia.
    + replace (s + (A - B - 1) + 1) with (s + (A - B)) by lia.
      rewrite (Z.pow_add_r 2 s (A - B)) by lia.
      split; [|set (K := 2 ^ (A - B)) in *; set (X := 2 ^ s) in *; nia].
      assert (Lw : d * 2 ^ (A - B) <= 2 * n) by nia.
      assert (E2 : 2 * 2 ^ (s + (A - B - 1)) = 2 ^ s * 2 ^ (A - B)).
      { rewrite <- Z.pow_succ_r, <- Z.pow_add_r by lia. f_equal; lia. }
      set (K := 2 ^ (A - B)) in *. set (X := 2 ^ s) in *.
      set (W := 2 ^ (s + (A - B - 1))) in *. nia.
  - set (j := - (A - B)) in *.
    assert (EB : 2 ^ B = 2 ^ A * 2 ^ j) by (rewrite <- Z.pow_add_r by lia; f_equal; lia).
    assert (HJ : 0 < 2 ^ j) by (apply Z.pow_pos_nonneg; lia).
    assert (U : n * 2 ^ j < 2 * d) by nia.
    assert (Lw : d < 2 * (n * 2 ^ j)) by nia.
    replace (A - B) with (- j) by lia.
    destruct (Z.leb_spec d (n * 2 ^ j)) as [Ht|Ht]; intros HL.
    + assert (E1 : 2 ^ s = 2 ^ (s + - j) * 2 ^ j).
      { rewrite <- Z.pow_add_r by lia. f_equal; lia. }
      replace (s + - j + 1) with (Z.succ (s + - j)) by lia.
      rewrite Z.pow_succ_r by lia. rewrite E1.
      assert (0 < 2 ^ (s + - j)) by (apply Z.pow_pos_nonneg; lia).
      set (W := 2 ^ (s + - j)) in *. set (J := 2 ^ j) in *. nia.
    + assert (E1 : 2 ^ s = 2 * 2 ^ (s + (- j - 1)) * 2 ^ j).
      { rewrite <- Z.pow_succ_r, <- Z.pow_add_r by lia. f_equal; lia. }
      replace (s + (- j - 1) + 1) with (Z.succ (s + (- j - 1))) by lia.
      rewrite Z.pow_succ_r by lia. rewrite E1.
      assert (0 < 2 ^ (s + (- j - 1))) by (apply Z.pow_pos_nonneg; lia).
      set (W := 2 ^ (s + (- j - 1))) in *. set (J := 2 ^ j) in *. nia.
Qed.

Lemma pow2_lt_inv a b : 0 <= b -> 2 ^ a < 2 ^ b -> a < b.
Proof. intros Hb H. apply (Z.pow_lt_mono_r_iff 2); lia. Qed.

Lemma div_half_even_scale a b c :
  0 < b -> 0 < c -> div_half_even (a * c) (b * c) = div_half_even a b.
Proof.
  intros Hb Hc. unfold div_half_even.
  rewrite Z.div_mul_cancel_r, Z.mul_mod_distr_r by lia.
  set (q := a / b). set (r := a mod b).
  replace (2 * (r * c) <? b * c) with (2 * r <? b)
    by (destruct (Z.ltb_spec (2 * r) b); symmetry; [apply Z.ltb_lt|apply Z.ltb_ge]; nia).
  replace (b * c <? 2 * (r * c)) with (b <? 2 * r)
    by (destruct (Z.ltb_spec b (2 * r)); symmetry; [apply Z.ltb_lt|apply Z.ltb_ge]; nia).
  done.
Qed.

(** [log2_ratio] is the only exponent with its bounds. *)
Lemma log2_ratio_unique n d s L :
  0 < n -> 0 < d -> 0 <= s -> 0 <= s + L ->
  d * 2 ^ (s + L) <= n * 2 ^ s < d * 2 ^ (s + L + 1) ->
  log2_ratio n d = L.
Proof.
  intros Hn Hd Hs HL [B1 B2].
  set (L' := log2_ratio n d).
  set (s' := s + Z.abs L').
  assert (Hs' : 0 <= s') by lia.
  pose proof (log2_ratio_bounds n d s' Hn Hd Hs' ltac:(fold L'; lia)) as [C1 C2].
  fold L' in C1, C2.
  assert (E : 2 ^ s' = 2 ^ s * 2 ^ Z.abs L') by (unfold s'; rewrite Z.pow_add_r; lia).
  assert (HA : 0 < 2 ^ Z.abs L') by (apply Z.pow_pos_nonneg; lia).
  assert (E1 : 2 ^ (s + L) * 2 ^ Z.abs L' = 2 ^ (s' + L)).
  { rewrite <- Z.pow_add_r by lia. f_equal. lia. }
  assert (E2 : 2 ^ (s + L + 1) * 2 ^ Z.abs L' = 2 ^ (s' + L + 1)).
  { rewrite <- Z.pow_add_r by lia. f_equal. lia. }
  assert (D1 : d * 2 ^ (s' + L) <= n * 2 ^ s') by (rewrite <- E1, E; nia).
  assert (D2 : n * 2 ^ s' < d * 2 ^ (s' + L + 1)) by (rewrite <- E2, E; nia).
  assert (F1 : 2 ^ (s' + L) < 2 ^ (s' + L' + 1)) by nia.
  assert (F2 : 2 ^ (s' + L') < 2 ^ (s' + L + 1)) by nia.
  apply pow2_lt_inv in F1; [|lia]. apply pow2_lt_inv in F2; [|lia]. lia.
Qed.

Lemma log2_ratio_scale n d c :
  0 < n -> 0 < d -> 0 < c -> log2_ratio (n * c) (d * c) = log2_ratio n d.
Proof.
  intros Hn Hd Hc.
  set (L := log2_ratio n d). set (s := Z.abs L).
  pose proof (log2_ratio_bounds n d s Hn Hd ltac:(lia) ltac:(fold L; lia)) as [C1 C2].
  fold L in C1, C2.
  apply (log2_ratio_unique _ _ s); [nia|nia|lia|lia|]. nia.
Qed.

Lemma round_ratio_scale s n d c :
  0 <= n -> 0 < d -> 0 < c -> round_ratio s (n * c) (d * c) = round_ratio s n d.
Proof.
  intros Hn Hd Hc. unfold round_ratio.
  destruct (Z.eqb_spec n 0) as [->|Hn0]; [done|].
  replace (n * c =? 0) with false by (symmetry; apply Z.eqb_neq; nia).
  rewrite log2_ratio_scale by lia.
  set (e := Z.max (log2_ratio n d - 52) (-1074)).
  unfold scale2. destruct (Z.leb_spec 0 e).
  - replace (d * c * 2 ^ e) with (d * 2 ^ e * c) by ring.
    rewrite div_half_even_scale; [done| |done].
    apply Z.mul_pos_pos; [lia|]. apply Z.pow_pos_nonneg; lia.
  - replace (n * c * 2 ^ (- e)) with (n * 2 ^ (- e) * c) by ring.
    by rewrite div_half_even_scale.
Qed.

Lemma log2_ratio_lower n d K :
  0 < n -> 0 < d -> 0 <= K -> d <= n * 2 ^ K -> - K <= log2_ratio n d.
Proof.
  intros Hn Hd HK H. set (L := log2_ratio n d).
  destruct (Z.le_gt_cases (- K) L) as [|Hlt]; [done|exfalso].
  pose proof (log2_ratio_bounds n d (- L) Hn Hd ltac:(lia) ltac:(fold L; lia)) as [_ C2].
  fold L in C2. replace (- L + L + 1) with 1 in C2 by lia.
  assert (E : 2 ^ (- L) = 2 ^ K * 2 ^ (- L - K)).
  { rewrite <- Z.pow_add_r by lia. f_equal. lia. }
  assert (2 <= 2 ^ (- L - K)).
  { change 2 with (2 ^ 1) at 1. apply Z.pow_le_mono_r; lia. }
  assert (0 < 2 ^ K) by (apply Z.pow_pos_nonneg; lia).
  rewrite E in C2. change (2 ^ 1) with 2 in C2. nia.
Qed.

Lemma log2_ratio_upper n d K :
  0 < n -> 0 < d -> 0 <= K -> n < d * 2 ^ K -> log2_ratio n d < K.
Proof.
  intros Hn Hd HK H. set (L := log2_ratio n d).
  destruct (Z.lt_ge_cases L K) as [|Hge]; [done|exfalso].
  pose proof (log2_ratio_bounds n d 0 Hn Hd ltac:(lia) ltac:(fold L; lia)) as [C1 _].
  fold L in C1. rewrite Z.add_0_l, Z.mul_1_r in C1.
  assert (2 ^ K <= 2 ^ L) by (apply Z.pow_le_mono_r; lia). nia.
Qed.

(** The nearest binary64 of a ratio that is not tiny: a significand of
    53 bits, and the rounding error at most half a unit of its last
    bit. *)
Lemma round_ratio_normal s n d :
  0 < n -> 0 < d -> d <= n * 2 ^ 1000 ->
  exists m e,
    e = log2_ratio n d - 52 /\ 2 ^ 52 <= m <= 2 ^ 53
    /\ round_ratio s n d
       = (if 1024 <=? Z.log2 m + e then Infinite s else Finite s m e)
    /\ (0 <= e -> 2 * Z.abs (n - m * (d * 2 ^ e)) <= d * 2 ^ e
                  /\ d * 2 ^ e * 2 ^ 52 <= n)
    /\ (e < 0 -> 2 * Z.abs (n * 2 ^ (- e) - m * d) <= d
                 /\ d * 2 ^ 52 <= n * 2 ^ (- e)).
Proof.
  intros Hn Hd Hlow.
  pose proof (log2_ratio_lower n d 1000 Hn Hd ltac:(lia) Hlow) as HL.
  set (L := log2_ratio n d) in *. set (e := L - 52).
  unfold round_ratio. fold L.
  replace (n =? 0) with false by (symmetry; apply Z.eqb_neq; lia).
  replace (Z.max (L - 52) (-1074)) with e by lia.
  unfold scale2.
  destruct (Z.leb_spec 0 e) as [He|He].
  - pose proof (log2_ratio_bounds n d 0 Hn Hd ltac:(lia) ltac:(fold L; lia)) as [C1 C2].
    fold L in C1, C2. rewrite Z.add_0_l, Z.mul_1_r in C1, C2.
    assert (EL : 2 ^ L = 2 ^ e * 2 ^ 52).
    { rewrite <- Z.pow_add_r by lia. f_equal. lia. }
    assert (EL1 : 2 ^ (L + 1) = 2 ^ e * 2 ^ 53).
    { rewrite <- Z.pow_add_r by lia. f_equal. lia. }
    assert (HE : 0 < 2 ^ e) by (apply Z.pow_pos_nonneg; lia).
    assert (HB : 0 < d * 2 ^ e) by (apply Z.mul_pos_pos; lia).
    pose proof (div_half_even_near n (d * 2 ^ e) HB) as N.
    set (m := div_half_even n (d * 2 ^ e)) in *. set (B := d * 2 ^ e) in *.
    assert (HB52 : B * 2 ^ 52 <= n) by (unfold B; rewrite EL in C1; nia).
    assert (HB53 : n < B * 2 ^ 53) by (unfold B; rewrite EL1 in C2; nia).
    exists m, e. repeat split; try lia; try nia.
  - pose proof (log2_ratio_bounds n d (- e) Hn Hd ltac:(lia) ltac:(fold L; lia)) as [C1 C2].
    fold L in C1, C2.
    replace (- e + L) with 52 in C1, C2 by lia.
    change (2 ^ (52 + 1)) with (2 ^ 53) in C2.
    pose proof (div_half_even_near (n * 2 ^ (- e)) d Hd) as N.
    set (m := div_half_even (n * 2 ^ (- e)) d) in *. set (A := n * 2 ^ (- e)) in *.
    exists m, e. repeat split; try lia; try nia.
Qed.

Lemma magnitude_scale t m e :
  magnitude (m * t) e = ((magnitude m e).1 * t, (magnitude m e).2).
Proof.
  unfold magnitude. destruct (0 <=? e); cbn [fst snd]; [f_equal; ring|done].
Qed.

Lemma le_scaled d n : 0 < n -> d <= 2 ^ 20 -> d <= n * 2 ^ 1000.
Proof.
  intros Hn Hd.
  assert (H : 2 ^ 20 <= 2 ^ 1000) by (apply Z.pow_le_mono_r; lia).
  set (K := 2 ^ 1000) in *. change (2 ^ 20) with 1048576 in *. nia.
Qed.

Lemma log2_ratio_le n d : 0 < n -> 0 < d -> log2_ratio n d <= Z.log2 n - Z.log2 d.
Proof. intros _ _. unfold log2_ratio. repeat case_match; lia. Qed.

(** A nonzero integer that converts: the float is an integer [X] close
    to it. *)
Lemma float_of_int_value n x :
  n <> 0 -> float_of_int n = Some x ->
  exists m e X c,
    x = Finite (n <? 0) m e /\ magnitude m e = (X * c, c) /\ 0 < c
    /\ 0 < X /\ Z.log2 X < 1024 /\ 2 ^ 53 * Z.abs (Z.abs n - X) <= Z.abs n.
Proof.
  intros Hn. unfold float_of_int.
  destruct (round_ratio_normal (n <? 0) (Z.abs n) 1 ltac:(lia) ltac:(lia)
              (le_scaled 1 (Z.abs n) ltac:(lia) ltac:(lia)))
    as (m & e & He & Hm & -> & Hpos & Hneg).
  destruct (Z.leb_spec 1024 (Z.log2 m + e)) as [Hov|Hov]; [discriminate|].
  intros [= <-].
  destruct (Z.leb_spec 0 e) as [H0|H0].
  - destruct (Hpos H0) as [P1 P2]. rewrite Z.mul_1_l in P1, P2.
    assert (HE : 0 < 2 ^ e) by (apply Z.pow_pos_nonneg; lia).
    exists m, e, (m * 2 ^ e), 1. unfold magnitude.
    replace (0 <=? e) with true by (symmetry; apply Z.leb_le; lia).
    rewrite Z.mul_1_r, Z.log2_mul_pow2 by lia.
    set (E := 2 ^ e) in *.
    repeat split; try lia; nia.
  - destruct (Hneg H0) as [P1 P2]. rewrite Z.mul_1_r in P1. rewrite Z.mul_1_l in P2.
    assert (HE : 0 < 2 ^ (- e)) by (apply Z.pow_pos_nonneg; lia).
    assert (Em : m = Z.abs n * 2 ^ (- e)) by lia.
    exists m, e, (Z.abs n), (2 ^ (- e)). unfold magnitude.
    replace (0 <=? e) with false by (symmetry; apply Z.leb_gt; lia).
    rewrite Em. repeat split; try lia.
    assert (Z.abs n <= 2 ^ 53) by (set (P := 2 ^ (- e)) in *; nia).
    assert (Z.log2 (Z.abs n) <= Z.log2 (2 ^ 53)) by (apply Z.log2_le_mono; lia).
    change (Z.log2 (2 ^ 53)) with 53 in *. lia.
Qed.

(** An integer-valued float over a constant, printed with [k] decimals. *)
Lemma quotient_digits s X k c :
  0 < X -> Z.log2 X < 1024 -> c = 1 \/ c = 10 ->
  1000 <= c * 10 ^ Z.of_nat k <= 2 ^ 20 ->
  exists m e, round_ratio s X (c * 10 ^ Z.of_nat k) = Finite s m e
    /\ 0 <= decimal_digits k m e
    /\ 2 ^ 53 * Z.abs (c * decimal_digits k m e - X) <= c * 2 ^ 52 + X.
Proof.
  intros HX HlX Hc Hd. set (T := 10 ^ Z.of_nat k) in *.
  assert (HT : 0 < T) by (apply Z.pow_pos_nonneg; lia).
  set (d := c * T) in *.
  destruct (round_ratio_normal s X d ltac:(lia) ltac:(lia)
              (le_scaled d X ltac:(lia) ltac:(lia)))
    as (m & e & He & Hm & -> & Hpos & Hneg).
  assert (HL : log2_ratio X d < 1015).
  { pose proof (log2_ratio_le X d ltac:(lia) ltac:(lia)).
    assert (Z.log2 512 <= Z.log2 d) by (apply Z.log2_le_mono; lia).
    change (Z.log2 512) with 9 in *. lia. }
  assert (Hlog : Z.log2 m <= 53).
  { change 53 with (Z.log2 (2 ^ 53)). apply Z.log2_le_mono. lia. }
  replace (1024 <=? Z.log2 m + e) with false by (symmetry; apply Z.leb_gt; lia).
  exists m, e. split; [done|].
  unfold decimal_digits. fold T. rewrite magnitude_scale. unfold magnitude.
  clear HlX HL He Hlog.
  destruct (Z.leb_spec 0 e) as [H0|H0]; cbn [fst snd].
  - destruct (Hpos H0) as [P1 P2]. rewrite div_half_even_1.
    assert (HE : 0 < 2 ^ e) by (apply Z.pow_pos_nonneg; lia).
    set (E := 2 ^ e) in *.
    assert (Er : c * (m * E * T) = m * (d * E)) by (unfold d; ring).
    split; [nia|]. rewrite Er. lia.
  - destruct (Hneg H0) as [P1 P2].
    assert (HP : 0 < 2 ^ (- e)) by (apply Z.pow_pos_nonneg; lia).
    pose proof (div_half_even_near (m * T) (2 ^ (- e)) HP) as N.
    set (r := div_half_even (m * T) (2 ^ (- e))) in *. set (P := 2 ^ (- e)) in *.
    split; [nia|].
    assert (G : 2 ^ 53 * Z.abs (c * (r * P) - X * P) <= (c * 2 ^ 52 + X) * P).
    { assert (Emd : m * d = c * (m * T)) by (unfold d; ring).
      destruct Hc as [-> | ->]; lia. }
    assert (Eabs : Z.abs (c * (r * P) - X * P) = Z.abs (c * r - X) * P).
    { replace (c * (r * P) - X * P) with ((c * r - X) * P) by ring.
      rewrite Z.abs_mul. f_equal. lia. }
    rewrite Eabs in G.
    apply (Z.mul_le_mono_pos_r _ _ P HP). rewrite <- Z.mul_assoc. exact G.
Qed.

Lemma mhz_display_wide k c n x :
  c = 1 \/ c = 10 -> 1000 <= c * 10 ^ Z.of_nat k <= 2 ^ 20 ->
  float_of_int n = Some x ->
  exists q r, py_fdiv x (Finite false (c * 10 ^ Z.of_nat k) 0) = Ok q
    /\ format_fixed k q = render_fixed k (n <? 0) r
    /\ accurate c r (Z.abs n).
Proof.
  intros Hc Hd Hx. unfold py_fdiv, fdiv. cbn [is_zero].
  replace (c * 10 ^ Z.of_nat k =? 0) with false by (symmetry; apply Z.eqb_neq; lia).
  destruct (Z.eq_dec n 0) as [->|Hn].
  - assert (x = Finite false 0 0) as -> by (vm_compute in Hx; congruence).
    exists (Finite false 0 0), 0. split; [|split].
    + unfold magnitude. cbn [Z.leb Z.compare Z.mul xorb]. reflexivity.
    + cbn [format_fixed]. change (0 <? 0) with false.
      f_equal; unfold decimal_digits, magnitude; cbn [Z.leb Z.compare Z.mul];
        apply div_half_even_1.
    + unfold accurate. simpl. lia.
  - destruct (float_of_int_value n x Hn Hx)
      as (m1 & e1 & X & c1 & -> & M & Hc1 & HX & HlX & HnX).
    rewrite M. unfold magnitude at 1. cbn [Z.leb Z.compare].
    rewrite xorb_false_r.
    replace (X * c1 * 1) with (X * c1) by lia.
    replace (c1 * (c * 10 ^ Z.of_nat k * 2 ^ 0)) with (c * 10 ^ Z.of_nat k * c1)
      by (simpl (2 ^ 0); ring).
    rewrite round_ratio_scale by lia.
    destruct (quotient_digits (n <? 0) X k c HX HlX Hc Hd) as (m & e & -> & R0 & R).
    exists (Finite (n <? 0) m e), (decimal_digits k m e).
    split; [done|]. split; [done|]. split; [done|].
    destruct Hc as [-> | ->]; lia.
Qed.

(** The model of binary64 agrees with the Standard Library's on the
    sample operands: conversion from an integer, quotient and product. *)
Example float_model_agrees :
  forallb (fun p => FloatCheck.agree p.1 p.2) FloatCheck.samples = true.
Proof. vm_compute. reflexivity. Qed.

(** ** The frequency formatter *)

Lemma in_all_ascii c : In c all_ascii.
Proof.
  rewrite <- (ascii_nat_embedding c). unfold all_ascii.
  apply in_map, in_seq. pose proof (nat_ascii_bounded c). lia.
Qed.

Lemma same_letter_upper c d :
  same_letter c d = Ascii.eqb (upper_char c) (upper_char d).
Proof.
  assert (H : forallb (fun c => forallb (fun d =>
            Bool.eqb (same_letter c d) (Ascii.eqb (upper_char c) (upper_char d)))
            all_ascii) all_ascii = true) by (vm_compute; reflexivity).
  rewrite forallb_forall in H. specialize (H c (in_all_ascii c)).
  rewrite forallb_forall in H. specialize (H d (in_all_ascii d)).
  by apply Bool.eqb_prop.
Qed.

Lemma same_text_upper a b : same_text a b = String.eqb (upper a) (upper b).
Proof.
  revert b. induction a as [|c a IH]; intros [|d b]; simpl; try done.
  rewrite same_letter_upper, IH. by destruct (Ascii.eqb _ _).
Qed.

Lemma ssb_test mode :
  bool_decide (upper mode ∈ ["USB"; "LSB"; "SSB"])
  = same_text mode "USB" || same_text mode "LSB" || same_text mode "SSB".
Proof.
  rewrite !same_text_upper.
  change (upper "USB") with "USB". change (upper "LSB") with "LSB".
  change (upper "SSB") with "SSB".
  destruct (String.eqb_spec (upper mode) "USB") as [->|H1]; [done|].
  destruct (String.eqb_spec (upper mode) "LSB") as [->|H2]; [done|].
  destruct (String.eqb_spec (upper mode) "SSB") as [->|H3]; [done|].
  simpl. apply bool_decide_eq_false_2. rewrite !elem_of_cons, elem_of_nil. tauto.
Qed.

Lemma py_int_value raw f : raw_value raw = Some f -> py_int raw = Ok f.
Proof.
  destruct raw as [|n|s]; simpl; [discriminate|congruence|].
  apply py_int_str_ok.
Qed.

Lemma py_int_no_value raw : raw_value raw = None -> exists e, py_int raw = Err e.
Proof.
  destruct raw as [|n|s]; simpl; [eauto|discriminate|].
  apply py_int_str_err.
Qed.

Lemma classify_cases mode :
  let mm := upper mode in
  match classify mode with
  | SideBand => bool_decide (mm ∈ ["USB"; "LSB"; "SSB"]) = true
  | BroadcastFM =>
      bool_decide (mm ∈ ["USB"; "LSB"; "SSB"]) = false /\ String.eqb mm "FM" = true
  | BroadcastAM =>
      bool_decide (mm ∈ ["USB"; "LSB"; "SSB"]) = false /\ String.eqb mm "FM" = false
      /\ String.eqb mm "AM" = true
  | OtherMode =>
      bool_decide (mm ∈ ["USB"; "LSB"; "SSB"]) = false /\ String.eqb mm "FM" = false
      /\ String.eqb mm "AM" = false
  end.
Proof.
  intros mm. unfold classify. rewrite <- ssb_test. fold mm.
  destruct (bool_decide _); [done|].
  rewrite !same_text_upper. fold mm.
  change (upper "FM") with "FM". change (upper "AM") with "AM".
  destruct (String.eqb mm "FM"); [done|].
  by destruct (String.eqb mm "AM").
Qed.

Lemma py_float_of_int_some n x : float_of_int n = Some x -> py_float_of_int n = Ok x.
Proof. unfold py_float_of_int. by intros ->. Qed.

Lemma accurate_exact r a : accurate 1 r a -> Z.abs a < 2 ^ 50 -> 0 <= a -> r = a.
Proof. unfold accurate. lia. Qed.

(** Claim C1, as amended.  The raw frequency is [None], an integer of
    at most 4300 digits or an ASCII text, and the mode is an ASCII text.
    For a raw frequency that stands for an integer [f] (kHz: the integer
    itself, or the text when [int] accepts it), an integer BFO offset
    [b] (Hz) and any such mode, let the value shown be [f * 1000 + b] Hz in the modes USB, LSB and SSB
    (whatever the case of their letters) and [f] kHz in every other mode.
    When this value converts to a binary64 float, [format_frequency]
    shows it in megahertz with six decimals (USB, LSB, SSB), two decimals
    (FM) or three decimals (AM and any other mode), except that AM below
    1000 kHz shows the integer [f] in kilohertz.  The digits shown are
    within half a unit of the last decimal, plus one part in [2^51], of
    the exact value, and they are the exact value with six or three
    decimals for magnitudes below [2^50].  When the value is too large
    for a float, and when the raw value stands for no integer, the result
    is the raw value followed by the mark [(raw)]. *)
Theorem format_frequency_display (raw : pyarg) (b : Z) (mode : string) :
  plain_arg raw = true -> is_ascii mode = true ->
  let out := format_frequency raw (AInt b) (AStr mode) in
  match raw_value raw with
  | None => out = py_str raw +:+ " (raw)"
  | Some f =>
      let cls := classify mode in
      let n := shown_value cls f b in
      match float_of_int n with
      | None => out = py_str raw +:+ " (raw)"
      | Some _ =>
          if in_kilohertz cls f then out = str_of_int f +:+ " kHz"
          else
            (exists r, accurate (unit_ratio cls) r (Z.abs n)
               /\ out = render_fixed (decimals cls) (n <? 0) r +:+ " MHz")
            /\ (unit_ratio cls = 1 -> Z.abs n < 2 ^ 50 ->
                out = mhz_text (decimals cls) n)
      end
  end.
Proof.
  intros _ _.
  pose proof (classify_cases mode) as C. cbv zeta in C. cbv zeta.
  unfold format_frequency, format_frequency_try.
  cbn [py_upper py_int mbind result_bind mret result_ret].
  destruct (raw_value raw) as [f|] eqn:V.
  2: { destruct (py_int_no_value raw V) as [e ->]. by destruct (bool_decide _). }
  rewrite (py_int_value raw f V). cbn [mbind result_bind].
  assert (Wide : forall k c n x,
            c = 1 \/ c = 10 -> 1000 <= c * 10 ^ Z.of_nat k <= 2 ^ 20 ->
            float_of_int n = Some x ->
            exists q, py_fdiv x (Finite false (c * 10 ^ Z.of_nat k) 0) = Ok q
              /\ (exists r, accurate c r (Z.abs n)
                    /\ format_fixed k q +:+ " MHz" = render_fixed k (n <? 0) r +:+ " MHz")
              /\ (c = 1 -> Z.abs n < 2 ^ 50 -> format_fixed k q +:+ " MHz" = mhz_text k n)).
  { intros k c n x Hc Hd Hx.
    destruct (mhz_display_wide k c n x Hc Hd Hx) as (q & r & E & F & A).
    exists q. split; [done|]. rewrite F. split; [eauto|].
    intros -> Hn. unfold mhz_text. by rewrite (accurate_exact r (Z.abs n) A) by lia. }
  destruct (classify mode); cbn [shown_value decimals unit_ratio in_kilohertz].
  - rewrite C.
    destruct (float_of_int (f * 1000 + b)) as [x|] eqn:Ex.
    + rewrite (py_float_of_int_some _ x Ex). cbn [mbind result_bind].
      destruct (Wide 6%nat 1 _ x ltac:(lia) ltac:(simpl; lia) Ex) as (q & E & W).
      change (Finite false (1 * 10 ^ Z.of_nat 6) 0) with f_1000000 in E.
      rewrite E. exact W.
    + unfold py_float_of_int. by rewrite Ex.
  - destruct C as [-> ->].
    destruct (float_of_int f) as [x|] eqn:Ex.
    + rewrite (py_float_of_int_some _ x Ex). cbn [mbind result_bind].
      destruct (Wide 2%nat 10 _ x ltac:(lia) ltac:(simpl; lia) Ex) as (q & E & W).
      change (Finite false (10 * 10 ^ Z.of_nat 2) 0) with f_1000 in E.
      rewrite E. split; [exact (proj1 W)|]. intros [=].
    + unfold py_float_of_int. by rewrite Ex.
  - destruct C as (-> & -> & ->).
    destruct (float_of_int f) as [x|] eqn:Ex.
    + rewrite (py_float_of_int_some _ x Ex). cbn [mbind result_bind].
      destruct (Wide 3%nat 1 _ x ltac:(lia) ltac:(simpl; lia) Ex) as (q & E & W).
      change (Finite false (1 * 10 ^ Z.of_nat 3) 0) with f_1000 in E.
      rewrite E. cbn [mbind result_bind mret result_ret].
      destruct (f <? 1000); [done|exact W].
    + unfold py_float_of_int. by rewrite Ex.
  - destruct C as (-> & -> & ->).
    destruct (float_of_int f) as [x|] eqn:Ex.
    + rewrite (py_float_of_int_some _ x Ex). cbn [mbind result_bind].
      destruct (Wide 3%nat 1 _ x ltac:(lia) ltac:(simpl; lia) Ex) as (q & E & W).
      change (Finite false (1 * 10 ^ Z.of_nat 3) 0) with f_1000 in E.
      rewrite E. exact W.
    + unfold py_float_of_int. by rewrite Ex.
Qed.

(** Claim C1, the amended statement at 7200 kHz in USB: the display is
    [7.200000 MHz]. *)
Lemma format_frequency_display_witness :
  format_frequency (AInt 7200) (AInt 0) (AStr "USB") = "7.200000 MHz".
Proof.
  exact (proj2 (format_frequency_display (AInt 7200) 0 "USB" eq_refl eq_refl)
           eq_refl eq_refl).
Defined.

(** Claim C1 as stated fails for a numeric raw value beyond the binary64
    range: [10^309] kHz in USB mode is an integer, but converting the Hz
    value to a float raises [OverflowError], which the formatter catches,
    so the display is the raw value with the mark [(raw)] and not
    megahertz. *)
Lemma format_frequency_overflow :
  format_frequency (AInt (10 ^ 309)) (AInt 0) (AStr "USB")
  = str_of_int (10 ^ 309) +:+ " (raw)".
Proof. vm_compute. reflexivity. Qed.

(** ** The telemetry parser and the reader loop *)

Lemma part_lookup parts i : part parts i = default "" (parts !! i).
Proof.
  unfold part. revert i. induction parts as [|p parts IH]; intros [|i]; simpl; try done.
Qed.

Lemma filled_blank parts i : filled parts i = negb (blank parts i).
Proof.
  unfold filled, blank, has_part. rewrite part_lookup.
  destruct (parts !! i) as [s|] eqn:E.
  - apply lookup_lt_Some in E. rewrite bool_decide_eq_true_2 by done.
    simpl. by destruct s.
  - apply lookup_ge_None in E. rewrite bool_decide_eq_false_2 by lia. done.
Qed.

(** The parser's run, cut at its five integer conversions. *)
Lemma parse_monitor_try_unfold parts :
  parse_monitor_try parts ∅ =
  let out := <["fw_version" := VStr (text_field parts 0)]>
               (<["raw_parts_count" := VInt (Z.of_nat (length parts))]> ∅) in
  match int_field_or_zero parts 1 with
  | Err e => (out, Err e)
  | Ok freq_khz =>
  match int_field_or_zero parts 2 with
  | Err e => (out, Err e)
  | Ok bfo_hz =>
  let out := <["agcIdx" := VStr (text_field parts 8)]>
    (<["bandwidthIdx" := VStr (text_field parts 7)]>
    (<["stepIdx" := VStr (text_field parts 6)]>
    (<["mode" := VStr (text_field parts 5)]>
    (<["bandName" := VStr (text_field parts 4)]>
    (<["bandCal" := VStr (text_field parts 3)]>
    (<["currentBFO" := VInt bfo_hz]>
    (<["currentFrequency_raw" := VInt freq_khz]> out))))))) in
  match int_field_or_none parts 9 with
  | Err e => (out, Err e)
  | Ok volume =>
  let out := <["volume" := volume]> out in
  match int_field_or_none parts 10 with
  | Err e => (out, Err e)
  | Ok rssi_raw =>
  let out := <["rssi_raw" := rssi_raw]> out in
  match int_field_or_none parts 11 with
  | Err e => (out, Err e)
  | Ok snr_raw =>
  (<["snr" := VStr (with_unit snr_raw " dB")]>
   (<["rssi" := VStr (with_unit rssi_raw " dBuV")]>
   (<["frequency" := VStr (format_frequency (AInt freq_khz) (AInt bfo_hz)
                              (AStr (text_field parts 5)))]>
   (<["seqnum" := VStr (text_field parts 14)]>
   (<["voltage" := if filled parts 13 then voltage_of (part parts 13) else VNone]>
   (<["tuningCapacitor" := VStr (text_field parts 12)]>
   (<["snr_raw" := snr_raw]> out)))))), Ok tt)
  end end end end end.
Proof.
  unfold parse_monitor_try, assign, eval.
  cbn [mbind stmt_bind].
  destruct (int_field_or_zero parts 1); [|done].
  destruct (int_field_or_zero parts 2); [|done].
  destruct (int_field_or_none parts 9); [|done].
  destruct (int_field_or_none parts 10); [|done].
  destruct (int_field_or_none parts 11); done.
Qed.

Lemma readable_zero parts i :
  readable parts i = true ->
  exists z, int_field_or_zero parts i = Ok z /\ (blank parts i = true -> z = 0).
Proof.
  unfold readable, int_field_or_zero. rewrite filled_blank.
  destruct (blank parts i); simpl; [eauto|].
  intros [z Hz]%bool_decide_eq_true. rewrite (py_int_str_ok _ _ Hz).
  exists z. split; [done|discriminate].
Qed.

Lemma readable_none parts i :
  readable parts i = true ->
  exists v, int_field_or_none parts i = Ok v /\ (blank parts i = true -> v = VNone).
Proof.
  unfold readable, int_field_or_none. rewrite filled_blank.
  destruct (blank parts i); simpl; [eauto|].
  intros [z Hz]%bool_decide_eq_true. rewrite (py_int_str_ok _ _ Hz).
  exists (VInt z). split; [done|discriminate].
Qed.

Lemma unreadable_zero parts i :
  blank parts i = false -> int_of_str (part parts i) = None ->
  exists e, int_field_or_zero parts i = Err e.
Proof.
  intros Hb Hi. unfold int_field_or_zero. rewrite filled_blank, Hb. simpl.
  apply py_int_str_err, Hi.
Qed.

Lemma unreadable_none parts i :
  blank parts i = false -> int_of_str (part parts i) = None ->
  exists e, int_field_or_none parts i = Err e.
Proof.
  intros Hb Hi. unfold int_field_or_none. rewrite filled_blank, Hb. simpl.
  destruct (py_int_str_err _ Hi) as [e ->]. by exists e.
Qed.

Lemma read_before_elem i j :
  j ∈ integer_positions -> (j < i)%nat \/ (j <= 2)%nat -> j ∈ read_before i.
Proof. intros H1 H2. unfold read_before. apply list_elem_of_filter. done. Qed.

Lemma integer_position_cases j :
  j ∈ integer_positions -> j = 1%nat \/ j = 2%nat \/ j = 9%nat \/ j = 10%nat \/ j = 11%nat.
Proof.
  unfold integer_positions. rewrite !elem_of_cons, elem_of_nil. tauto.
Qed.

Ltac in_positions := unfold integer_positions; rewrite !elem_of_cons; tauto.

Ltac need_readable H j :=
  let R := fresh "R" in
  lazymatch type of H with
  | forall k, k ∈ read_before ?i -> _ =>
      assert (R := H j (read_before_elem i j ltac:(in_positions) ltac:(lia)))
  end.

(** The parser's result, by its first failing conversion. *)
Ltac parser_cases parts :=
  destruct (int_field_or_zero parts 1) as [?f|?e] eqn:?E1;
  [destruct (int_field_or_zero parts 2) as [?b|?e] eqn:?E2;
   [destruct (int_field_or_none parts 9) as [?v|?e] eqn:?E9;
    [destruct (int_field_or_none parts 10) as [?r|?e] eqn:?E10;
     [destruct (int_field_or_none parts 11) as [?s|?e] eqn:?E11|]|]|]|].

Lemma unreadable_field parts j :
  readable parts j = false ->
  blank parts j = false /\ int_of_str (part parts j) = None.
Proof.
  unfold readable. destruct (blank parts j); [done|]. cbn [orb].
  intros H%bool_decide_eq_false. split; [done|].
  destruct (int_of_str (part parts j)) as [z|]; [|done]. destruct H. by exists z.
Qed.

(** Claim C4, as amended.  For every ASCII line the parser returns a
    snapshot (it always records the number of fields), and an attribute
    whose field is missing or blank gets its absent value -- [None] for
    volume, RSSI, SNR and voltage, [0] for raw frequency and raw BFO --
    provided every integer field read before the attribute is stored is
    itself missing, blank or an integer literal.  Otherwise, that is when
    one of these fields is filled and is no integer literal, the
    conversion that fails ends the parse and the attribute is not in the
    snapshot at all. *)
Theorem missing_fields_absent (line : string) :
  is_ascii line = true ->
  let parts := fields line in
  let out := parse_monitor_line line in
  out !! "raw_parts_count" = Some (VInt (Z.of_nat (length parts)))
  /\ (forall key i dflt,
        (key, i, dflt) ∈ absent_defaults ->
        (forall j, j ∈ read_before i -> readable parts j = true) ->
        blank parts i = true ->
        out !! key = Some dflt)
  /\ (forall key i dflt j,
        (key, i, dflt) ∈ absent_defaults ->
        j ∈ read_before i -> readable parts j = false ->
        out !! key = None).
Proof.
  intros _ parts out. subst out. unfold parse_monitor_line. fold (fields line). fold parts.
  rewrite parse_monitor_try_unfold. cbv zeta.
  split; [|split].
  - destruct (int_field_or_zero parts 1); [|reflexivity].
    destruct (int_field_or_zero parts 2); [|reflexivity].
    destruct (int_field_or_none parts 9); [|reflexivity].
    destruct (int_field_or_none parts 10); [|reflexivity].
    destruct (int_field_or_none parts 11); reflexivity.
  - intros key i dflt Hin Hread Hblank.
    unfold absent_defaults in Hin.
    repeat (apply elem_of_cons in Hin as [Hin|Hin]; [injection Hin as -> -> ->|]);
      [..|by apply elem_of_nil in Hin].
    + need_readable Hread 1%nat. need_readable Hread 2%nat.
      destruct (readable_zero parts 1 R) as (f & -> & Hf).
      destruct (readable_zero parts 2 R0) as (b & -> & _).
      rewrite (Hf Hblank).
      destruct (int_field_or_none parts 9); [|reflexivity].
      destruct (int_field_or_none parts 10); [|reflexivity].
      destruct (int_field_or_none parts 11); reflexivity.
    + need_readable Hread 1%nat. need_readable Hread 2%nat.
      destruct (readable_zero parts 1 R) as (f & -> & _).
      destruct (readable_zero parts 2 R0) as (b & -> & Hb).
      rewrite (Hb Hblank).
      destruct (int_field_or_none parts 9); [|reflexivity].
      destruct (int_field_or_none parts 10); [|reflexivity].
      destruct (int_field_or_none parts 11); reflexivity.
    + need_readable Hread 1%nat. need_readable Hread 2%nat.
      destruct (readable_zero parts 1 R) as (f & -> & _).
      destruct (readable_zero parts 2 R0) as (b & -> & _).
      assert (R9 : readable parts 9 = true) by (unfold readable; by rewrite Hblank).
      destruct (readable_none parts 9 R9) as (v & -> & Hv). rewrite (Hv Hblank).
      destruct (int_field_or_none parts 10); [|reflexivity].
      destruct (int_field_or_none parts 11); reflexivity.
    + need_readable Hread 1%nat. need_readable Hread 2%nat. need_readable Hread 9%nat.
      destruct (readable_zero parts 1 R) as (f & -> & _).
      destruct (readable_zero parts 2 R0) as (b & -> & _).
      destruct (readable_none parts 9 R1) as (v & -> & _).
      assert (R10 : readable parts 10 = true) by (unfold readable; by rewrite Hblank).
      destruct (readable_none parts 10 R10) as (r & -> & Hr). rewrite (Hr Hblank).
      destruct (int_field_or_none parts 11); reflexivity.
    + need_readable Hread 1%nat. need_readable Hread 2%nat. need_readable Hread 9%nat.
      need_readable Hread 10%nat.
      destruct (readable_zero parts 1 R) as (f & -> & _).
      destruct (readable_zero parts 2 R0) as (b & -> & _).
      destruct (readable_none parts 9 R1) as (v & -> & _).
      destruct (readable_none parts 10 R2) as (r & -> & _).
      assert (R11 : readable parts 11 = true) by (unfold readable; by rewrite Hblank).
      destruct (readable_none parts 11 R11) as (s & -> & Hs). rewrite (Hs Hblank).
      reflexivity.
    + need_readable Hread 1%nat. need_readable Hread 2%nat. need_readable Hread 9%nat.
      need_readable Hread 10%nat. need_readable Hread 11%nat.
      destruct (readable_zero parts 1 R) as (f & -> & _).
      destruct (readable_zero parts 2 R0) as (b & -> & _).
      destruct (readable_none parts 9 R1) as (v & -> & _).
      destruct (readable_none parts 10 R2) as (r & -> & _).
      destruct (readable_none parts 11 R3) as (s & -> & _).
      rewrite filled_blank, Hblank. reflexivity.
  - intros key i dflt j Hin Hj Hbad.
    apply unreadable_field in Hbad as [Hb Hn].
    apply list_elem_of_filter in Hj as [Hlt Hj].
    assert (Bad : (exists e, int_field_or_zero parts j = Err e) /\ (j <= 2)%nat
                  \/ (exists e, int_field_or_none parts j = Err e) /\ (9 <= j)%nat).
    { apply integer_position_cases in Hj as [->|[->|[->|[->| ->]]]];
        first [left; split; [by apply unreadable_zero|lia]
              |right; split; [by apply unreadable_none|lia]]. }
    apply integer_position_cases in Hj.
    unfold absent_defaults in Hin.
    repeat (apply elem_of_cons in Hin as [Hin|Hin]; [injection Hin as -> -> ->|]);
      [..|by apply elem_of_nil in Hin].
    all: destruct Bad as [[[e He] Hr]|[[e He] Hr]];
      destruct Hj as [->|[->|[->|[->| ->]]]]; try lia;
      parser_cases parts; try congruence; reflexivity.
Qed.

(** Claim C4, the amended statement on a line whose volume field is
    blank: the snapshot binds [volume] to [None]. *)
Lemma missing_fields_absent_witness :
  blank (fields "1.0.0,7200,,10,40m,USB,3,2,1,,-90") 9 = true
  /\ parse_monitor_line "1.0.0,7200,,10,40m,USB,3,2,1,,-90" !! "volume" = Some VNone.
Proof.
  split; [reflexivity|].
  refine (proj1 (proj2 (missing_fields_absent "1.0.0,7200,,10,40m,USB,3,2,1,,-90"
                          eq_refl))
            "volume" 9%nat VNone _ _ eq_refl).
  - unfold absent_defaults. rewrite !elem_of_cons. tauto.
  - intros j Hj. apply list_elem_of_filter in Hj as [Hlt Hj].
    apply integer_position_cases in Hj as [->|[->|[->|[->| ->]]]];
      first [reflexivity | lia].
Defined.

(** Claim C4 as stated fails on the line [fw,abc]: its BFO and volume
    fields are missing, yet the snapshot has neither [currentBFO] (it is
    not [0]) nor [volume] (it is not an explicit [None]), because the
    frequency field [abc] ended the parse before they were stored. *)
Lemma missing_bfo_not_defaulted :
  blank (fields "fw,abc") 2 = true
  /\ blank (fields "fw,abc") 9 = true
  /\ parse_monitor_line "fw,abc" !! "currentBFO" = None
  /\ parse_monitor_line "fw,abc" !! "volume" = None.
Proof. vm_compute. repeat split. Qed.

(** The example of the specification: the line is parsed to
    7200 kHz, shown as [7.200000 MHz] by the USB rule, with RSSI text
    [-90 dBuV], SNR text [12 dB] and the voltage [round(210 * 1.702 /
    1000, 3)], printed [0.357]; no parse error. *)
Lemma example_line_parsed :
  parse_monitor_line example_line !! "currentFrequency_raw" = Some (VInt 7200)
  /\ parse_monitor_line example_line !! "frequency" = Some (VStr "7.200000 MHz")
  /\ parse_monitor_line example_line !! "rssi" = Some (VStr "-90 dBuV")
  /\ parse_monitor_line example_line !! "snr" = Some (VStr "12 dB")
  /\ parse_monitor_line example_line !! "voltage"
     = Some (VFloat (round_ndigits
                       (default NaN (fdiv (fmul (Finite false 210 0) f_1_702) f_1000)) 3))
  /\ (voltage ← parse_monitor_line example_line !! "voltage";
      match voltage with VFloat v => Some (format_fixed 3 v) | _ => None end)
     = Some "0.357"
  /\ parse_monitor_line example_line !! "parse_error" = None.
Proof. vm_compute. repeat split. Qed.

Lemma parsed_firmware line :
  parse_monitor_line line !! "fw_version" = Some (VStr (text_field (fields line) 0)).
Proof.
  unfold parse_monitor_line. fold (fields line).
  rewrite parse_monitor_try_unfold. cbv zeta.
  parser_cases (fields line); reflexivity.
Qed.

Lemma parsed_frequency line :
  parse_monitor_line line !! "currentFrequency_raw" = None
  \/ exists f, parse_monitor_line line !! "currentFrequency_raw" = Some (VInt f).
Proof.
  unfold parse_monitor_line. fold (fields line).
  rewrite parse_monitor_try_unfold. cbv zeta.
  parser_cases (fields line); first [by left | right; eexists; reflexivity].
Qed.

Lemma parsed_nonempty line : (size (parse_monitor_line line) =? 0)%nat = false.
Proof.
  apply Nat.eqb_neq. intros H%map_size_empty_inv.
  pose proof (parsed_firmware line) as F. rewrite H in F. by rewrite lookup_empty in F.
Qed.

Lemma valid_observation_parsed line :
  valid_observation (parse_monitor_line line)
  = negb (String.eqb (firmware_of (parse_monitor_line line)) "")
    || negb (frequency_of (parse_monitor_line line) =? 0).
Proof.
  unfold valid_observation, firmware_of, frequency_of.
  rewrite parsed_nonempty, parsed_firmware. simpl.
  destruct (parsed_frequency line) as [->|[f ->]]; simpl.
  - by rewrite !orb_false_r.
  - apply orb_comm.
Qed.



Lemma split_comma_nonempty s : split_comma s <> [].
Proof. induction s as [|c s IH]; simpl; [done|]. destruct (Ascii.eqb c ","); [done|]. by destruct (split_comma s). Qed.

Lemma split_comma_single s :
  contains_char "," s = false -> length (split_comma s) = 1%nat.
Proof.
  induction s as [|c s IH]; [done|].
  cbn [contains_char split_comma].
  destruct (Ascii.eqb_spec c ",") as [->|Hne]; [done|].
  assert (Ascii.eqb "," c = false) as -> by (apply Ascii.eqb_neq; congruence).
  simpl. intros H. specialize (IH H).
  destruct (split_comma s) as [|h [|h' t]]; simpl in *; done.
Qed.

Lemma filled_has_comma line i :
  (1 <= i)%nat -> blank (fields line) i = false -> contains_char "," line = true.
Proof.
  intros Hi Hb. destruct (contains_char "," line) eqn:E; [done|].
  apply split_comma_single in E.
  unfold blank, fields in Hb. rewrite list_lookup_fmap in Hb.
  rewrite lookup_ge_None_2 in Hb by lia. done.
Qed.

Ltac attribute_cases H :=
  unfold attribute_positions in H;
  repeat (apply elem_of_cons in H as [H|H]; [injection H as -> ->|]);
  [..|by apply elem_of_nil in H].

(** Claim C10.  When an integer field of an ASCII line (frequency, BFO,
    volume, RSSI or SNR) is neither blank nor an integer literal of at
    most 4300 digits, so that [int] raises on it, the snapshot
    carries a [parse_error] text and has none of the attributes placed
    after that field, nor any derived attribute; and if its firmware
    version is not empty, the reader loop, reading that line on an open
    link, publishes this partial snapshot in place of the previous one. *)
Theorem parse_error_snapshot (line : string) (i : nat) :
  is_ascii line = true ->
  let parts := fields line in
  let out := parse_monitor_line line in
  i ∈ integer_positions ->
  blank parts i = false ->
  int_of_str (part parts i) = None ->
  (exists msg, out !! "parse_error" = Some (VStr msg))
  /\ (forall key j, (key, j) ∈ attribute_positions -> (i < j)%nat -> out !! key = None)
  /\ (forall key, key ∈ derived_attributes -> out !! key = None)
  /\ (firmware_of out <> "" ->
      forall raw g h, strip raw = line -> ser g = Some h -> is_open h = true ->
        monitor_parsed (monitor_reader_iteration (Data raw) g).1 = out
        /\ monitor_active (monitor_reader_iteration (Data raw) g).1 = true).
Proof.
  intros _ parts out Hi Hb Hn.
  assert (Hpos : (1 <= i)%nat) by (apply integer_position_cases in Hi; lia).
  split; [|split; [|split]].
  4: {
    intros Hfw raw g h Hraw Hser Hopen. unfold monitor_reader_iteration.
    rewrite Hser. unfold read_on. rewrite Hopen.
    pose proof (filled_has_comma line i Hpos Hb) as Hc.
    assert (Hl : String.eqb line "" = false) by (destruct line; [discriminate|done]).
    assert (Hr : String.eqb raw "" = false).
    { destruct raw; [|done]. subst line. done. }
    rewrite Hr, Hraw, Hl, Hc. fold out.
    assert (Hv : valid_observation out = true).
    { unfold out. rewrite valid_observation_parsed. fold out.
      by destruct (String.eqb_spec (firmware_of out) ""). }
    rewrite Hv. done. }
  all: subst out; unfold parse_monitor_line; fold (fields line); fold parts;
    rewrite parse_monitor_try_unfold; cbv zeta.
  all: apply integer_position_cases in Hi as [->|[->|[->|[->| ->]]]].
  all: destruct (unreadable_zero parts _ Hb Hn) as [e0 He0].
  all: destruct (unreadable_none parts _ Hb Hn) as [e1 He1].
  all: parser_cases parts; try congruence.
  all: lazymatch goal with
       | |- exists _, _ => eexists; reflexivity
       | |- forall key j, _ ∈ attribute_positions -> _ =>
           intros key j Hin Hlt; attribute_cases Hin; first [reflexivity | lia]
       | |- forall key, _ ∈ derived_attributes -> _ =>
           intros key Hin; unfold derived_attributes in Hin;
           repeat (apply elem_of_cons in Hin as [->|Hin]; [reflexivity|]);
           by apply elem_of_nil in Hin
       end.
Qed.

(** Claim C10 on a line whose frequency field is [72x0]: no BFO, no
    formatted frequency, and the reader publishes the snapshot over a good
    one. *)
Lemma parse_error_snapshot_witness :
  blank (fields "1.0.0,72x0,0,10,40m,USB") 1 = false
  /\ int_of_str (part (fields "1.0.0,72x0,0,10,40m,USB") 1) = None
  /\ parse_monitor_line "1.0.0,72x0,0,10,40m,USB" !! "currentBFO" = None
  /\ parse_monitor_line "1.0.0,72x0,0,10,40m,USB" !! "frequency" = None
  /\ monitor_parsed (monitor_reader_iteration (Data ("1.0.0,72x0,0,10,40m,USB" +:+ nl)) tuned).1
     = parse_monitor_line "1.0.0,72x0,0,10,40m,USB".
Proof.
  pose proof (parse_error_snapshot "1.0.0,72x0,0,10,40m,USB" 1 eq_refl
                ltac:(unfold integer_positions; rewrite !elem_of_cons; tauto)
                eq_refl eq_refl) as (_ & Hafter & Hderived & Hpub).
  split; [reflexivity|]. split; [reflexivity|].
  split; [apply (Hafter "currentBFO" 2%nat);
          [unfold attribute_positions; rewrite !elem_of_cons; tauto | lia]|].
  split; [apply Hderived; unfold derived_attributes; rewrite !elem_of_cons; tauto|].
  apply (Hpub ltac:(vm_compute; discriminate)
              ("1.0.0,72x0,0,10,40m,USB" +:+ nl) tuned usb0 eq_refl eq_refl eq_refl).
Defined.

(** *** The command channel *)

Lemma read_on_open h (script : list read_outcome) :
  is_open h = true -> read_on h <$> script = script.
Proof.
  intros H. induction script as [|r script IH]; [done|].
  rewrite fmap_cons, IH. unfold read_on. by rewrite H.
Qed.

Lemma on_handle_open h r : is_open h = true -> on_handle h r = r.
Proof. unfold on_handle. by intros ->. Qed.


Lemma collect_lines_returns wait_lines script lines :
  exists t ls, collect_lines wait_lines script lines = (t, Ok ls).
Proof.
  revert lines. induction script as [|[raw|e] script IH]; intros lines;
    cbn [collect_lines]; [by eexists _, _| |by eexists _, _].
  unfold after.
  repeat case_match; try (by eexists _, _);
    match goal with
    | |- context [collect_lines wait_lines script ?l] =>
        destruct (IH l) as (t & ls & ->); by eexists _, _
    end.
Qed.

Lemma send_serial_raw_open script cmd wait_lines g h :
  ser g = Some h -> is_open h = true -> accepts script = true ->
  send_serial_raw script cmd wait_lines g =
  with_lock serial_lock
    (after ResetInput (after (Write (cmd_out cmd)) (after Flush
       (collect_lines wait_lines (reads script) [])))).
Proof.
  intros Hs Ho Ha. unfold send_serial_raw. rewrite Hs.
  rewrite !on_handle_open, read_on_open by done.
  unfold accepts in Ha.
  destruct (reset_raises script), (write_raises script), (flush_raises script); try done.
  destruct (collect_lines_returns wait_lines (reads script) []) as (t & ls & ->).
  reflexivity.
Qed.



(** *** What is written for a command *)

Lemma ends_with_trailing s :
  ends_with_char LF s = negb (trailing_newlines s =? 0)%nat.
Proof.
  induction s as [|c s IH]; [done|].
  cbn [ends_with_char trailing_newlines].
  destruct s as [|d s'].
  - cbn [trailing_newlines String.length Nat.eqb]. rewrite andb_true_r.
    rewrite (Ascii.eqb_sym LF c). by destruct (Ascii.eqb c LF).
  - rewrite IH. set (t := trailing_newlines (String d s')).
    destruct (Ascii.eqb c LF && (t =? String.length (String d s'))%nat) eqn:E; [|done].
    apply andb_true_iff in E as [_ E%Nat.eqb_eq]. rewrite E. done.
Qed.

Lemma length_append s t : String.length (s +:+ t) = (String.length s + String.length t)%nat.
Proof. induction s as [|c s IH]; simpl; [done|]. by rewrite IH. Qed.

Lemma trailing_le_length s : (trailing_newlines s <= String.length s)%nat.
Proof.
  induction s as [|c s IH]; simpl; [lia|].
  destruct (Ascii.eqb c LF && _); lia.
Qed.

Lemma trailing_append_nl s : trailing_newlines (s +:+ nl) = S (trailing_newlines s).
Proof.
  induction s as [|c s IH]; [done|].
  change (String c s +:+ nl) with (String c (s +:+ nl)).
  cbn [trailing_newlines]. rewrite IH, length_append. simpl (String.length nl).
  replace (S (trailing_newlines s) =? String.length s + 1)%nat
    with (trailing_newlines s =? String.length s)%nat.
  - by destruct (Ascii.eqb c LF && _).
  - destruct (Nat.eqb_spec (trailing_newlines s) (String.length s));
      symmetry; [apply Nat.eqb_eq|apply Nat.eqb_neq]; lia.
Qed.

Lemma append_empty_r s : s +:+ "" = s.
Proof.
  induction s as [|c s IH]; [done|].
  change (String c (s +:+ "") = String c s). by rewrite IH.
Qed.

Lemma writes_collect wait_lines script lines :
  writes (collect_lines wait_lines script lines).1 = [].
Proof.
  revert lines. induction script as [|[raw|e] script IH]; intros lines;
    cbn [collect_lines]; [done| |done].
  unfold after. cbn [fst writes omap list_omap].
  repeat case_match; try done; apply IH.
Qed.

(** Claim C8, as amended.  What [send_serial_raw] writes for a command is
    the command itself when it ends with a line terminator, and the
    command followed by one terminator otherwise; so the text written
    ends with as many terminators as the command, and with one when the
    command has none. *)
Theorem command_written (script : io_script) (cmd : string) (wait_lines : Z)
    (g : globals) (h : handle) :
  ser g = Some h -> is_open h = true -> reset_raises script = None ->
  let written := cmd +:+ (if (trailing_newlines cmd =? 0)%nat then nl else "") in
  writes (send_serial_raw script cmd wait_lines g).1 = [written]
  /\ trailing_newlines written = Nat.max 1 (trailing_newlines cmd).
Proof.
  intros Hs Ho Hr written.
  assert (Hw : cmd_out cmd = written).
  { unfold cmd_out, written. rewrite ends_with_trailing, negb_involutive.
    destruct (trailing_newlines cmd =? 0)%nat; [done|].
    by rewrite append_empty_r. }
  split.
  - unfold send_serial_raw. rewrite Hs, !on_handle_open, read_on_open, Hr, Hw by done.
    unfold with_lock, perform. cbn [mbind io_bind].
    destruct (write_raises script); [done|].
    destruct (flush_raises script); [done|].
    pose proof (writes_collect wait_lines (reads script) []) as W.
    destruct (collect_lines wait_lines (reads script) []) as [t r].
    cbn [fst] in W. cbn. unfold writes in *.
    rewrite omap_app, W. done.
  - unfold written. destruct (Nat.eqb_spec (trailing_newlines cmd) 0) as [E|E].
    + rewrite trailing_append_nl, E. done.
    + rewrite append_empty_r. lia.
Qed.

(** Claim C8, the amended statement for the toggle command [t]. *)
Lemma command_written_witness :
  writes (send_serial_raw quiet "t" 1 linked).1 = ["t" +:+ nl]
  /\ trailing_newlines ("t" +:+ nl) = 1%nat.
Proof.
  exact (command_written quiet "t" 1 linked usb0
           eq_refl eq_refl eq_refl).
Defined.

(** Claim C8 as stated fails for a command that ends with two line
    terminators: it is written unchanged, ending with two. *)
Lemma doubled_terminator_kept :
  writes (send_serial_raw quiet ("t" +:+ nl +:+ nl) 1 linked).1 = ["t" +:+ nl +:+ nl]
  /\ trailing_newlines ("t" +:+ nl +:+ nl) = 2%nat.
Proof. vm_compute. split; reflexivity. Qed.

(** The command route removes every terminator first, so what it sends
    ends with exactly one. *)
Lemma remove_char_trailing s : trailing_newlines (remove_char LF s) = 0%nat.
Proof.
  induction s as [|c s IH]; [done|]. cbn [remove_char].
  destruct (Ascii.eqb_spec LF c) as [Heq|Hne]; [exact IH|].
  cbn [trailing_newlines]. rewrite IH.
  assert (Ascii.eqb c LF = false) as -> by (apply Ascii.eqb_neq; congruence). done.
Qed.

(** Extra X14.  The command route writes its command with every CR and LF
    removed and one line terminator added: what it sends always ends
    with exactly one. *)
Lemma api_command_one_terminator (script : io_script) (cmd : string) (g : globals)
    (h : handle) :
  ser g = Some h -> is_open h = true -> reset_raises script = None ->
  exists written,
    writes (api_command script cmd g).1 = [written]
    /\ trailing_newlines written = 1%nat
    /\ written = remove_char LF (remove_char CR cmd) +:+ nl.
Proof.
  intros Hs Ho Hr. unfold api_command.
  set (c := remove_char LF (remove_char CR cmd)).
  assert (Ht : trailing_newlines c = 0%nat) by apply remove_char_trailing.
  exists (c +:+ nl). split; [|split; [by rewrite trailing_append_nl, Ht|done]].
  assert (W : writes (send_serial_raw script c 4 g).1 = [c +:+ nl]).
  { unfold send_serial_raw. rewrite Hs, !on_handle_open, read_on_open, Hr by done.
    assert (cmd_out c = c +:+ nl) as ->.
    { unfold cmd_out. by rewrite ends_with_trailing, Ht. }
    unfold with_lock, perform. cbn [mbind io_bind].
    destruct (write_raises script); [done|].
    destruct (flush_raises script); [done|].
    pose proof (writes_collect 4 (reads script) []) as W.
    destruct (collect_lines 4 (reads script) []) as [t r].
    cbn [fst] in W. cbn. unfold writes in *. rewrite omap_app, W. done. }
  destruct (send_serial_raw script c 4 g) as [t [lines|e]]; exact W.
Qed.

(** Extra X14 for a command that came with two line terminators. *)
Lemma api_command_one_terminator_witness :
  exists written,
    writes (api_command quiet ("t" +:+ nl +:+ nl) linked).1 = [written]
    /\ trailing_newlines written = 1%nat
    /\ written = remove_char LF (remove_char CR ("t" +:+ nl +:+ nl)) +:+ nl.
Proof.
  exact (api_command_one_terminator quiet ("t" +:+ nl +:+ nl) linked usb0
           eq_refl eq_refl eq_refl).
Defined.

(** *** The screenshot transfer *)

Lemma join_empty_app a b :
  String.length (join "" (a ++ b))
  = (String.length (join "" a) + String.length (join "" b))%nat.
Proof.
  induction a as [|p a IH]; [done|].
  assert (J : forall l, String.length (join "" (p :: l))
                        = (String.length p + String.length (join "" l))%nat).
  { intros [|q l]; cbn [join]; [simpl; lia|]. by rewrite !length_append. }
  rewrite <- app_comm_cons, !J, IH. lia.
Qed.


Lemma pairs_ind (P : string -> Prop) :
  P "" -> (forall c, P (String c "")) ->
  (forall c d s, P s -> P (String c (String d s))) ->
  forall s, P s.
Proof.
  intros P0 P1 P2 s.
  assert (H : P s /\ forall c, P (String c s)); [|by destruct H].
  induction s as [|d s [IH1 IH2]]; [by split|].
  split; [apply IH2|]. intros c. by apply P2.
Qed.







(** The example of the specification: the stream
    [48656C6C6F] decodes to the five bytes of [Hello]. *)
Lemma hello_decoded : screenshot_main ["48656C6C6F"] = Saved OUTPUT_FILE "Hello".
Proof. vm_compute. reflexivity. Qed.

(** *** Opening the link *)


(** Claim C6.  When the first attempt to open the resolved port fails:
    at the default baud rate the port is tried exactly once more, at the
    fallback rate, and if that succeeds the result and the stored handle
    are open at the fallback rate; at any other baud rate there is no
    second attempt and the first failure is raised. *)
Theorem baud_fallback (env : link_env) (port : option string) (baud : Z)
    (g : globals) (p : string) (e : exn) :
  resolved_port env port = Some p ->
  open_raises env p baud = Some e ->
  let g' := (open_serial env port baud g).1 in
  let t := (open_serial env port baud g).2.1 in
  let r := (open_serial env port baud g).2.2 in
  if baud =? DEFAULT_BAUD then
    open_attempts t = [DEFAULT_BAUD; FALLBACK_BAUD]
    /\ match open_raises env p FALLBACK_BAUD with
       | None => r = Ok (Handle p FALLBACK_BAUD true)
                 /\ ser g' = Some (Handle p FALLBACK_BAUD true)
       | Some e2 => exists e', r = Err e'
       end
  else open_attempts t = [baud] /\ r = Err e.
Proof.
  intros Hp He. cbv zeta. unfold open_serial.
  unfold resolved_port in Hp.
  destruct (ser g) as [h|]; rewrite Hp, He.
  - destruct (Z.eqb_spec baud DEFAULT_BAUD) as [->|Hb].
    + destruct (open_raises env p FALLBACK_BAUD); split; try done; eauto.
    + done.
  - destruct (Z.eqb_spec baud DEFAULT_BAUD) as [->|Hb].
    + destruct (open_raises env p FALLBACK_BAUD); split; try done; eauto.
    + done.
Qed.

(** Claim C6 on a host whose port opens at 9600 baud only. *)
Lemma baud_fallback_witness :
  open_attempts (open_serial slow_only None DEFAULT_BAUD initial_globals).2.1
    = [DEFAULT_BAUD; FALLBACK_BAUD]
  /\ (open_serial slow_only None DEFAULT_BAUD initial_globals).2.2
     = Ok (Handle "/dev/ttyUSB0" FALLBACK_BAUD true)
  /\ ser (open_serial slow_only None DEFAULT_BAUD initial_globals).1
     = Some (Handle "/dev/ttyUSB0" FALLBACK_BAUD true).
Proof.
  exact (baud_fallback slow_only None DEFAULT_BAUD initial_globals "/dev/ttyUSB0"
           (Raise SerialException "could not configure port") eq_refl eq_refl).
Defined.

(** Claim C9.  With a handle already stored, when closing it does not
    raise and every attempt to open fails, [open_serial] raises and the
    global still holds the old handle, now closed; a later
    [send_serial_raw] then passes the test for a missing link and fails
    on the first device operation with pySerial's error for a closed
    port, not with [Serial port not opened]. *)
Theorem failed_reopen_keeps_closed_handle (env : link_env) (port : option string)
    (baud : Z) (g : globals) (h : handle) :
  ser g = Some h ->
  close_raises env = false ->
  (forall p b, is_Some (open_raises env p b)) ->
  let g' := (open_serial env port baud g).1 in
  (exists e, (open_serial env port baud g).2.2 = Err e)
  /\ ser g' = Some (closed h)
  /\ is_open (closed h) = false
  /\ forall script cmd wait_lines,
       send_serial_raw script cmd wait_lines g'
       = ([Acquire serial_lock; ResetInput; Release serial_lock], Err port_not_open).
Proof.
  intros Hs Hc Hopen. cbv zeta.
  assert (Hg : ser (open_serial env port baud g).1 = Some (closed h)
               /\ exists e, (open_serial env port baud g).2.2 = Err e).
  { unfold open_serial. rewrite Hs, Hc.
    destruct (match port with Some p => Some p | None => _ end) as [p|]; [|eauto].
    destruct (Hopen p baud) as [e ->].
    destruct (baud =? DEFAULT_BAUD); [|eauto].
    destruct (Hopen p FALLBACK_BAUD) as [e2 ->]. eauto. }
  destruct Hg as [Hg He]. repeat split; [done..|].
  intros script cmd wait_lines. unfold send_serial_raw. rewrite Hg. reflexivity.
Qed.

(** Claim C9 on a host whose device is gone. *)
Lemma failed_reopen_keeps_closed_handle_witness :
  ser (open_serial dead_port (Some "/dev/ttyUSB0") DEFAULT_BAUD linked).1
    = Some (Handle "/dev/ttyUSB0" 9600 false)
  /\ send_serial_raw quiet "t" 1
       (open_serial dead_port (Some "/dev/ttyUSB0") DEFAULT_BAUD linked).1
     = ([Acquire serial_lock; ResetInput; Release serial_lock], Err port_not_open).
Proof.
  pose proof (failed_reopen_keeps_closed_handle dead_port (Some "/dev/ttyUSB0")
                DEFAULT_BAUD linked usb0 eq_refl eq_refl
                (fun _ _ => ex_intro _ _ eq_refl)) as (_ & H1 & _ & H2).
  exact (conj H1 (H2 quiet "t" 1)).
Defined.

(** *** Lock discipline *)

Lemma guarded_collect wait_lines script lines t :
  guarded_from true ((collect_lines wait_lines script lines).1 ++ t) = guarded_from true t.
Proof.
  revert lines. induction script as [|[raw|e] script IH]; intros lines;
    cbn [collect_lines]; [done| |done].
  unfold after. cbn [fst app guarded_from wire_operation orb andb].
  repeat case_match; try done; apply IH.
Qed.

(** Extra X13.  Every operation of the command channel on the wire
    happens while it holds [serial_lock], whatever the device does. *)
Lemma send_serial_raw_guarded script cmd wait_lines g :
  guarded (send_serial_raw script cmd wait_lines g).1 = true.
Proof.
  unfold send_serial_raw. destruct (ser g) as [h|]; [|done].
  unfold with_lock, perform. cbn [mbind io_bind].
  destruct (on_handle h (reset_raises script)); [done|].
  destruct (on_handle h (write_raises script)); [done|].
  destruct (on_handle h (flush_raises script)); [done|].
  pose proof (guarded_collect wait_lines (read_on h <$> reads script) []
                [Release serial_lock]) as G.
  destruct (collect_lines _ _ _) as [t r]. cbn [fst] in G. cbn. exact G.
Qed.

(** The reads of the screenshot route come after the lock is released:
    with an open link that accepts the trigger and at least one read,
    its trace breaks the discipline. *)
Lemma api_screenshot_unguarded trigger r script g h :
  ser g = Some h -> is_open h = true -> accepts trigger = true ->
  guarded (api_screenshot trigger (r :: script) g).1 = false.
Proof.
  intros Hs Ho Ha. unfold api_screenshot.
  rewrite (send_serial_raw_open trigger "C" 1 g h Hs Ho Ha), Hs.
  pose proof (guarded_collect 1 (reads trigger) []) as G.
  destruct (collect_lines 1 (reads trigger) []) as [t ls] eqn:Ec.
  destruct (collect_lines_returns 1 (reads trigger) []) as (t1 & ls1 & E1).
  rewrite Ec in E1. injection E1 as -> ->. cbn [fst] in G.
  rewrite fmap_cons.
  assert (Hacc : exists t2 r2, accumulate_hex (read_on h r :: (read_on h <$> script)) []
                               = (Readline :: t2, r2)).
  { cbn [accumulate_hex]. unfold after. destruct (read_on h r); repeat case_match; eauto. }
  destruct Hacc as (t2 & r2 & ->).
  unfold with_lock, after. cbn [mbind io_bind fst snd].
  assert (Hg : guarded ((Acquire serial_lock :: (ResetInput :: Write (cmd_out "C")
                 :: Flush :: t1) ++ [Release serial_lock]) ++ Readline :: t2) = false).
  { rewrite <- app_comm_cons, <- app_assoc.
    unfold guarded. cbn [guarded_from app wire_operation orb andb negb].
    rewrite (G (Release serial_lock :: Readline :: t2)). done. }
  destruct r2; exact Hg.
Qed.

(** Claim C7 fails on the code: the trace of the screenshot route for a
    stream of three reads releases [serial_lock] after the trigger
    command and then reads the link three times without holding it, while
    the command channel and the reader loop keep to the lock. *)
Lemma screenshot_read_outside_lock :
  (api_screenshot quiet hello_stream linked).1
  = [Acquire serial_lock; ResetInput; Write ("C" +:+ nl); Flush; Release serial_lock;
     Readline; Readline; Readline]
  /\ guarded (api_screenshot quiet hello_stream linked).1 = false
  /\ guarded (send_serial_raw quiet "C" 1 linked).1 = true
  /\ guarded (monitor_reader_iteration (Data "48656C") linked).2 = true.
Proof. vm_compute. repeat split. Qed.

(** * Further properties *)

(** ** Texts: splitting, trimming and integers *)

Lemma join_cons_char sep c h t : join sep (String c h :: t) = String c (join sep (h :: t)).
Proof. by destruct t. Qed.

Lemma join_split s : join "," (split_comma s) = s.
Proof.
  induction s as [|c r IH]; [done|].
  cbn [split_comma]. destruct (Ascii.eqb_spec c ",") as [E|E].
  - subst c. destruct (split_comma r) as [|h t] eqn:S.
    + by destruct (split_comma_nonempty r).
    + cbn [join]. by rewrite <- IH.
  - destruct (split_comma r) as [|h t] eqn:S.
    + by destruct (split_comma_nonempty r).
    + rewrite join_cons_char. by rewrite IH.
Qed.

Lemma split_comma_length s : length (split_comma s) = S (count_char "," s).
Proof.
  induction s as [|c r IH]; [done|].
  cbn [split_comma count_char]. rewrite (Ascii.eqb_sym "," c).
  destruct (Ascii.eqb c ","); cbn [length].
  - by rewrite IH.
  - destruct (split_comma r); [done|]. cbn [length] in *. lia.
Qed.

Lemma split_comma_plain p : contains_char "," p = false -> split_comma p = [p].
Proof.
  induction p as [|c r IH]; [done|]. cbn [contains_char split_comma].
  rewrite (Ascii.eqb_sym "," c). destruct (Ascii.eqb c ","); [done|].
  intros H. by rewrite (IH H).
Qed.

Lemma split_comma_app p rest :
  contains_char "," p = false ->
  split_comma (p +:+ String "," rest) = p :: split_comma rest.
Proof.
  induction p as [|c r IH]; [done|]. cbn [contains_char].
  rewrite (Ascii.eqb_sym "," c). intros H.
  change (String c r +:+ String "," rest) with (String c (r +:+ String "," rest)).
  cbn [split_comma]. destruct (Ascii.eqb c ","); [done|].
  by rewrite (IH H).
Qed.

Lemma split_join l :
  l <> [] -> Forall (fun p => contains_char "," p = false) l ->
  split_comma (join "," l) = l.
Proof.
  intros Hl H. induction H as [|p l Hp H IH]; [done|].
  destruct l as [|q l].
  - cbn [join]. by apply split_comma_plain.
  - change (join "," (p :: q :: l)) with (p +:+ "," +:+ join "," (q :: l)).
    change ("," +:+ join "," (q :: l)) with (String "," (join "," (q :: l))).
    rewrite split_comma_app by done. by rewrite IH.
Qed.

Lemma lstrip_head s :
  match lstrip s with EmptyString => True | String c _ => is_space c = false end.
Proof.
  induction s as [|c r IH]; [done|]. cbn [lstrip].
  destruct (is_space c) eqn:E; [exact IH|exact E].
Qed.

Lemma lstrip_fixed c r : is_space c = false -> lstrip (String c r) = String c r.
Proof. intros H. cbn [lstrip]. by rewrite H. Qed.

Lemma rstrip_head c r :
  is_space c = false -> exists r', rstrip (String c r) = String c r'.
Proof.
  intros H. cbn [rstrip]. destruct (rstrip r); rewrite ?H; eauto.
Qed.

Lemma rstrip_cons c r :
  rstrip (String c r)
  = match rstrip r with
    | EmptyString => if is_space c then EmptyString else String c EmptyString
    | r' => String c r'
    end.
Proof. reflexivity. Qed.

Lemma rstrip_idem s : rstrip (rstrip s) = rstrip s.
Proof.
  induction s as [|c r IH]; [done|]. rewrite rstrip_cons.
  destruct (rstrip r) as [|d r'] eqn:E.
  - destruct (is_space c) eqn:Hc; [done|]. rewrite rstrip_cons. cbn [rstrip]. by rewrite Hc.
  - rewrite rstrip_cons, IH. done.
Qed.

Lemma strip_idem s : strip (strip s) = strip s.
Proof.
  unfold strip. pose proof (lstrip_head s) as H.
  destruct (lstrip s) as [|c r] eqn:E; [done|].
  destruct (rstrip_head c r H) as [r' Hr]. rewrite Hr.
  rewrite (lstrip_fixed c r' H). rewrite <- Hr. apply rstrip_idem.
Qed.

Lemma rstrip_no_space s : no_space s = true -> rstrip s = s.
Proof.
  induction s as [|c r IH]; [done|]. cbn [no_space rstrip].
  intros [Hc Hr]%andb_prop. rewrite (IH Hr).
  destruct r; [|done]. by destruct (is_space c).
Qed.

Lemma strip_no_space s : no_space s = true -> strip s = s.
Proof.
  intros H. unfold strip. destruct s as [|c r]; [done|].
  pose proof H as H'. cbn [no_space] in H'. apply andb_prop in H' as [Hc _].
  apply negb_true_iff in Hc. rewrite (lstrip_fixed c r Hc).
  by apply rstrip_no_space.
Qed.

Lemma int_digits_step acc seen c r :
  is_digit c = true ->
  int_digits acc seen (String c r) = int_digits (acc * 10 + digit_value c) true r.
Proof. intros H. cbn [int_digits]. by rewrite H. Qed.

Lemma int_digits_uint_acc d acc :
  int_digits (Zpos acc) true (NilEmpty.string_of_uint d)
  = Some (Zpos (Pos.of_uint_acc d acc)).
Proof.
  revert acc. induction d; intros acc; cbn [NilEmpty.string_of_uint Pos.of_uint_acc];
    [done|..];
    (rewrite int_digits_step by done);
    match goal with
    | |- int_digits ?z _ _ = Some (Zpos (Pos.of_uint_acc _ ?p)) =>
        replace z with (Zpos p) by (vm_compute digit_value; lia)
    end; apply IHd.
Qed.

Lemma int_digits_uint d seen :
  seen = true \/ d <> Decimal.Nil ->
  int_digits 0 seen (NilEmpty.string_of_uint d) = Some (Z.of_N (Pos.of_uint d)).
Proof.
  revert seen. induction d; intros seen H;
    cbn [NilEmpty.string_of_uint Pos.of_uint];
    [by destruct H as [->|H]
    |rewrite int_digits_step by done; apply IHd; by left
    |rewrite int_digits_step by done;
     match goal with
     | |- int_digits ?z _ _ = Some (Z.of_N (N.pos (Pos.of_uint_acc _ ?p))) =>
         change z with (Zpos p)
     end; apply int_digits_uint_acc ..].
Qed.

Lemma int_digits_str_of_nat n :
  0 <= n -> int_digits 0 false (str_of_nat_Z n) = Some n.
Proof.
  intros Hn. unfold str_of_nat_Z, NilZero.string_of_uint.
  pose proof (DecimalN.Unsigned.of_to (Z.to_N n)) as E. unfold N.of_uint in E.
  destruct (N.to_uint (Z.to_N n)) eqn:D;
    [cbn in E; vm_compute; f_equal; lia
    |rewrite int_digits_uint by (by right); rewrite E; f_equal; lia ..].
Qed.

Lemma str_of_nat_no_space n : no_space (str_of_nat_Z n) = true.
Proof.
  unfold str_of_nat_Z, NilZero.string_of_uint.
  assert (G : forall d, no_space (NilEmpty.string_of_uint d) = true)
    by (induction d; cbn; done).
  destruct (N.to_uint (Z.to_N n)); [done|apply G ..].
Qed.

Lemma str_of_nat_digit n :
  exists c r, str_of_nat_Z n = String c r /\ is_digit c = true.
Proof.
  unfold str_of_nat_Z, NilZero.string_of_uint.
  destruct (N.to_uint (Z.to_N n)); cbn [NilEmpty.string_of_uint]; eauto.
Qed.

Lemma unsigned_literal {T} c r (A B C : string -> T) :
  is_digit c = true ->
  match String c r with
  | String "-" t => A t
  | String "+" t => B t
  | t => C t
  end = C (String c r).
Proof.
  destruct c as [[] [] [] [] [] [] [] []]; done.
Qed.

Lemma c_space_blank c : is_space c = false -> is_c_space c = false.
Proof.
  unfold is_space, is_c_space.
  destruct (_ && _); [done|]. cbn [orb]. intros H.
  destruct (Z.eqb_spec (code c) 32) as [E|]; [|done].
  rewrite E in H. done.
Qed.

Lemma c_strip_no_space s : no_space s = true -> c_strip s = s.
Proof.
  intros H. unfold c_strip.
  assert (R : forall t, no_space t = true -> c_rstrip t = t).
  { induction t as [|c r IH]; [done|]. cbn [no_space c_rstrip].
    intros [Hc Hr]%andb_prop. rewrite (IH Hr).
    apply negb_true_iff, c_space_blank in Hc.
    destruct r; [|done]. by rewrite Hc. }
  destruct s as [|c r]; [done|].
  pose proof H as H'. cbn [no_space] in H'. apply andb_prop in H' as [Hc _].
  apply negb_true_iff, c_space_blank in Hc.
  cbn [c_lstrip]. rewrite Hc. by apply R.
Qed.

Lemma digit_count_le s : 0 <= digit_count s <= Z.of_nat (String.length s).
Proof.
  induction s as [|c r IH]; [done|]. cbn [digit_count String.length].
  destruct (is_digit c); lia.
Qed.

Lemma int_body_str_of_nat n :
  0 <= n -> Z.of_nat (String.length (str_of_nat_Z n)) <= MAX_STR_DIGITS ->
  exists digits, int_body (str_of_nat_Z n) = Some (n, digits)
                 /\ (MAX_STR_DIGITS <? digits) = false.
Proof.
  intros Hn Hl. unfold int_body. rewrite int_digits_str_of_nat by done.
  eexists. split; [reflexivity|]. apply Z.ltb_ge.
  pose proof (digit_count_le (str_of_nat_Z n)). lia.
Qed.

(** The decimal text of an integer within the digit limit reads back as
    the integer. *)
Lemma int_of_str_of_int n :
  within_digit_limit n = true -> int_of_str (str_of_int n) = Some n.
Proof.
  unfold within_digit_limit. intros L%Z.leb_le.
  unfold int_of_str, int_syntax, str_of_int. destruct (Z.ltb_spec n 0) as [H|H].
  - rewrite c_strip_no_space by (cbn [no_space]; by rewrite str_of_nat_no_space).
    replace (Z.abs n) with (- n) in L by lia.
    destruct (int_body_str_of_nat (- n) ltac:(lia) L) as (digits & -> & E).
    cbn. rewrite E. f_equal. lia.
  - rewrite c_strip_no_space by apply str_of_nat_no_space.
    replace (Z.abs n) with n in L by lia.
    destruct (int_body_str_of_nat n H L) as (digits & G & E).
    destruct (str_of_nat_digit n) as (c & r & Es & Hc). rewrite Es in *.
    rewrite (unsigned_literal c r
               (fun t => (fun p : Z * Z => (- p.1, p.2)) <$> int_body t)
               int_body int_body Hc), G, E.
    done.
Qed.

Lemma str_of_nat_all_digits n : all_digits (str_of_nat_Z n) = true.
Proof.
  unfold str_of_nat_Z, NilZero.string_of_uint.
  assert (G : forall d, all_digits (NilEmpty.string_of_uint d) = true)
    by (induction d; cbn; done).
  destruct (N.to_uint (Z.to_N n)); [done|apply G ..].
Qed.

Lemma digit_not_comma c : is_digit c = true -> Ascii.eqb "," c = false.
Proof. destruct c as [[] [] [] [] [] [] [] []]; done. Qed.

Lemma all_digits_no_comma s : all_digits s = true -> contains_char "," s = false.
Proof.
  induction s as [|c r IH]; [done|]. cbn [all_digits contains_char].
  intros [Hc Hr]%andb_prop. by rewrite (digit_not_comma c Hc), (IH Hr).
Qed.

Lemma str_of_int_no_comma n : contains_char "," (str_of_int n) = false.
Proof.
  unfold str_of_int. destruct (n <? 0).
  - cbn [contains_char]. apply all_digits_no_comma, str_of_nat_all_digits.
  - apply all_digits_no_comma, str_of_nat_all_digits.
Qed.

Lemma str_of_int_strip n : strip (str_of_int n) = str_of_int n.
Proof.
  apply strip_no_space. unfold str_of_int. destruct (n <? 0).
  - cbn [no_space]. apply str_of_nat_no_space.
  - apply str_of_nat_no_space.
Qed.

Lemma str_of_int_filled n : String.eqb (str_of_int n) "" = false.
Proof.
  unfold str_of_int. destruct (n <? 0); [done|].
  by destruct (str_of_nat_digit n) as (c & r & -> & _).
Qed.

Lemma py_int_str_of_int n :
  within_digit_limit n = true -> py_int_str (str_of_int n) = Ok n.
Proof. intros H. by apply py_int_str_ok, int_of_str_of_int. Qed.

Lemma append_assoc a b c : (a +:+ b) +:+ c = a +:+ b +:+ c.
Proof.
  induction a as [|x a IH]; [done|].
  change (String x ((a +:+ b) +:+ c) = String x (a +:+ b +:+ c)). by rewrite IH.
Qed.

(** ** The telemetry parser, field by field *)

(** Extra X1.  A line has one field more than it has commas; the parser
    records that number as [raw_parts_count] for every line, whether or
    not the rest of the line can be read; and joining the fields of
    [split] with commas gives the line back. *)
Theorem line_fields_count (line : string) :
  length (fields line) = S (count_char "," line)
  /\ parse_monitor_line line !! "raw_parts_count"
     = Some (VInt (1 + Z.of_nat (count_char "," line)))
  /\ join "," (split_comma line) = line.
Proof.
  assert (L : length (fields line) = S (count_char "," line))
    by (unfold fields; by rewrite length_fmap, split_comma_length).
  split; [exact L|]. split; [|apply join_split].
  unfold parse_monitor_line. fold (fields line).
  rewrite parse_monitor_try_unfold. cbv zeta. rewrite L.
  replace (Z.of_nat (S (count_char "," line))) with (1 + Z.of_nat (count_char "," line))
    by lia.
  parser_cases (fields line); reflexivity.
Qed.

Lemma plain_parts s : plain s = true -> contains_char "," s = false /\ strip s = s.
Proof.
  unfold plain. intros [H1 H2]%andb_prop. split.
  - by apply negb_true_iff.
  - by apply String.eqb_eq.
Qed.

Lemma telemetry_fields_parsed t :
  forallb plain (text_fields t) = true ->
  fields (telemetry_line t) = telemetry_fields t.
Proof.
  intros H. unfold text_fields in H. cbn [forallb] in H.
  repeat (apply andb_prop in H as [?%plain_parts H]).
  repeat match goal with H : _ /\ _ |- _ => destruct H end.
  unfold fields, telemetry_line.
  rewrite split_join.
  - unfold telemetry_fields. cbn [fmap list_fmap].
    rewrite !str_of_int_strip. by repeat f_equal.
  - done.
  - unfold telemetry_fields. repeat constructor; first [done | apply str_of_int_no_comma].
Qed.

(** Extra X2.  Writing a receiver state as a telemetry line and parsing
    the line gives the state back: for every state whose text fields are
    ASCII, with no comma and no blank at either end, and whose five
    integers (frequency, BFO, volume, RSSI, SNR) have at most 4300
    digits, the line made of its fifteen fields, the numbers in decimal,
    parses to the snapshot with
    exactly these values, the frequency text of [format_frequency] on the
    raw frequency, BFO and mode, the RSSI and SNR texts with their units,
    the voltage converted from the ADC text, and no [parse_error]. *)
Theorem telemetry_round_trip (t : telemetry) :
  forallb plain (text_fields t) = true ->
  forallb is_ascii (text_fields t) = true ->
  forallb within_digit_limit (integer_fields t) = true ->
  parse_monitor_line (telemetry_line t) = snapshot_of t.
Proof.
  intros H _ L. unfold integer_fields in L. cbn [forallb] in L.
  repeat (apply andb_prop in L as [? L]).
  unfold parse_monitor_line. fold (fields (telemetry_line t)).
  rewrite (telemetry_fields_parsed t H), parse_monitor_try_unfold. cbv zeta.
  unfold int_field_or_zero, int_field_or_none, filled, has_part, telemetry_fields.
  cbn [length part nth]. rewrite !bool_decide_eq_true_2 by lia.
  rewrite !str_of_int_filled. cbn [negb andb].
  rewrite !py_int_str_of_int by done. cbn [fmap result_fmap].
  unfold text_field, has_part. cbn [length part nth].
  rewrite !bool_decide_eq_true_2 by lia.
  reflexivity.
Qed.

(** Extra X2 on the state of the specification's example line. *)
Lemma telemetry_round_trip_witness :
  telemetry_line tuned_40m = example_line
  /\ parse_monitor_line (telemetry_line tuned_40m) = snapshot_of tuned_40m.
Proof.
  split; [reflexivity|].
  exact (telemetry_round_trip tuned_40m eq_refl eq_refl eq_refl).
Defined.

Lemma c_strip_length s : (String.length (c_strip s) <= String.length s)%nat.
Proof.
  assert (L : forall t, (String.length (c_lstrip t) <= String.length t)%nat).
  { induction t as [|c r IH]; [done|]. cbn [c_lstrip]. destruct (is_c_space c); cbn; lia. }
  assert (R : forall t, (String.length (c_rstrip t) <= String.length t)%nat).
  { induction t as [|c r IH]; [done|]. cbn [c_rstrip].
    destruct (c_rstrip r); [destruct (is_c_space c)|]; cbn in *; lia. }
  unfold c_strip. pose proof (L s). pose proof (R (c_lstrip s)). lia.
Qed.

Lemma int_body_digits r v d :
  int_body r = Some (v, d) -> d <= Z.of_nat (String.length r).
Proof.
  unfold int_body. destruct (int_digits 0 false r); [|done].
  intros [= _ <-]. apply digit_count_le.
Qed.

(** A literal has no more digits than the text has characters. *)
Lemma int_syntax_digits s v d :
  int_syntax s = Some (v, d) -> d <= Z.of_nat (String.length s).
Proof.
  unfold int_syntax. pose proof (c_strip_length s) as L.
  destruct (c_strip s) as [|c r]; [done|]. cbn [String.length] in L.
  assert (G : forall p, int_body r = Some p -> p.2 <= Z.of_nat (String.length s)).
  { intros [v' d'] B%int_body_digits. cbn [snd]. lia. }
  destruct c as [[] [] [] [] [] [] [] []];
    first
      [intros B%int_body_digits; cbn [String.length] in B; lia
      |intros B; exact (G _ B)
      |destruct (int_body r) as [p|] eqn:B; [|done];
       intros [= _ <-]; exact (G _ eq_refl)].
Qed.

(** On a field that is not too long, [int] raises for its syntax only. *)
Lemma py_int_str_short s :
  Z.of_nat (String.length s) <= MAX_STR_DIGITS ->
  match int_of_str s with
  | Some z => py_int_str s = Ok z
  | None => py_int_str s = Err (int_error s)
  end.
Proof.
  intros L. unfold int_of_str, py_int_str.
  destruct (int_syntax s) as [[v d]|] eqn:E; [|done].
  apply int_syntax_digits in E.
  replace (MAX_STR_DIGITS <? d) with false by (symmetry; apply Z.ltb_ge; lia).
  done.
Qed.

Lemma field_zero_cases parts i :
  short_field parts i = true ->
  if readable parts i
  then exists z, int_field_or_zero parts i = Ok z
  else int_field_or_zero parts i = Err (int_error (part parts i)).
Proof.
  unfold short_field. intros L%Z.leb_le. apply py_int_str_short in L.
  unfold readable, int_field_or_zero. rewrite filled_blank.
  destruct (blank parts i); simpl; [eauto|].
  destruct (int_of_str (part parts i)) eqn:E.
  - rewrite bool_decide_eq_true_2 by eauto. eauto.
  - rewrite bool_decide_eq_false_2 by (by intros [? ?]). done.
Qed.

Lemma field_none_cases parts i :
  short_field parts i = true ->
  if readable parts i
  then exists v, int_field_or_none parts i = Ok v
  else int_field_or_none parts i = Err (int_error (part parts i)).
Proof.
  unfold short_field. intros L%Z.leb_le. apply py_int_str_short in L.
  unfold readable, int_field_or_none. rewrite filled_blank.
  destruct (blank parts i); simpl; [eauto|].
  destruct (int_of_str (part parts i)) eqn:E.
  - rewrite bool_decide_eq_true_2 by eauto. rewrite L. eauto.
  - rewrite bool_decide_eq_false_2 by (by intros [? ?]). by rewrite L.
Qed.

(** Extra X3.  For an ASCII line whose integer fields (frequency, BFO,
    volume, RSSI, SNR) have at most 4300 characters each, the snapshot
    has a [parse_error] exactly when one of these fields is neither
    missing, blank nor an integer literal, and its text is then what
    [int] raises on the first such field, in the order of the line:
    [invalid literal for int() with base 10: ] and the [repr] of the
    field, cut at 200 characters.  The voltage and the text fields never
    cause one. *)
Theorem parse_error_first_bad_field (line : string) :
  is_ascii line = true ->
  forallb (short_field (fields line)) integer_positions = true ->
  let parts := fields line in
  let out := parse_monitor_line line in
  match first_unreadable parts with
  | None => out !! "parse_error" = None
  | Some j => out !! "parse_error" = Some (VStr (exn_msg (int_error (part parts j))))
  end.
Proof.
  intros _ S parts out. subst out. fold parts in S.
  unfold integer_positions in S. cbn [forallb] in S.
  repeat (apply andb_prop in S as [? S]).
  unfold parse_monitor_line. fold (fields line). fold parts.
  rewrite parse_monitor_try_unfold. cbv zeta.
  unfold first_unreadable, integer_positions. cbn [List.find].
  pose proof (field_zero_cases parts 1 ltac:(done)) as F1.
  pose proof (field_zero_cases parts 2 ltac:(done)) as F2.
  pose proof (field_none_cases parts 9 ltac:(done)) as F9.
  pose proof (field_none_cases parts 10 ltac:(done)) as F10.
  pose proof (field_none_cases parts 11 ltac:(done)) as F11.
  destruct (readable parts 1); cbn [negb]; [destruct F1 as [f ->]|rewrite F1; reflexivity].
  destruct (readable parts 2); cbn [negb]; [destruct F2 as [b ->]|rewrite F2; reflexivity].
  destruct (readable parts 9); cbn [negb]; [destruct F9 as [v ->]|rewrite F9; reflexivity].
  destruct (readable parts 10); cbn [negb]; [destruct F10 as [r ->]|rewrite F10; reflexivity].
  destruct (readable parts 11); cbn [negb]; [destruct F11 as [s ->]|rewrite F11; reflexivity].
  reflexivity.
Qed.

(** Extra X3 on a line whose frequency and volume are no integers: the
    error is that of the frequency. *)
Lemma parse_error_first_bad_field_witness :
  first_unreadable (fields "1.0.0,72x0,0,10,40m,USB,3,2,1,loud") = Some 1%nat
  /\ parse_monitor_line "1.0.0,72x0,0,10,40m,USB,3,2,1,loud" !! "parse_error"
     = Some (VStr "invalid literal for int() with base 10: '72x0'").
Proof.
  split; [reflexivity|].
  exact (parse_error_first_bad_field "1.0.0,72x0,0,10,40m,USB,3,2,1,loud"
           eq_refl eq_refl).
Defined.

Lemma readable_all parts :
  first_unreadable parts = None ->
  forall j, j ∈ integer_positions -> readable parts j = true.
Proof.
  unfold first_unreadable. intros H j Hj.
  apply list_elem_of_In in Hj.
  pose proof (find_none _ _ H j Hj) as G. by apply negb_false_iff in G.
Qed.

Lemma field_zero_value parts i :
  readable parts i = true -> int_field_or_zero parts i = Ok (default 0 (int_at parts i)).
Proof.
  unfold readable, int_field_or_zero, int_at. rewrite filled_blank.
  destruct (blank parts i); simpl; [done|].
  intros [z Hz]%bool_decide_eq_true. by rewrite (py_int_str_ok _ _ Hz), Hz.
Qed.

Lemma field_none_value parts i :
  readable parts i = true -> int_field_or_none parts i = Ok (opt_int (int_at parts i)).
Proof.
  unfold readable, int_field_or_none, int_at. rewrite filled_blank.
  destruct (blank parts i); simpl; [done|].
  intros [z Hz]%bool_decide_eq_true. by rewrite (py_int_str_ok _ _ Hz), Hz.
Qed.

(** Extra X4.  When every integer field of an ASCII line is missing,
    blank or an integer literal of at most 4300 digits, the snapshot has
    exactly the nineteen attributes:
    the integer attributes hold the integers of their fields, or [0]
    (frequency, BFO) and [None] (volume, RSSI, SNR) for a field that is
    missing or blank, and each text attribute holds its field, trimmed,
    or the empty text when the line is too short. *)
Theorem complete_snapshot (line : string) :
  is_ascii line = true ->
  let parts := fields line in
  let out := parse_monitor_line line in
  first_unreadable parts = None ->
  dom out = list_to_set snapshot_keys
  /\ out !! "currentFrequency_raw" = Some (VInt (default 0 (int_at parts 1)))
  /\ out !! "currentBFO" = Some (VInt (default 0 (int_at parts 2)))
  /\ out !! "volume" = Some (opt_int (int_at parts 9))
  /\ out !! "rssi_raw" = Some (opt_int (int_at parts 10))
  /\ out !! "snr_raw" = Some (opt_int (int_at parts 11))
  /\ (forall key i, (key, i) ∈ attribute_positions ->
        i ∉ integer_positions -> i <> 13%nat ->
        out !! key = Some (VStr (text_field parts i))).
Proof.
  intros _ parts out H. pose proof (readable_all parts H) as R.
  subst out. unfold parse_monitor_line. fold (fields line). fold parts.
  rewrite parse_monitor_try_unfold. cbv zeta.
  rewrite (field_zero_value parts 1), (field_zero_value parts 2),
    (field_none_value parts 9), (field_none_value parts 10),
    (field_none_value parts 11) by (apply R; in_positions).
  split; [|repeat split; try reflexivity].
  - rewrite !dom_insert_L, dom_empty_L. unfold snapshot_keys. cbn.
    set_solver.
  - intros key i Hin Hi H13. unfold attribute_positions in Hin.
    repeat (apply elem_of_cons in Hin as [Hin|Hin];
            [injection Hin as -> ->; first [reflexivity | exfalso; apply Hi; in_positions | done]|]).
    by apply elem_of_nil in Hin.
Qed.

(** Extra X4 on a line of six fields whose BFO is blank. *)
Lemma complete_snapshot_witness :
  dom (parse_monitor_line "1.0.0,7200,,10,40m,AM") = list_to_set snapshot_keys
  /\ parse_monitor_line "1.0.0,7200,,10,40m,AM" !! "currentBFO" = Some (VInt 0).
Proof.
  pose proof (complete_snapshot "1.0.0,7200,,10,40m,AM" eq_refl eq_refl)
    as (D & _ & B & _).
  split; [exact D|exact B].
Defined.

(** Extra X5.  The derived attributes agree with the raw attributes of
    the same snapshot: without a [parse_error], [frequency] is
    [format_frequency] of the stored raw frequency, BFO and mode, and
    [rssi] and [snr] are the stored raw values with their units (empty
    when the raw value is [None]); with a [parse_error] the snapshot has
    no derived attribute at all. *)
Theorem derived_attributes_consistent (line : string) :
  let out := parse_monitor_line line in
  match out !! "parse_error" with
  | Some _ => forall key, key ∈ derived_attributes -> out !! key = None
  | None =>
      out !! "frequency"
      = Some (VStr (format_frequency (AInt (frequency_of out)) (AInt (bfo_of out))
                      (AStr (mode_of out))))
      /\ out !! "rssi" = Some (VStr (with_unit (default VNone (out !! "rssi_raw")) " dBuV"))
      /\ out !! "snr" = Some (VStr (with_unit (default VNone (out !! "snr_raw")) " dB"))
  end.
Proof.
  intros out. subst out. unfold parse_monitor_line. fold (fields line).
  rewrite parse_monitor_try_unfold. cbv zeta.
  parser_cases (fields line);
    [match goal with
     | |- match ?x with _ => _ end => change x with (@None pyval)
     end; repeat split; reflexivity
    |match goal with
     | |- match ?x with _ => _ end => change x with (Some (VStr (exn_msg e)))
     end; cbv beta iota;
     intros key Hk; unfold derived_attributes in Hk;
     repeat (apply elem_of_cons in Hk as [->|Hk]; [reflexivity|]);
     by apply elem_of_nil in Hk ..].
Qed.

Lemma split_comma_append a b :
  split_comma (a +:+ String "," b) = split_comma a ++ split_comma b.
Proof.
  induction a as [|c a IH]; [done|].
  change (String c a +:+ String "," b) with (String c (a +:+ String "," b)).
  cbn [split_comma]. rewrite IH.
  destruct (Ascii.eqb c ","); [done|].
  destruct (split_comma a) as [|h t] eqn:E; [by destruct (split_comma_nonempty a)|done].
Qed.

Lemma part_app parts more i :
  (i < length parts)%nat -> part (parts ++ more) i = part parts i.
Proof. intros H. unfold part. by rewrite app_nth1. Qed.

Lemma has_part_app parts more i :
  (i < length parts)%nat -> has_part (parts ++ more) i = has_part parts i.
Proof.
  intros H. unfold has_part. rewrite length_app.
  rewrite !bool_decide_eq_true_2 by lia. done.
Qed.

Lemma fields_app parts more i :
  (i < length parts)%nat ->
  text_field (parts ++ more) i = text_field parts i
  /\ filled (parts ++ more) i = filled parts i
  /\ int_field_or_zero (parts ++ more) i = int_field_or_zero parts i
  /\ int_field_or_none (parts ++ more) i = int_field_or_none parts i.
Proof.
  intros H. unfold text_field, int_field_or_zero, int_field_or_none, filled.
  by rewrite has_part_app, part_app.
Qed.

(** Extra X29.  Fields after the fifteenth are ignored: when a line has
    at least fifteen fields, appending a comma and any further text
    changes no attribute of its snapshot other than [raw_parts_count]
    (and adds no [parse_error]). *)
Theorem later_fields_ignored (line extra key : string) :
  (15 <= length (fields line))%nat ->
  key <> "raw_parts_count" ->
  parse_monitor_line (line +:+ "," +:+ extra) !! key = parse_monitor_line line !! key.
Proof.
  intros Hlen Hkey. unfold parse_monitor_line.
  change ("," +:+ extra) with (String "," extra).
  rewrite split_comma_append, fmap_app. fold (fields line). fold (fields extra).
  set (parts := fields line) in *. set (more := fields extra).
  rewrite !parse_monitor_try_unfold. cbv zeta.
  destruct (fields_app parts more 0 ltac:(lia)) as (-> & _).
  destruct (fields_app parts more 1 ltac:(lia)) as (_ & _ & -> & _).
  destruct (fields_app parts more 2 ltac:(lia)) as (_ & _ & -> & _).
  destruct (fields_app parts more 3 ltac:(lia)) as (-> & _).
  destruct (fields_app parts more 4 ltac:(lia)) as (-> & _).
  destruct (fields_app parts more 5 ltac:(lia)) as (-> & _).
  destruct (fields_app parts more 6 ltac:(lia)) as (-> & _).
  destruct (fields_app parts more 7 ltac:(lia)) as (-> & _).
  destruct (fields_app parts more 8 ltac:(lia)) as (-> & _).
  destruct (fields_app parts more 9 ltac:(lia)) as (_ & _ & _ & ->).
  destruct (fields_app parts more 10 ltac:(lia)) as (_ & _ & _ & ->).
  destruct (fields_app parts more 11 ltac:(lia)) as (_ & _ & _ & ->).
  destruct (fields_app parts more 12 ltac:(lia)) as (-> & _).
  destruct (fields_app parts more 13 ltac:(lia)) as (_ & -> & _).
  rewrite (part_app parts more 13) by lia.
  destruct (fields_app parts more 14 ltac:(lia)) as (-> & _).
  parser_cases parts;
    rewrite !lookup_insert; repeat case_decide; try done;
    by rewrite !lookup_empty.
Qed.

(** Extra X29 for the example line followed by two more fields. *)
Lemma later_fields_ignored_witness :
  parse_monitor_line (example_line +:+ "," +:+ "junk,7") !! "frequency"
  = parse_monitor_line example_line !! "frequency".
Proof.
  exact (later_fields_ignored example_line "junk,7" "frequency"
           ltac:(vm_compute; lia) ltac:(discriminate)).
Defined.

(** ** The reader thread over many turns *)

Lemma iteration_open r g h :
  ser g = Some h -> is_open h = true ->
  (monitor_reader_iteration r g).1 =
  match heard [r] with
  | [line] =>
      let g1 := set_latest_raw_line g line in
      if trusted line then publish g1 (parse_monitor_line line) else g1
  | _ => g
  end.
Proof.
  intros Hs Ho. unfold monitor_reader_iteration, read_on, heard, trusted.
  rewrite Hs, Ho. destruct r as [raw|e]; [|done]. cbn [omap list_omap].
  destruct (String.eqb_spec raw "") as [->|Hraw]; [done|].
  destruct (strip raw) as [|c l] eqn:E; [done|].
  cbn [String.eqb]. cbn [fst].
  destruct (contains_char "," (String c l)); [|done].
  cbn [andb]. by destruct (valid_observation _).
Qed.

Lemma iteration_ser r g : ser (monitor_reader_iteration r g).1 = ser g.
Proof.
  unfold monitor_reader_iteration. destruct (ser g) eqn:E; [|done].
  repeat case_match; cbn; done.
Qed.

Lemma iteration_requested r g :
  monitor_requested (monitor_reader_iteration r g).1 = monitor_requested g.
Proof.
  unfold monitor_reader_iteration. destruct (ser g) eqn:E; [|done].
  repeat case_match; cbn; done.
Qed.

Lemma iteration_active r g :
  monitor_active g = true -> monitor_active (monitor_reader_iteration r g).1 = true.
Proof.
  unfold monitor_reader_iteration. destruct (ser g) eqn:E; [|done].
  repeat case_match; cbn; done.
Qed.

Lemma iteration_idle r g :
  (forall h, ser g = Some h -> is_open h = false) ->
  (monitor_reader_iteration r g).1 = g.
Proof.
  intros H. unfold monitor_reader_iteration, read_on.
  destruct (ser g) as [h|] eqn:E; [|done]. by rewrite (H h eq_refl).
Qed.

Lemma thread_cons r rest g :
  monitor_reader_thread (r :: rest) g
  = ((monitor_reader_thread rest (monitor_reader_iteration r g).1).1,
     (monitor_reader_iteration r g).2
     ++ (monitor_reader_thread rest (monitor_reader_iteration r g).1).2).
Proof.
  cbn [monitor_reader_thread]. destruct (monitor_reader_iteration r g) as [g1 t1].
  cbn [fst snd]. by destruct (monitor_reader_thread rest g1).
Qed.

(** Extra X6.  However many turns the reader thread takes and whatever
    it reads, it never changes the link handle nor the
    [monitor_requested] flag, it never clears [monitor_active] once set,
    and with a handle that is closed it changes nothing at all. *)
Theorem reader_thread_frame (script : list read_outcome) (g : globals) :
  let g' := (monitor_reader_thread script g).1 in
  ser g' = ser g
  /\ monitor_requested g' = monitor_requested g
  /\ (monitor_active g = true -> monitor_active g' = true)
  /\ ((forall h, ser g = Some h -> is_open h = false) -> g' = g).
Proof.
  cbv zeta. revert g. induction script as [|r rest IH]; intros g; [done|].
  rewrite thread_cons. cbn [fst].
  destruct (IH (monitor_reader_iteration r g).1) as (I1 & I2 & I3 & I4).
  rewrite I1, I2, iteration_ser, iteration_requested.
  split; [done|]. split; [done|]. split.
  - intros H. by apply I3, iteration_active.
  - intros H. rewrite I4; rewrite (iteration_idle r g H); done.
Qed.

Lemma last_cons {A} (x : A) l d : List.last (x :: l) d = List.last l x.
Proof.
  revert x d. induction l as [|y l IH]; intros x d; [done|].
  change (List.last (x :: y :: l) d) with (List.last (y :: l) d).
  by rewrite !IH.
Qed.

Lemma heard_cons r rest : heard (r :: rest) = heard [r] ++ heard rest.
Proof. unfold heard. cbn [omap list_omap]. by repeat case_match. Qed.

(** Extra X7.  On an open link, after any sequence of reads of ASCII
    bytes (failed reads included), [latest_raw_line] is the last
    non-blank line read,
    trimmed, whether or not it parsed; the published snapshot is the
    parse of the last line read that has a comma and passed the reader's
    test; and [monitor_active] is set as soon as one such line was read.
    Without any such line each global keeps its value. *)
Theorem reader_thread_latest (script : list read_outcome) (g : globals) (h : handle) :
  ser g = Some h -> is_open h = true ->
  forallb ascii_read script = true ->
  let g' := (monitor_reader_thread script g).1 in
  latest_raw_line g' = List.last (heard script) (latest_raw_line g)
  /\ monitor_parsed g'
     = List.last (parse_monitor_line <$> List.filter trusted (heard script))
         (monitor_parsed g)
  /\ monitor_active g' = monitor_active g || existsb trusted (heard script).
Proof.
  intros Hs Ho _. cbv zeta. revert g Hs.
  induction script as [|r rest IH]; intros g Hs.
  - cbn. by rewrite orb_false_r.
  - rewrite thread_cons. cbn [fst].
    assert (Hs' : ser (monitor_reader_iteration r g).1 = Some h)
      by (by rewrite iteration_ser).
    destruct (IH _ Hs') as (I1 & I2 & I3). rewrite I1, I2, I3.
    rewrite (iteration_open r g h Hs Ho).
    rewrite (heard_cons r rest).
    destruct (heard [r]) as [|line [|]] eqn:E.
    + done.
    + cbn [app]. rewrite last_cons. cbn [List.filter existsb].
      destruct (trusted line); cbn [fmap list_fmap].
      * rewrite last_cons. cbn. by rewrite orb_true_r.
      * done.
    + unfold heard in E. cbn in E. repeat case_match; done.
Qed.

(** Extra X7 on a banner, a blank line and the example line. *)
Lemma reader_thread_latest_witness :
  latest_raw_line (monitor_reader_thread banner_then_line linked).1 = example_line
  /\ monitor_parsed (monitor_reader_thread banner_then_line linked).1
     = parse_monitor_line example_line.
Proof.
  pose proof (reader_thread_latest banner_then_line linked usb0 eq_refl eq_refl eq_refl)
    as (L & P & _).
  split; [exact L|exact P].
Defined.

Lemma iteration_guarded_app r g t :
  guarded_from false ((monitor_reader_iteration r g).2 ++ t) = guarded_from false t.
Proof.
  unfold monitor_reader_iteration. destruct (ser g); [|done].
  repeat case_match; reflexivity.
Qed.

(** Extra X8.  Over any number of turns, every read of the reader
    thread happens while it holds [serial_lock]. *)
Theorem reader_thread_guarded (script : list read_outcome) (g : globals) :
  guarded (monitor_reader_thread script g).2 = true.
Proof.
  unfold guarded. revert g. induction script as [|r rest IH]; intros g; [done|].
  rewrite thread_cons. cbn [snd]. rewrite iteration_guarded_app. apply IH.
Qed.

Lemma open_serial_frame env port baud g :
  monitor_parsed (open_serial env port baud g).1 = monitor_parsed g
  /\ monitor_active (open_serial env port baud g).1 = monitor_active g.
Proof.
  unfold open_serial. destruct g as [[old|] raw parsed active requested];
    cbn [ser set_ser]; repeat case_match; done.
Qed.

Lemma act_coherent a g :
  coherent (api_monitor g).2 = true -> coherent (api_monitor (act a g)).2 = true.
Proof.
  unfold coherent, api_monitor. cbn [snd view_active view_parsed].
  destruct a as [env port baud|r|requested script]; cbn [act].
  - rewrite (proj1 (open_serial_frame env port baud g)),
      (proj2 (open_serial_frame env port baud g)). done.
  - unfold monitor_reader_iteration.
    destruct (ser g) as [h|]; [|done].
    destruct (read_on h r) as [raw|e]; [|done].
    destruct (String.eqb raw ""); [done|].
    destruct (String.eqb (strip raw) ""); [done|].
    destruct (contains_char "," (strip raw)); [|done].
    by destruct (valid_observation (parse_monitor_line (strip raw))) eqn:V.
  - unfold toggle_monitor. by destruct (send_serial_raw script "t" 1 g) as [t [ls|e]].
Qed.

(** Extra X9.  Whatever the history of the backend since its start
    (the link opened and reopened, turns of the reader, monitor toggles,
    in any order and with any outcome), what [api_monitor] reports is
    coherent: either [monitor_active] is set and the snapshot reported
    passed the reader's test, or it is not set and the snapshot is
    empty. *)
Theorem monitor_view_coherent (l : list action) :
  coherent (api_monitor (history l)).2 = true.
Proof.
  unfold history. induction l as [|a l IH] using rev_ind; [done|].
  rewrite foldl_app. cbn [foldl]. by apply act_coherent.
Qed.

(** ** The command channel and the routes *)

Lemma collect_lines_take wait_lines script lines :
  (length lines < line_limit wait_lines)%nat ->
  (collect_lines wait_lines script lines).2
  = Ok (lines ++ take (line_limit wait_lines - length lines) (received_lines script)).
Proof.
  unfold line_limit.
  revert lines. induction script as [|[raw|e] script IH]; intros lines H.
  - simpl. by rewrite take_nil, app_nil_r.
  - cbn [collect_lines received_lines after snd] in *.
    destruct (String.eqb_spec raw "") as [->|Hraw].
    { simpl strip. cbv iota. by apply IH. }
    destruct (strip raw) as [|c line] eqn:Es.
    { simpl. by apply IH. }
    cbn [String.eqb negb]. rewrite length_app. cbn [length].
    destruct (Z.to_nat (Z.max 1 wait_lines) - length lines)%nat as [|k] eqn:K; [lia|].
    cbn [take].
    destruct (Z.leb_spec wait_lines (Z.of_nat (length lines + 1))) as [Hw|Hw].
    + assert (k = 0%nat) as -> by lia. by rewrite take_0.
    + rewrite IH by (rewrite length_app; simpl; lia).
      rewrite length_app. cbn [length]. rewrite <- app_assoc. cbn [app].
      replace (Z.to_nat (Z.max 1 wait_lines) - (length lines + 1))%nat with k by lia.
      done.
  - simpl. by rewrite take_nil, app_nil_r.
Qed.

(** Extra X10.  On an open link that answers in ASCII bytes,
    [send_serial_raw] raises the first exception of the buffer reset, the
    write and the flush, if there is one; otherwise it returns the first
    [wait_lines] non-blank lines received before the time runs out or a read fails (all of them when
    there are fewer, one line when [wait_lines] is below one), trimmed
    and in order, and raises nothing: an exception of [readline] only
    ends the reading. *)
Theorem send_result (script : io_script) (cmd : string) (wait_lines : Z)
    (g : globals) (h : handle) :
  ser g = Some h -> is_open h = true ->
  forallb ascii_read (reads script) = true ->
  (send_serial_raw script cmd wait_lines g).2
  = match refusal script with
    | Some e => Err e
    | None => Ok (take (line_limit wait_lines) (received_lines (reads script)))
    end.
Proof.
  intros Hs Ho _. unfold send_serial_raw, refusal. rewrite Hs.
  rewrite !on_handle_open, read_on_open by done.
  destruct (reset_raises script), (write_raises script), (flush_raises script); try done.
  assert (L : (length (@nil string) < line_limit wait_lines)%nat)
    by (unfold line_limit; simpl; lia).
  pose proof (collect_lines_take wait_lines (reads script) [] L) as C.
  cbn [length app] in C. rewrite Nat.sub_0_r in C.
  destruct (collect_lines wait_lines (reads script) []) as [t r].
  cbn in *. exact C.
Qed.

(** Extra X10 for a command that asks for one line and is sent two. *)
Lemma send_result_witness :
  (send_serial_raw two_lines "t" 1 linked).2 = Ok ["OK"].
Proof. exact (send_result two_lines "t" 1 linked usb0 eq_refl eq_refl eq_refl). Defined.

Lemma clean_strip raw : strip raw <> "" -> clean_line (strip raw) = true.
Proof.
  intros H. unfold clean_line. rewrite strip_idem, String.eqb_refl, andb_true_r.
  apply negb_true_iff. by apply String.eqb_neq.
Qed.

Lemma forallb_snoc {A} (f : A -> bool) l x :
  forallb f (l ++ [x]) = forallb f l && f x.
Proof. rewrite forallb_app. cbn. by rewrite andb_true_r. Qed.

Lemma collect_lines_clean wait_lines script lines :
  forallb clean_line lines = true ->
  (length lines < line_limit wait_lines)%nat ->
  exists t ls,
    collect_lines wait_lines script lines = (t, Ok ls)
    /\ forallb wire_operation t = true
    /\ forallb clean_line ls = true
    /\ (length ls <= line_limit wait_lines)%nat.
Proof.
  revert lines. induction script as [|[raw|e] script IH]; intros lines Hc Hl.
  - exists [], lines. repeat split; try done. lia.
  - cbn [collect_lines]. unfold after.
    destruct (String.eqb_spec raw "") as [->|Hraw].
    { destruct (IH lines Hc Hl) as (t & ls & -> & ? & ? & ?). by exists (Readline :: t), ls. }
    destruct (String.eqb_spec (strip raw) "") as [Es|Es]; cbn [negb].
    { destruct (IH lines Hc Hl) as (t & ls & -> & ? & ? & ?). by exists (Readline :: t), ls. }
    assert (Hc' : forallb clean_line (lines ++ [strip raw]) = true)
      by (by rewrite forallb_snoc, Hc, clean_strip).
    destruct (Z.leb_spec wait_lines (Z.of_nat (length (lines ++ [strip raw])))) as [Hw|Hw].
    + exists [Readline], (lines ++ [strip raw]). repeat split; try done.
      rewrite length_app in *. cbn [length] in *. lia.
    + destruct (IH (lines ++ [strip raw]) Hc') as (t & ls & -> & ? & ? & ?).
      { unfold line_limit in *. rewrite length_app in *. cbn [length] in *. lia. }
      by exists (Readline :: t), ls.
  - exists [Readline], lines. repeat split; try done. lia.
Qed.

Lemma line_limit_pos wait_lines : (0 < line_limit wait_lines)%nat.
Proof. unfold line_limit. lia. Qed.

Lemma send_serial_raw_shape script cmd wait_lines g :
  match ser g with
  | None =>
      send_serial_raw script cmd wait_lines g
      = ([], Err (Raise RuntimeError "Serial port not opened"))
  | Some _ =>
      exists body r,
        send_serial_raw script cmd wait_lines g
        = (Acquire serial_lock :: body ++ [Release serial_lock], r)
        /\ forallb wire_operation body = true
        /\ match r with
           | Ok ls => forallb clean_line ls = true
                      /\ (length ls <= line_limit wait_lines)%nat
           | Err _ => True
           end
  end.
Proof.
  unfold send_serial_raw. destruct (ser g) as [h|]; [|done].
  destruct (collect_lines_clean wait_lines (read_on h <$> reads script) []
              eq_refl (line_limit_pos wait_lines)) as (t & ls & E & Ht & Hc & Hl).
  unfold with_lock, perform. cbn [mbind io_bind]. rewrite E.
  destruct (on_handle h (reset_raises script));
    [by eexists [ResetInput], _|].
  destruct (on_handle h (write_raises script));
    [by eexists [ResetInput; Write _], _|].
  destruct (on_handle h (flush_raises script));
    [by eexists [ResetInput; Write _; Flush], _|].
  eexists (ResetInput :: Write _ :: Flush :: t), (Ok ls).
  split; [reflexivity|]. split; [exact Ht|]. by split.
Qed.

(** Extra X11.  Without a link [send_serial_raw] touches neither the
    lock nor the wire.  With one, whatever the device does, it takes
    [serial_lock] first, releases it last, and between the two only
    operates on the wire: the lock is released on every path, exceptions
    included. *)
Theorem send_lock_released (script : io_script) (cmd : string) (wait_lines : Z)
    (g : globals) :
  match ser g with
  | None => (send_serial_raw script cmd wait_lines g).1 = []
  | Some _ =>
      exists body,
        (send_serial_raw script cmd wait_lines g).1
        = Acquire serial_lock :: body ++ [Release serial_lock]
        /\ forallb wire_operation body = true
  end.
Proof.
  pose proof (send_serial_raw_shape script cmd wait_lines g) as S.
  destruct (ser g); [|by rewrite S].
  destruct S as (body & r & -> & Hb & _). by exists body.
Qed.

(** Extra X12.  The lines [send_serial_raw] returns are never empty,
    have no blank at either end, and are at most [wait_lines] (one when
    [wait_lines] is below one), whatever the state of the link and the
    behaviour of the device. *)
Theorem send_lines_clean (script : io_script) (cmd : string) (wait_lines : Z)
    (g : globals) (lines : list string) :
  (send_serial_raw script cmd wait_lines g).2 = Ok lines ->
  forallb clean_line lines = true /\ (length lines <= line_limit wait_lines)%nat.
Proof.
  pose proof (send_serial_raw_shape script cmd wait_lines g) as S.
  destruct (ser g); [|by rewrite S].
  destruct S as (body & r & -> & _ & Hr). cbn [snd]. by intros ->.
Qed.

(** Extra X12 for a command that asks for five lines and gets two. *)
Lemma send_lines_clean_witness :
  (send_serial_raw two_lines "t" 5 linked).2 = Ok ["OK"; "7200"]
  /\ forallb clean_line ["OK"; "7200"] = true
  /\ (length ["OK"; "7200"] <= line_limit 5)%nat.
Proof.
  split; [reflexivity|].
  exact (send_lines_clean two_lines "t" 5 linked ["OK"; "7200"] eq_refl).
Defined.

Lemma send_reply_cases script cmd wait_lines g :
  (exists t ls, send_serial_raw script cmd wait_lines g = (t, Ok ls)
     /\ forallb clean_line ls = true /\ (length ls <= line_limit wait_lines)%nat)
  \/ exists t e, send_serial_raw script cmd wait_lines g = (t, Err e).
Proof.
  pose proof (send_serial_raw_shape script cmd wait_lines g) as S.
  destruct (ser g); [|right; by eexists _, _].
  destruct S as (body & [ls|e] & -> & _ & Hr); [left|right]; by eexists _, _.
Qed.

(** Extra X15.  The command route replies either 200 with the command
    as sent (CR and LF removed) and at most four non-empty trimmed lines,
    or 500 with the text of the exception; the memory route either 200
    with at most thirty such lines, or 500; and a monitor toggle either
    200 with the [monitor_requested] flag set as asked and nothing else
    changed, or 500 with the globals as they were. *)
Theorem routes_reply (script : io_script) (cmd : string) (requested : bool)
    (g : globals) :
  ((exists ls, (api_command script cmd g).2
               = (200, [("ok", JBool true);
                        ("sent", JStr (remove_char LF (remove_char CR cmd)));
                        ("response_lines", JLines ls)])
               /\ forallb clean_line ls = true /\ (length ls <= 4)%nat)
   \/ exists e, (api_command script cmd g).2 = failure e)
  /\ ((exists ls, (api_memory_slots script g).2
                  = (200, [("ok", JBool true); ("lines", JLines ls)])
                  /\ forallb clean_line ls = true /\ (length ls <= 30)%nat)
      \/ exists e, (api_memory_slots script g).2 = failure e)
  /\ (((toggle_monitor requested script g).2.2
       = (200, [("ok", JBool true); ("msg", JStr "toggle-sent")])
       /\ (toggle_monitor requested script g).1 = set_monitor_requested g requested)
      \/ (exists e, (toggle_monitor requested script g).2.2 = failure e)
         /\ (toggle_monitor requested script g).1 = g).
Proof.
  split; [|split].
  - unfold api_command.
    destruct (send_reply_cases script (remove_char LF (remove_char CR cmd)) 4 g)
      as [(t & ls & -> & C)|(t & e & ->)]; [left; by exists ls|right; by exists e].
  - unfold api_memory_slots.
    destruct (send_reply_cases script "$" 30 g)
      as [(t & ls & -> & C)|(t & e & ->)]; [left; by exists ls|right; by exists e].
  - unfold toggle_monitor.
    destruct (send_serial_raw _ _ 1 g) as [t [ls|e]]; [by left|right].
    split; [by exists e|done].
Qed.

(** Extra X16.  Before a link is opened, the command, memory,
    screenshot and monitor-toggle routes all reply 500 with the error
    [Serial port not opened], without taking the lock, touching the wire
    or changing a global. *)
Theorem routes_without_link (script trigger : io_script) (reads : list read_outcome)
    (cmd : string) (requested : bool) (g : globals) :
  ser g = None ->
  let refused := ([], failure (Raise RuntimeError "Serial port not opened")) in
  api_command script cmd g = refused
  /\ api_memory_slots script g = refused
  /\ api_screenshot trigger reads g = refused
  /\ toggle_monitor requested script g = (g, refused).
Proof.
  intros H. unfold api_command, api_memory_slots, api_screenshot, toggle_monitor,
    send_serial_raw. rewrite H. done.
Qed.

(** Extra X16 on the globals the backend starts with. *)
Lemma routes_without_link_witness :
  ser initial_globals = None
  /\ api_command quiet "V" initial_globals
     = ([], (500, [("ok", JBool false); ("error", JStr "Serial port not opened")])).
Proof.
  split; [reflexivity|].
  exact (proj1 (routes_without_link quiet quiet [] "V" true initial_globals eq_refl)).
Defined.

Lemma join_removelast_le (l : list string) :
  (String.length (join "" (removelast l)) <= String.length (join "" l))%nat.
Proof.
  destruct l as [|x l] using rev_ind; [done|].
  rewrite removelast_last, join_empty_app. lia.
Qed.

Lemma accumulate_hex_bounded script chunks :
  forallb clean_line chunks = true ->
  Z.of_nat (String.length (join "" chunks)) <= MAX_HEX ->
  exists t r,
    accumulate_hex script chunks = (t, r)
    /\ match r with
       | Ok ls =>
           forallb clean_line ls = true
           /\ Z.of_nat (String.length (join "" (removelast ls))) <= MAX_HEX
       | Err _ => True
       end.
Proof.
  revert chunks. induction script as [|[raw|e] script IH]; intros chunks Hc Hl.
  - exists [], (Ok chunks). split; [done|]. split; [done|].
    pose proof (join_removelast_le chunks). lia.
  - cbn [accumulate_hex]. unfold after.
    destruct (String.eqb_spec raw "") as [->|Hraw].
    { destruct (IH chunks Hc Hl) as (t & r & -> & ?). by eexists _, _. }
    destruct (String.eqb_spec (strip raw) "") as [Es|Es].
    { destruct (IH chunks Hc Hl) as (t & r & -> & ?). by eexists _, _. }
    assert (Hc' : forallb clean_line (chunks ++ [strip raw]) = true)
      by (by rewrite forallb_snoc, Hc, clean_strip).
    destruct (Z.ltb_spec MAX_HEX
                (Z.of_nat (String.length (join "" (chunks ++ [strip raw]))))) as [Hw|Hw].
    + eexists _, (Ok _). split; [reflexivity|]. split; [done|].
      by rewrite removelast_last.
    + destruct (IH _ Hc' Hw) as (t & r & -> & ?). by eexists _, _.
  - by exists [Readline], (Err e).
Qed.

(** Extra X17.  The screenshot route replies either 500 or 200 with
    lines that are not empty and have no blank at either end, joined by
    line terminators; and it stops reading at the first line that takes
    the total size above [MAX_HEX], so that all lines but the last
    together are within [MAX_HEX]. *)
Theorem screenshot_reply_bounded (trigger : io_script) (script : list read_outcome)
    (g : globals) :
  (exists chunks,
     (api_screenshot trigger script g).2
     = (200, [("ok", JBool true); ("hex", JStr (join nl chunks))])
     /\ forallb clean_line chunks = true
     /\ Z.of_nat (String.length (join "" (removelast chunks))) <= MAX_HEX)
  \/ exists e, (api_screenshot trigger script g).2 = failure e.
Proof.
  unfold api_screenshot.
  destruct (send_serial_raw trigger "C" 1 g) as [t [ls|e]];
    [|right; by exists e].
  cbn [mbind io_bind].
  destruct (ser g) as [h|]; [|right; by eexists].
  destruct (accumulate_hex_bounded (read_on h <$> script) [] eq_refl ltac:(done))
    as (t' & [chunks|e] & -> & Hr); [left|right; by exists e].
  exists chunks. by split.
Qed.

Lemma accumulate_hex_app pre rest chunks :
  all_data pre = true ->
  Z.of_nat (String.length (join "" (chunks ++ received_lines pre))) <= MAX_HEX ->
  (accumulate_hex (pre ++ rest) chunks).2
  = (accumulate_hex rest (chunks ++ received_lines pre)).2.
Proof.
  revert chunks. induction pre as [|[raw|e] pre IH]; intros chunks Ha Hc.
  - simpl. by rewrite app_nil_r.
  - cbn [app accumulate_hex received_lines after snd all_data forallb] in *.
    destruct (String.eqb_spec raw "") as [->|Hraw].
    { simpl strip in *. cbv iota in Hc. by apply IH. }
    destruct (strip raw) as [|c line] eqn:Es.
    { simpl. by apply IH. }
    cbn [String.eqb].
    replace (chunks ++ String c line :: received_lines pre)
      with ((chunks ++ [String c line]) ++ received_lines pre) in *
      by (by rewrite <- app_assoc).
    replace (MAX_HEX <? Z.of_nat (String.length (join "" (chunks ++ [String c line]))))
      with false.
    + by apply IH.
    + symmetry. apply Z.ltb_ge. rewrite join_empty_app in Hc. lia.
  - discriminate.
Qed.

(** Extra X18.  A read that fails during the screenshot transfer loses
    the transfer: on an open link that accepted the trigger, when a
    [readline] raises after any number of good reads within the cap, the
    route replies 500 with the text of that exception and none of the
    data read (where the command channel would return the lines read so
    far). *)
Theorem screenshot_read_failure (trigger : io_script) (pre post : list read_outcome)
    (e : exn) (g : globals) (h : handle) :
  ser g = Some h -> is_open h = true -> accepts trigger = true ->
  all_data pre = true ->
  Z.of_nat (String.length (join "" (received_lines pre))) <= MAX_HEX ->
  (api_screenshot trigger (pre ++ ReadFails e :: post) g).2 = failure e.
Proof.
  intros Hs Ho Hr Ha Hc. unfold api_screenshot.
  rewrite (send_serial_raw_open trigger "C" 1 g h Hs Ho Hr).
  destruct (collect_lines_returns 1 (reads trigger) []) as (t & ls & ->).
  cbn [after with_lock fst snd mbind io_bind]. rewrite Hs, read_on_open by done.
  pose proof (accumulate_hex_app pre (ReadFails e :: post) [] Ha Hc) as A.
  destruct (accumulate_hex (pre ++ ReadFails e :: post) []) as [t' r].
  cbn in A. by subst r.
Qed.

(** Extra X18 for a device that disconnects after one line. *)
Lemma screenshot_read_failure_witness :
  (api_screenshot quiet ([Data ("48656C" +:+ nl)]
                         ++ ReadFails (Raise SerialException "device disconnected") :: [])
     linked).2
  = (500, [("ok", JBool false); ("error", JStr "device disconnected")]).
Proof.
  exact (screenshot_read_failure quiet [Data ("48656C" +:+ nl)] []
           (Raise SerialException "device disconnected") linked usb0
           eq_refl eq_refl eq_refl eq_refl ltac:(vm_compute; discriminate)).
Defined.

(** ** The link and the start of the program *)

(** Extra X19.  [open_serial] either returns a handle, which is then
    the one stored, open, on the port resolved from its argument, at a
    baud rate the port accepted: the rate asked for, or the fallback
    rate when the default rate was asked for and refused; or it raises,
    and then the global keeps the previous handle (closed, unless the
    close raised) or [None], and with no port to resolve it tried to
    open nothing and raises the [No serial ports found] error.  In both
    cases the raw line, the snapshot and the two monitor flags are
    untouched. *)
Theorem open_serial_outcome (env : link_env) (port : option string) (baud : Z)
    (g : globals) :
  let g' := (open_serial env port baud g).1 in
  match (open_serial env port baud g).2.2 with
  | Ok h =>
      ser g' = Some h /\ is_open h = true
      /\ resolved_port env port = Some (h_port h)
      /\ open_raises env (h_port h) (h_baud h) = None
      /\ (h_baud h = baud
          \/ (baud = DEFAULT_BAUD /\ h_baud h = FALLBACK_BAUD
              /\ is_Some (open_raises env (h_port h) baud)))
  | Err e =>
      ser g' = after_close env (ser g)
      /\ (resolved_port env port = None ->
          open_attempts (open_serial env port baud g).2.1 = []
          /\ e = Raise RuntimeError
                   "No serial ports found. Set ATS_PORT environment or pass --port.")
  end
  /\ latest_raw_line g' = latest_raw_line g
  /\ monitor_parsed g' = monitor_parsed g
  /\ monitor_active g' = monitor_active g
  /\ monitor_requested g' = monitor_requested g.
Proof.
  unfold open_serial, resolved_port, after_close.
  destruct g as [[old|] raw parsed active requested]; cbn [ser set_ser fmap option_fmap option_map].
  all: destruct port as [p|]; [|destruct (find_serial_port (comports env) None) as [p|]].
  all: try (destruct (open_raises env p baud) as [e|] eqn:E1;
            [destruct (Z.eqb_spec baud DEFAULT_BAUD) as [->|Hb];
             [destruct (open_raises env p FALLBACK_BAUD) as [e2|] eqn:E2|]|]).
  all: destruct (close_raises env); cbn.
  all: repeat split; try done; eauto.
  all: try (right; repeat split; try done; by eexists).
Qed.

Lemma prefix_upper k text : String.prefix (upper k) (upper text) = begins k text.
Proof.
  revert text. induction k as [|a k IH]; intros [|b t]; try done.
  cbn [upper String.prefix begins]. rewrite same_letter_upper, <- IH.
  destruct (ascii_dec (upper_char a) (upper_char b)) as [E|E].
  - by rewrite E, Ascii.eqb_refl.
  - apply Ascii.eqb_neq in E. by rewrite E.
Qed.

Lemma is_substring_upper k text :
  is_substring (upper k) (upper text) = mentions k text.
Proof.
  induction text as [|c t IH].
  - cbn [upper is_substring mentions]. by rewrite <- prefix_upper.
  - cbn [mentions]. rewrite <- IH, <- prefix_upper. reflexivity.
Qed.

Lemma find_ext {A} (f g : A -> bool) l :
  (forall x, f x = g x) -> List.find f l = List.find g l.
Proof. intros H. induction l as [|x l IH]; [done|]. cbn. by rewrite H, IH. Qed.

Lemma existsb_ext' {A} (f g : A -> bool) l :
  (forall x, f x = g x) -> existsb f l = existsb g l.
Proof. intros H. induction l as [|x l IH]; [done|]. cbn. by rewrite H, IH. Qed.

(** Extra X20.  Over ports whose description and manufacturer are ASCII
    texts, [find_serial_port] returns a non-empty preferred path as it
    is; otherwise the device of the first enumerated port whose
    description or manufacturer names one of the keywords, in any letter
    case; otherwise the device of the first port; and nothing when no
    port is enumerated. *)
Theorem find_serial_port_choice (ports : list port_info) (preferred : option string) :
  forallb ascii_port ports = true ->
  find_serial_port ports preferred
  = match preferred with
    | Some (String c r) => Some (String c r)
    | _ =>
        match List.find recognised ports with
        | Some p => Some (device p)
        | None => device <$> head ports
        end
    end.
Proof.
  intros _. unfold find_serial_port.
  assert (E : forall l, List.find
            (fun p => existsb
               (fun k => is_substring (upper k)
                  (upper (default "" (description p) +:+ " " +:+ default "" (manufacturer p))))
               keywords) l
          = List.find recognised l).
  { intros l. apply find_ext. intros p. apply existsb_ext'. intros k.
    apply is_substring_upper. }
  destruct preferred as [[|c r]|]; [|done|]; (destruct ports as [|first rest]; [done|]);
    rewrite E; by destruct (List.find recognised (first :: rest)).
Qed.

(** Extra X20 on a host with a legacy port and a USB bridge: the bridge
    is chosen. *)
Lemma find_serial_port_choice_witness :
  find_serial_port (comports slow_only) None = Some "/dev/ttyUSB0".
Proof. exact (find_serial_port_choice (comports slow_only) None eq_refl). Defined.

Lemma open_serial_ok env port baud g h :
  (open_serial env port baud g).2.2 = Ok h ->
  ser (open_serial env port baud g).1 = Some h /\ is_open h = true
  /\ open_raises env (h_port h) (h_baud h) = None.
Proof.
  unfold open_serial. destruct g as [[old|] raw parsed active requested];
    cbn [ser set_ser]; repeat case_match; cbn; intros [= <-]; done.
Qed.

(** Extra X26.  [main] starts the reader thread and the web server only
    with a link: when it ends up serving, the global holds an open
    handle on a port that accepted the baud rate, the host is the one
    given or [0.0.0.0], and the HTTP port the one given or 5000. *)
Theorem main_serves_with_link (os : environ) (args : argv) (env : link_env)
    (g : globals) (host : string) (http_port : Z) :
  (main os args env g).2.2 = Serving host http_port ->
  (exists h, ser (main os args env g).1 = Some h /\ is_open h = true
             /\ open_raises env (h_port h) (h_baud h) = None)
  /\ host = default "0.0.0.0" (arg_host args)
  /\ int_option (arg_http_port args) 5000 = Some http_port.
Proof.
  unfold main. destruct (baud_default os) as [dflt|e]; [|done].
  destruct (int_option (arg_baud args) dflt) as [baud|]; [|done].
  destruct (int_option (arg_http_port args) 5000) as [hp|]; [|done].
  set (port := match arg_port args with Some p => Some p | None => ATS_PORT os end).
  pose proof (open_serial_ok env port baud g) as O.
  destruct (open_serial env port baud g) as [g' [t [h|e]]]; [|done].
  cbn in *. intros [= <- <-]. split; [|done]. exists h. by apply O.
Qed.

(** Extra X26 for a start without options on a host where the port opens. *)
Lemma main_serves_with_link_witness :
  exists h, ser (main plain_environ no_options plugged initial_globals).1 = Some h
            /\ is_open h = true /\ open_raises plugged (h_port h) (h_baud h) = None.
Proof.
  exact (proj1 (main_serves_with_link plain_environ no_options plugged initial_globals
                  "0.0.0.0" 5000 eq_refl)).
Defined.

(** Extra X27.  An [ATS_BAUD] variable that is a non-empty ASCII text
    on which [int] raises (it is no integer literal between blanks of
    the C locale, or it has more than 4300 digits) ends [main] with an
    uncaught [ValueError] before any port is opened, whatever the command
    line: the default of [--baud] is computed even when the option is
    given. *)
Theorem main_bad_baud_variable (os : environ) (args : argv) (env : link_env)
    (g : globals) (s : string) :
  ATS_BAUD os = Some s -> s <> "" -> is_ascii s = true -> int_of_str s = None ->
  exists e, main os args env g = (g, ([], Uncaught e)) /\ exn_kind e = ValueError.
Proof.
  intros H Hs _ Hi. unfold main, baud_default. rewrite H.
  destruct s as [|c r]; [done|].
  unfold int_of_str in Hi. unfold py_int_str.
  destruct (int_syntax (String c r)) as [[v d]|]; [|by eexists].
  destruct (MAX_STR_DIGITS <? d); [by eexists|done].
Qed.

(** Extra X27 for [ATS_BAUD=fast]. *)
Lemma main_bad_baud_variable_witness :
  exists e, main fast_environ no_options plugged initial_globals
            = (initial_globals, ([], Uncaught e)) /\ exn_kind e = ValueError.
Proof.
  exact (main_bad_baud_variable fast_environ no_options plugged initial_globals "fast"
           eq_refl ltac:(discriminate) eq_refl eq_refl).
Defined.

(** ** The frequency formatter and the mode *)

(** Extra X21.  [format_frequency] does not depend on the letter case
    of the mode: two modes that differ only in case give the same text,
    for all raw values. *)
Theorem format_frequency_mode_case (freq_khz bfo_hz : pyarg) (m m' : string) :
  same_text m m' = true ->
  format_frequency freq_khz bfo_hz (AStr m) = format_frequency freq_khz bfo_hz (AStr m').
Proof.
  rewrite same_text_upper. intros E%String.eqb_eq.
  unfold format_frequency, format_frequency_try. cbn [py_upper mbind result_bind].
  by rewrite E.
Qed.

(** Extra X21 for [usb] and [USB]. *)
Lemma format_frequency_mode_case_witness :
  same_text "usb" "USB" = true
  /\ format_frequency (AInt 7200) (AInt 150) (AStr "usb")
     = format_frequency (AInt 7200) (AInt 150) (AStr "USB").
Proof.
  split; [reflexivity|].
  exact (format_frequency_mode_case (AInt 7200) (AInt 150) "usb" "USB" eq_refl).
Defined.

(** Extra X22.  For an ASCII mode outside the side-band modes the BFO
    offset is not looked at: [format_frequency] gives the same text for
    every BFO argument, even one that is no number; and a mode of [None]
    counts as the empty mode. *)
Theorem format_frequency_ignores_bfo (freq_khz bfo_hz bfo_hz' : pyarg) (mode : string) :
  is_ascii mode = true ->
  classify mode <> SideBand ->
  format_frequency freq_khz bfo_hz (AStr mode)
  = format_frequency freq_khz bfo_hz' (AStr mode)
  /\ format_frequency freq_khz bfo_hz ANone = format_frequency freq_khz bfo_hz' (AStr "").
Proof.
  intros _ H. pose proof (classify_cases mode) as C. cbv zeta in C.
  assert (E : bool_decide (upper mode ∈ ["USB"; "LSB"; "SSB"]) = false)
    by (destruct (classify mode); [done|apply C ..]).
  unfold format_frequency, format_frequency_try. cbn [py_upper mbind result_bind].
  rewrite E. done.
Qed.

(** Extra X22 for FM with a BFO text that is no number. *)
Lemma format_frequency_ignores_bfo_witness :
  format_frequency (AInt 99500) (AStr "junk") (AStr "FM")
  = format_frequency (AInt 99500) (AInt 0) (AStr "FM").
Proof.
  exact (proj1 (format_frequency_ignores_bfo (AInt 99500) (AStr "junk") (AInt 0) "FM"
                  eq_refl ltac:(discriminate))).
Defined.

(** ** The stand-alone screenshot tool *)

Lemma hex_value_char capitals n :
  0 <= n < 16 -> hex_value (hex_char capitals n) = Some n.
Proof.
  intros H. rewrite <- (Z2Nat.id n) by lia.
  assert (L : (Z.to_nat n < 16)%nat) by lia.
  revert L. generalize (Z.to_nat n) as k. intros k L.
  do 16 (destruct k as [|k]; [by destruct capitals|]). lia.
Qed.

Lemma code_range c : 0 <= code c < 256.
Proof.
  unfold code. pose proof (N_ascii_bounded c). lia.
Qed.

Lemma byte_of_digits c :
  ascii_of_N (Z.to_N (16 * (code c / 16) + code c mod 16)) = c.
Proof.
  rewrite <- Z.div_mod by lia. unfold code. rewrite N2Z.id. apply ascii_N_embedding.
Qed.

Lemma unhex_pairs_hexlify capitals b : unhex_pairs (hexlify capitals b) = Some b.
Proof.
  induction b as [|c b IH]; [done|].
  pose proof (code_range c) as R.
  cbn [hexlify unhex_pairs].
  assert (Hq : 0 <= code c / 16 < 16)
    by (split; [apply Z.div_pos; lia|apply Z.div_lt_upper_bound; lia]).
  assert (Hr : 0 <= code c mod 16 < 16) by (apply Z.mod_pos_bound; lia).
  rewrite (hex_value_char capitals _ Hq), (hex_value_char capitals _ Hr).
  cbn [mbind option_bind]. rewrite IH. cbn [fmap option_fmap option_map].
  by rewrite byte_of_digits.
Qed.

Lemma hexlify_length capitals b :
  String.length (hexlify capitals b) = (2 * String.length b)%nat.
Proof. induction b as [|c b IH]; [done|]. cbn [hexlify String.length]. lia. Qed.

Lemma unhexlify_hexlify capitals b : unhexlify (hexlify capitals b) = Ok b.
Proof.
  unfold unhexlify. rewrite hexlify_length, unhex_pairs_hexlify.
  replace (Nat.odd (2 * String.length b)) with false; [done|].
  symmetry. rewrite <- Nat.negb_even, Nat.even_mul. done.
Qed.

(** Extra X23.  The stand-alone tool recovers what the device sent: for
    every sequence of bytes, when the data received, CR and LF apart, is
    the bytes written two hexadecimal digits each (capitals or not), the
    tool saves exactly these bytes in [screenshot.bmp]. *)
Theorem screenshot_round_trip (capitals : bool) (bytes : string) (chunks : list string) :
  remove_char LF (remove_char CR (read_all chunks)) = hexlify capitals bytes ->
  screenshot_main chunks = Saved OUTPUT_FILE bytes.
Proof.
  intros H. unfold screenshot_main, decode_and_save. by rewrite H, unhexlify_hexlify.
Qed.

(** Extra X23 for five bytes received in three chunks with line breaks. *)
Lemma screenshot_round_trip_witness :
  screenshot_main ["4865" +:+ nl; "6c6c" +:+ String CR nl; "6f"] = Saved OUTPUT_FILE "Hello".
Proof.
  exact (screenshot_round_trip false "Hello" ["4865" +:+ nl; "6c6c" +:+ String CR nl; "6f"]
           eq_refl).
Defined.

Lemma unhex_pairs_length s b :
  unhex_pairs s = Some b -> String.length s = (2 * String.length b)%nat.
Proof.
  revert b. induction s as [|c|c d s IH] using pairs_ind; intros b.
  - by intros [= <-].
  - done.
  - cbn [unhex_pairs]. destruct (hex_value c); [|done]. destruct (hex_value d); [|done].
    cbn [mbind option_bind]. destruct (unhex_pairs s) as [r|]; [|done].
    intros [= <-]. cbn [String.length]. rewrite (IH r eq_refl). lia.
Qed.

(** Extra X24.  Whenever the stand-alone tool saves a file, the file is
    [screenshot.bmp] and it holds one byte for every two characters
    received, CR and LF not counted. *)
Theorem decoded_size (chunks : list string) (file content : string) :
  screenshot_main chunks = Saved file content ->
  file = OUTPUT_FILE
  /\ String.length (remove_char LF (remove_char CR (read_all chunks)))
     = (2 * String.length content)%nat.
Proof.
  unfold screenshot_main, decode_and_save, unhexlify.
  set (hex := remove_char LF (remove_char CR (read_all chunks))).
  destruct (Nat.odd (String.length hex)); [done|].
  destruct (unhex_pairs hex) as [b|] eqn:E; [|done].
  intros [= <- <-]. split; [done|]. by apply unhex_pairs_length.
Qed.

(** Extra X24 for ten digits on two lines. *)
Lemma decoded_size_witness :
  String.length (remove_char LF (remove_char CR (read_all ["4865" +:+ nl; "6C6C6F"])))
  = (2 * String.length "Hello")%nat.
Proof.
  exact (proj2 (decoded_size ["4865" +:+ nl; "6C6C6F"] OUTPUT_FILE "Hello" eq_refl)).
Defined.

Lemma read_loop_app chunks later data :
  Forall (fun c => c <> "") chunks ->
  read_loop (chunks ++ "" :: later) data = Some (data +:+ join "" chunks)
  /\ read_loop chunks data = None.
Proof.
  intros H. revert data. induction H as [|c chunks Hc H IH]; intros data.
  - cbn. by rewrite append_empty_r.
  - cbn [app read_loop]. apply String.eqb_neq in Hc. rewrite Hc.
    destruct (IH (data +:+ c)) as [-> ->]. split; [|done]. f_equal.
    destruct chunks as [|d chunks]; cbn [join].
    + by rewrite append_empty_r.
    + change ("" +:+ join "" (d :: chunks)) with (join "" (d :: chunks)).
      apply append_assoc.
Qed.

(** Extra X25.  The read loop of the stand-alone tool ends at the first
    empty chunk: what it decodes is the concatenation of the chunks
    before it, in order, and nothing read after; and as long as no chunk
    is empty it goes on reading and saves nothing. *)
Theorem script_reads_to_first_empty (chunks later : list string) :
  Forall (fun c => c <> "") chunks ->
  screenshot_script (chunks ++ "" :: later) = Some (screenshot_main chunks)
  /\ screenshot_script chunks = None.
Proof.
  intros H. unfold screenshot_script, screenshot_main, read_all.
  destruct (read_loop_app chunks later "" H) as [-> ->]. done.
Qed.

(** Extra X25 for two chunks, a time-out and a late chunk. *)
Lemma script_reads_to_first_empty_witness :
  screenshot_script ["4865"; "6C6C6F"; ""; "FF"] = Some (Saved OUTPUT_FILE "Hello")
  /\ screenshot_script ["4865"; "6C6C6F"] = None.
Proof.
  exact (script_reads_to_first_empty ["4865"; "6C6C6F"] ["FF"]
           ltac:(repeat constructor; discriminate)).
Defined.

(** ** The voltage of a reading *)

Lemma f_1_702_value : f_1_702 = Finite false C1702 (-52).
Proof. vm_compute. reflexivity. Qed.

Lemma le_scaled_wide d n : 0 < n -> d <= 2 ^ 100 -> d <= n * 2 ^ 1000.
Proof.
  intros Hn Hd.
  assert (H : 2 ^ 100 <= 2 ^ 1000) by (apply Z.pow_le_mono_r; lia).
  set (K := 2 ^ 1000) in *. set (J := 2 ^ 100) in *. nia.
Qed.

Lemma pow2_ge a b : 0 <= a <= b -> 2 ^ a <= 2 ^ b.
Proof. intros H. apply Z.pow_le_mono_r; lia. Qed.

Lemma small_significand m e : m <= 2 ^ 53 -> e < 0 -> (1024 <=? Z.log2 m + e) = false.
Proof.
  intros Hm He. apply Z.leb_gt.
  assert (Z.log2 m <= Z.log2 (2 ^ 53)) by (apply Z.log2_le_mono; lia).
  change (Z.log2 (2 ^ 53)) with 53 in *. lia.
Qed.

Lemma reading_float n :
  0 < n <= 2 ^ 32 ->
  exists m e, round_ratio false n 1 = Finite false m e /\ e < 0 /\ m = n * 2 ^ (- e).
Proof.
  intros Hn.
  destruct (round_ratio_normal false n 1 ltac:(lia) ltac:(lia)
              (le_scaled 1 n ltac:(lia) ltac:(lia)))
    as (m & e & He & Hm & E & Hpos & Hneg).
  assert (Hlt : e < 0).
  { destruct (Z.lt_ge_cases e 0) as [|H0]; [done|exfalso].
    destruct (Hpos H0) as [_ P].
    assert (1 <= 2 ^ e) by (change 1 with (2 ^ 0); apply pow2_ge; lia).
    assert (2 ^ 32 < 2 ^ 52) by done.
    set (X := 2 ^ e) in *. set (Y := 2 ^ 52) in *. set (W := 2 ^ 32) in *. nia. }
  exists m, e. rewrite E, small_significand by lia.
  split; [done|]. split; [done|]. destruct (Hneg Hlt) as [P _]. lia.
Qed.

Lemma product_float n :
  0 < n <= 2 ^ 32 ->
  exists mp ep,
    round_ratio false (n * C1702) (2 ^ 52) = Finite false mp ep
    /\ -52 <= ep <= -19 /\ 2 ^ 52 <= mp <= 2 ^ 53
    /\ 2 * Z.abs (n * C1702 * 2 ^ (- ep) - mp * 2 ^ 52) <= 2 ^ 52.
Proof.
  intros Hn.
  assert (HC : 2 ^ 52 <= C1702 < 2 ^ 53) by done.
  assert (Ha : 0 < n * C1702) by (unfold C1702; lia).
  destruct (round_ratio_normal false (n * C1702) (2 ^ 52) Ha ltac:(done)
              (le_scaled_wide (2 ^ 52) (n * C1702) Ha ltac:(apply pow2_ge; lia)))
    as (mp & ep & He & Hm & E & _ & Hneg).
  assert (L0 : - 0 <= log2_ratio (n * C1702) (2 ^ 52)).
  { apply log2_ratio_lower; [done|done|lia|]. change (2 ^ 0) with 1. unfold C1702 in *.
    change (2 ^ 52) with 4503599627370496. lia. }
  assert (L1 : log2_ratio (n * C1702) (2 ^ 52) < 34).
  { apply log2_ratio_upper; [done|done|lia|]. unfold C1702 in *.
    change (2 ^ 52 * 2 ^ 34) with (2 ^ 32 * 2 ^ 54). 
    change (2 ^ 53) with 9007199254740992 in HC. change (2 ^ 54) with 18014398509481984.
    set (W := 2 ^ 32) in *. nia. }
  exists mp, ep. rewrite E, small_significand by lia.
  split; [done|]. split; [lia|]. split; [done|].
  destruct (Hneg ltac:(lia)) as [P _]. exact P.
Qed.

Lemma quotient_float n mp ep :
  0 < n <= 2 ^ 32 -> -52 <= ep <= -19 -> 2 ^ 52 <= mp <= 2 ^ 53 ->
  2 * Z.abs (n * C1702 * 2 ^ (- ep) - mp * 2 ^ 52) <= 2 ^ 52 ->
  exists mq eq,
    round_ratio false mp (2 ^ (- ep) * 1000) = Finite false mq eq
    /\ eq <= -28
    /\ 2 * Z.abs (mp * 2 ^ (- eq) - mq * (2 ^ (- ep) * 1000)) <= 2 ^ (- ep) * 1000.
Proof.
  intros Hn Hep Hmp H3.
  assert (E1lo : 2 ^ 19 <= 2 ^ (- ep)) by (apply pow2_ge; lia).
  assert (E1hi : 2 ^ (- ep) <= 2 ^ 52) by (apply pow2_ge; lia).
  set (E1 := 2 ^ (- ep)) in *.
  change (2 ^ 19) with 524288 in E1lo.
  change (2 ^ 52) with 4503599627370496 in *.
  change (2 ^ 53) with 9007199254740992 in *.
  change (2 ^ 32) with 4294967296 in *.
  assert (Hd : 0 < E1 * 1000) by lia.
  assert (Hw : E1 * 1000 <= 2 ^ 100).
  { change (2 ^ 100) with 1267650600228229401496703205376. lia. }
  destruct (round_ratio_normal false mp (E1 * 1000) ltac:(lia) Hd
              (le_scaled_wide (E1 * 1000) mp ltac:(lia) Hw))
    as (mq & eq & He & Hm & E & _ & Hneg).
  assert (Hup : mp <= 8589934592 * E1).
  { unfold C1702 in H3.
    assert (n * 7665126565784584 * E1 <= 4294967296 * 7665126565784584 * E1) by nia.
    lia. }
  assert (L1 : log2_ratio mp (E1 * 1000) < 25).
  { apply log2_ratio_upper; [lia|done|lia|]. change (2 ^ 25) with 33554432. lia. }
  exists mq, eq. rewrite E, small_significand by lia.
  split; [done|]. split; [lia|].
  destruct (Hneg ltac:(lia)) as [P _]. exact P.
Qed.

Lemma abs_scaled x b c : 2 * Z.abs x <= b -> 0 <= c -> 2 * Z.abs (x * c) <= b * c.
Proof. intros H Hc. rewrite Z.abs_mul, (Z.abs_eq c) by done. nia. Qed.

Lemma thousandths_near n mp mq r E1 E2 :
  0 < n <= 2 ^ 32 -> 2 ^ 19 <= E1 -> 2 ^ 28 <= E2 ->
  2 * Z.abs (n * C1702 * E1 - mp * 2 ^ 52) <= 2 ^ 52 ->
  2 * Z.abs (mp * E2 - mq * (E1 * 1000)) <= E1 * 1000 ->
  2 * Z.abs (mq * 1000 - r * E2) <= E2 ->
  2 * Z.abs (1000 * r - 1702 * n) <= 1000.
Proof.
  intros Hn HE1 HE2 H3 H2 H1.
  change (2 ^ 19) with 524288 in *. change (2 ^ 28) with 268435456 in *.
  change (2 ^ 32) with 4294967296 in *. change (2 ^ 52) with 4503599627370496 in *.
  unfold C1702 in *.
  apply (abs_scaled _ _ E2) in H3; [|lia].
  apply (abs_scaled _ _ E1) in H1; [|lia].
  set (U := E1 * E2).
  assert (HU : 0 < U) by (unfold U; nia).
  assert (B1 : E1 * 268435456 <= U) by (unfold U; nia).
  assert (B2 : E2 * 524288 <= U) by (unfold U; nia).
  set (a1 := r * U). set (a2 := mq * E1). set (a3 := mp * E2). set (a4 := n * U).
  replace ((n * 7665126565784584 * E1 - mp * 4503599627370496) * E2)
    with (7665126565784584 * a4 - 4503599627370496 * a3) in H3
    by (unfold a4, a3, U; ring).
  replace ((mq * 1000 - r * E2) * E1) with (1000 * a2 - a1) in H1
    by (unfold a1, a2, U; ring).
  replace (mp * E2 - mq * (E1 * 1000)) with (a3 - 1000 * a2) in H2
    by (unfold a2, a3; ring).
  replace (E2 * E1) with U in H1 by (unfold U; ring).
  assert (B4 : 0 <= a4 <= 4294967296 * U) by (unfold a4; nia).
  destruct (Z.le_gt_cases (Z.abs (500 * r - 851 * n)) 250) as [|Hbig]; [lia|exfalso].
  assert (T : 251 * U <= Z.abs (500 * a1 - 851 * a4)).
  { replace (500 * a1 - 851 * a4) with ((500 * r - 851 * n) * U) by (unfold a1, a4; ring).
    rewrite Z.abs_mul, (Z.abs_eq U) by lia. nia. }
  clearbody a1 a2 a3 a4 U. lia.
Qed.

Lemma digit_plain c :
  is_digit c = true ->
  Ascii.eqb c "_" = false /\ upper_char c = c /\ is_space c = false
  /\ Ascii.eqb c "I" = false /\ Ascii.eqb c "N" = false
  /\ Ascii.eqb c "-" = false /\ Ascii.eqb c "+" = false.
Proof. destruct c as [[] [] [] [] [] [] [] []]; done. Qed.

Lemma drop_underscores_digits prev s :
  Ascii.eqb prev "_" = false -> all_digits s = true -> drop_underscores prev s = Some s.
Proof.
  revert prev. induction s as [|c s IH]; intros prev Hp.
  - intros _. cbn. by rewrite Hp.
  - cbn [all_digits drop_underscores]. intros [Hc Hs]%andb_prop.
    destruct (digit_plain c Hc) as (E & _).
    rewrite E, Hp. cbn [andb]. by rewrite (IH c E Hs).
Qed.

Lemma upper_digits s : all_digits s = true -> upper s = s.
Proof.
  induction s as [|c s IH]; [done|]. cbn [all_digits upper].
  intros [Hc Hs]%andb_prop. destruct (digit_plain c Hc) as (_ & E & _).
  by rewrite E, (IH Hs).
Qed.

Lemma take_digits_all acc cnt s :
  all_digits s = true ->
  exists v, take_digits acc cnt s = (v, (cnt + String.length s)%nat, "")
            /\ int_digits acc true s = Some v.
Proof.
  revert acc cnt. induction s as [|c s IH]; intros acc cnt.
  - intros _. exists acc. cbn. by rewrite Nat.add_0_r.
  - cbn [all_digits take_digits int_digits String.length]. intros [Hc Hs]%andb_prop.
    rewrite Hc. destruct (IH (acc * 10 + digit_value c) (S cnt) Hs) as (v & -> & ->).
    exists v. split; [|done]. do 2 f_equal. lia.
Qed.

Lemma float_of_reading n :
  0 <= n -> float_of_str (str_of_int n) = Some (round_ratio false n 1).
Proof.
  intros Hn. unfold float_of_str, str_of_int.
  replace (n <? 0) with false by (symmetry; apply Z.ltb_ge; lia).
  rewrite strip_no_space by apply str_of_nat_no_space.
  pose proof (str_of_nat_all_digits n) as D.
  pose proof (int_digits_str_of_nat n Hn) as V.
  rewrite drop_underscores_digits by done. cbn [mbind option_bind].
  destruct (str_of_nat_Z n) as [|c s] eqn:Es.
  { by destruct (str_of_nat_digit n) as (c & r & E & _); rewrite Es in E. }
  pose proof D as D'. cbn [all_digits] in D'. apply andb_prop in D' as [Hc Hs].
  destruct (digit_plain c Hc) as (_ & _ & _ & HI & HN & Hm & Hp).
  assert (Hsign : take_sign (String c s) = (false, String c s)).
  { unfold take_sign. clear -Hc. destruct c as [[] [] [] [] [] [] [] []]; done. }
  rewrite Hsign, (upper_digits _ D).
  cbn [String.eqb]. rewrite HI, HN. cbn [orb].
  unfold decimal_literal.
  destruct (take_digits_all 0 0 (String c s) D) as (v & T & I).
  rewrite T. cbn [Nat.add String.length].
  rewrite (int_digits_step 0 false c s Hc) in V.
  rewrite (int_digits_step 0 true c s Hc) in I.
  assert (v = n) as -> by congruence.
  cbn. f_equal. f_equal. lia.
Qed.

Lemma magnitude_neg m e : e < 0 -> magnitude m e = (m, 2 ^ (- e)).
Proof.
  intros H. unfold magnitude.
  by replace (0 <=? e) with false by (symmetry; apply Z.leb_gt; lia).
Qed.

(** Extra X28.  The voltage shown for an ADC reading is right to the
    thousandth: for every integer reading [n] from [0] to [2^32],
    written in decimal, the voltage computed from its text is the float
    nearest to [r / 1000] for an integer [r] within one half of
    [1.702 * n], that is [n * 1.702 / 1000] rounded to three decimals;
    the three roundings of the float operations never move the
    result. *)
Theorem voltage_of_reading (n : Z) :
  0 <= n <= 2 ^ 32 ->
  exists r, voltage_of (str_of_int n) = VFloat (round_ratio false r 1000)
            /\ 2 * Z.abs (1000 * r - 1702 * n) <= 1000.
Proof.
  intros Hn. destruct (Z.eq_dec n 0) as [->|Hn0].
  { exists 0. split; [vm_compute; reflexivity|lia]. }
  assert (Hpos : 0 < n <= 2 ^ 32) by lia.
  unfold voltage_of. rewrite float_of_reading by lia.
  destruct (reading_float n Hpos) as (m & e & -> & He & ->).
  rewrite f_1_702_value. unfold fmul.
  rewrite (magnitude_neg _ e He), (magnitude_neg C1702 (-52)) by lia.
  cbn [xorb]. change (- -52) with 52.
  assert (HE : 0 < 2 ^ (- e)) by (apply Z.pow_pos_nonneg; lia).
  replace (n * 2 ^ (- e) * C1702) with (n * C1702 * 2 ^ (- e)) by ring.
  replace (2 ^ (- e) * 2 ^ 52) with (2 ^ 52 * 2 ^ (- e)) by ring.
  rewrite round_ratio_scale by (unfold C1702; lia).
  destruct (product_float n Hpos) as (mp & ep & -> & Hep & Hmp & H3).
  unfold fdiv, f_1000. cbn [is_zero]. change (1000 =? 0) with false. cbv iota.
  rewrite (magnitude_neg mp ep) by lia.
  change (magnitude 1000 0) with (1000, 1). cbn [xorb].
  rewrite Z.mul_1_r.
  destruct (quotient_float n mp ep Hpos Hep Hmp H3) as (mq & eq & -> & Heq & H2).
  cbn [round_ndigits]. unfold decimal_digits.
  change (10 ^ Z.of_nat 3) with 1000.
  rewrite (magnitude_neg (mq * 1000) eq) by lia.
  assert (HE2 : 2 ^ 28 <= 2 ^ (- eq)) by (apply pow2_ge; lia).
  assert (HE1 : 2 ^ 19 <= 2 ^ (- ep)) by (apply pow2_ge; lia).
  exists (div_half_even (mq * 1000) (2 ^ (- eq))). split; [done|].
  apply (thousandths_near n mp mq _ (2 ^ (- ep)) (2 ^ (- eq)) Hpos HE1 HE2 H3 H2).
  apply div_half_even_near. lia.
Qed.

(** Extra X28 for the reading [210] of the example line. *)
Lemma voltage_of_reading_witness :
  exists r, voltage_of (str_of_int 210) = VFloat (round_ratio false r 1000)
            /\ 2 * Z.abs (1000 * r - 1702 * 210) <= 1000.
Proof. exact (voltage_of_reading 210 ltac:(done)). Defined.
